(** * kube-tui-aid: the monitoring and analysis pipeline

    A shallow embedding of the three Deno edge functions that make up the
    pipeline, and the properties of them that the specification states:

    - [PrometheusMonitor]: supabase/functions/prometheus-monitor/index.ts
      (health scoring, threshold alerts);
    - [IntelligentAnalysis]: the intelligent-analysis function
      (event correlation, pod restart trends, suggestions);
    - [SlackIntegration]: the slack-integration function (severity filter).

    Around them, and for the properties that follow those of the
    specification: [Collector] (the metric collection of prometheus-monitor),
    [HealthNodes] (the node count of the health scorer), [SlackDelivery] (the
    fan-out to the webhooks) and [ClusterMonitor]
    (supabase/functions/monitor-clusters/index.ts: pod health and smart
    alerts), and [Kubectl] (supabase/functions/kubectl/index.ts: the
    commands it carries out and the requests it makes of them).

    JavaScript numbers are IEEE 754 binary64 values, so they are embedded as
    Rocq's primitive floats; array lengths and epoch milliseconds are exact
    integers and are kept in [nat] and [Z].  A database table is the list of
    its rows.  A table that a pass both reads and writes is part of the state
    of the pass: a write returns the new list and is taken to succeed; a read
    is a function of the list when it is answered, and whether it is answered
    is a parameter of the pass, as the code leaves the error of such a read
    unread and goes on with null data.  The rows a pass only reads are an
    input of the pass, null ([None]) when the query failed; the rows it only
    writes are collected in the order it hands them over.  Calls to the
    language model are answered by an oracle that is a parameter of every
    pass: its answer may depend on the input and on how many calls the pass
    made before. *)

From Stdlib Require Import ZArith List String Ascii Bool Lia Floats Uint63 Permutation.
Import ListNotations.

Set Implicit Arguments.

(* Decimal literals such as 0.7 denote the nearest binary64 value, exactly as
   they do in the JavaScript sources. *)
Set Warnings "-inexact-float".

(** ** JavaScript primitives used by the sources *)

Module JS.

Definition number := float.
#[global] Bind Scope float_scope with number.

(** An array length (an integer below 2^32) as a number. *)
Definition ofNat (n : nat) : number := PrimFloat.of_uint63 (Uint63.of_Z (Z.of_nat n)).

(** [a >= b] and [a > b] on numbers: false as soon as one side is NaN. *)
Definition ge (a b : number) : bool := PrimFloat.leb b a.
Definition gt (a b : number) : bool := PrimFloat.ltb b a.

(** [Math.max(a, b)]: NaN if either is NaN, and +0 is larger than -0. *)
Definition Math_max (a b : number) : number :=
  if PrimFloat.is_nan a || PrimFloat.is_nan b then PrimFloat.nan
  else if PrimFloat.ltb a b then b
  else if PrimFloat.ltb b a then a
  else if PrimFloat.is_zero a && PrimFloat.get_sign a then b
  else a.

(** [Math.round(x)]: the integer nearest to [x], the larger one of two
    that are equally near; NaN, the infinities and the zeros are returned as
    they are, and a result that is 0 keeps the sign of [x].  A finite [x] is
    [m * 2^e] for a 53-bit [m]: it is an integer already when [e] is not
    negative, and otherwise the result is below 2^53 and computed exactly. *)
Definition Math_round (x : number) : number :=
  match Prim2SF x with
  | S754_finite s m e =>
      if (0 <=? e)%Z then x
      else
        let d := Z.pow 2 (- e) in
        let n := ((2 * (if s then Z.neg m else Z.pos m) + d) / (2 * d))%Z in
        if (n =? 0)%Z then (if s then (-0)%float else 0%float)
        else if (n <? 0)%Z then (- PrimFloat.of_uint63 (Uint63.of_Z (- n)))%float
        else PrimFloat.of_uint63 (Uint63.of_Z n)
  | _ => x
  end.

(** Truthiness of a nullable string: [null], [undefined] and [''] are falsy. *)
Definition truthy (s : option string) : bool :=
  match s with
  | Some (String _ _) => true
  | _ => false
  end.

(** [s || d] for a nullable string [s] and a string [d]. *)
Definition orElse (s : option string) (d : string) : string :=
  match s with
  | Some (String c r) => String c r
  | _ => d
  end.

(** [a === b] on nullable strings. *)
Definition strictEq (a b : option string) : bool :=
  match a, b with
  | Some x, Some y => String.eqb x y
  | None, None => true
  | _, _ => false
  end.

(** [arr.indexOf(x)]: the first index holding [x], or -1. *)
Fixpoint indexOfFrom (i : Z) (arr : list string) (x : string) : Z :=
  match arr with
  | [] => (-1)%Z
  | y :: rest => if String.eqb y x then i else indexOfFrom (i + 1) rest x
  end.

Definition indexOf (arr : list string) (x : string) : Z := indexOfFrom 0 arr x.

(** [arr.find(p)] is [List.find]; [arr.filter(p)] is [List.filter];
    [arr.reduce(f, init)] is [List.fold_left]. *)

(** [s.toUpperCase()] on ASCII text. *)
Definition upperAscii (c : ascii) : ascii :=
  let n := nat_of_ascii c in
  if (97 <=? n)%nat && (n <=? 122)%nat then ascii_of_nat (n - 32) else c.

Fixpoint toUpperCase (s : string) : string :=
  match s with
  | EmptyString => EmptyString
  | String c r => String (upperAscii c) (toUpperCase r)
  end.

End JS.

Bind Scope float_scope with JS.number.

(** [for (const x of xs)] on a state, with the number of the iteration. *)
Fixpoint forEachFrom {State Item : Type} (body : nat -> State -> Item -> State)
    (k : nat) (xs : list Item) (st : State) : State :=
  match xs with
  | [] => st
  | x :: rest => forEachFrom body (S k) rest (body k st x)
  end.

(** ** supabase/functions/prometheus-monitor/index.ts *)

(** A row of [cluster_configs]. *)
Module Cluster.
Record t := mk {
  id : string;
  user_id : string;
  name : string;
  endpoint : string;
  namespace : string
}.
End Cluster.

(** A row of [cluster_metrics]. *)
Module Metric.
Record t := mk {
  cluster_id : string;
  metric_type : string;
  metric_name : string;
  value : JS.number;
  node_name : option string;
  resource_name : option string;
  timestamp : Z
}.
End Metric.

(** A row of [pod_health]. *)
Module PodHealth.
Record t := mk {
  cluster_id : string;
  pod_name : string;
  namespace : string;
  container_name : option string;
  restart_count : Z;
  exit_code : option Z;
  exit_reason : option string;
  status : string;
  updated_at : Z
}.
End PodHealth.

(** A row of [monitoring_alerts].  The columns the database fills by default
    on insert are [acknowledged = false] and [resolved = false]; the
    generated [id] and the two timestamps play no part in the code. *)
Module Alert.
Record t := mk {
  cluster_id : string;
  user_id : string;
  alert_type : string;
  severity : string;
  threshold_value : JS.number;
  current_value : JS.number;
  node_name : option string;
  resource_name : option string;
  message : string;
  acknowledged : bool;
  resolved : bool
}.
End Alert.

Module PrometheusMonitor.
Import JS.
Open Scope string_scope.

(** *** calculateComponentScore *)

Definition typeMetrics (metrics : list Metric.t) (type : string) : list Metric.t :=
  filter (fun m => String.eqb (Metric.metric_type m) type) metrics.

Definition avgValue (tm : list Metric.t) : number :=
  (fold_left (fun sum m => sum + Metric.value m) tm 0 / ofNat (List.length tm))%float.

Definition calculateComponentScore
    (metrics : list Metric.t) (type : string) (alertThreshold : number) : number :=
  let tm := typeMetrics metrics type in
  match tm with
  | [] => 100%float
  | _ :: _ =>
      let avg := avgValue tm in
      if ge avg alertThreshold
      then Math_max 0%float (100 - (avg - alertThreshold) * 10)%float
      else Math_max 0%float (100 - (avg / alertThreshold) * 50)%float
  end.

(** *** calculateClusterHealthScore *)

Record ComponentScores := {
  cpuScore : number;
  memoryScore : number;
  diskScore : number;
  networkScore : number;
  podHealthScore : number
}.

Inductive HealthResult :=
| HealthError (msg : string)
| HealthOk (overallScore : number) (componentScores : ComponentScores).

(** [podHealth?.length || 0] and [podHealth?.filter(...).length || 0]:
    a failed query leaves [podHealth] null and both counts 0. *)
Definition totalPods (podHealth : option (list PodHealth.t)) : nat :=
  match podHealth with
  | Some rows => List.length rows
  | None => 0
  end.

Definition healthyPods (podHealth : option (list PodHealth.t)) : nat :=
  match podHealth with
  | Some rows => List.length (filter (fun p => String.eqb (PodHealth.status p) "Running") rows)
  | None => 0
  end.

Definition calculatePodHealthScore (podHealth : option (list PodHealth.t)) : number :=
  if (0 <? totalPods podHealth)%nat
  then (ofNat (healthyPods podHealth) / ofNat (totalPods podHealth) * 100)%float
  else 100%float.

(** The pass after its two reads: [metrics] are the rows of the last five
    minutes, [podHealth] the pod rows of the cluster.  The overall score is
    returned rounded to two decimals, the component scores as they are. *)
Definition calculateClusterHealthScore
    (metrics : option (list Metric.t)) (podHealth : option (list PodHealth.t))
    : HealthResult :=
  match metrics with
  | None | Some [] => HealthError "No recent metrics available"
  | Some ms =>
      let cpu := calculateComponentScore ms "cpu" 80%float in
      let memory := calculateComponentScore ms "memory" 85%float in
      let disk := calculateComponentScore ms "disk" 90%float in
      let network := 95%float in
      let pod := calculatePodHealthScore podHealth in
      let overallScore :=
        (cpu * 0.25 + memory * 0.25 + disk * 0.20 + network * 0.10 + pod * 0.20)%float in
      HealthOk (Math_round (overallScore * 100) / 100)%float
               {| cpuScore := cpu; memoryScore := memory; diskScore := disk;
                  networkScore := network; podHealthScore := pod |}
  end.

(** *** checkMetricThresholds *)

Record Threshold := { critical : number; warning : number }.

(** The [thresholds] table.  A [metric_type] outside it gives [undefined]
    and the sample is skipped; a name that the object inherits (constructor,
    toString) gives an object without [critical] and [warning], against which
    no comparison holds, and the sample is skipped all the same. *)
Definition thresholds (metric_type : string) : option Threshold :=
  if String.eqb metric_type "cpu" then Some {| critical := 90; warning := 80 |}
  else if String.eqb metric_type "memory" then Some {| critical := 95; warning := 85 |}
  else if String.eqb metric_type "disk" then Some {| critical := 95; warning := 90 |}
  else None.

(** The two comparisons of the loop body, in their order: the pair is
    [(severity, thresholdValue)], and [None] is [severity] left null. *)
Definition severityOf (threshold : Threshold) (value : number) : option (string * number) :=
  if ge value (critical threshold) then Some ("critical", critical threshold)
  else if ge value (warning threshold) then Some ("warning", warning threshold)
  else None.

Definition alertType (metric : Metric.t) : string :=
  Metric.metric_type metric ++ "_pressure".

(** The filters of the lookup:
    [.eq('cluster_id', cluster.id).eq('alert_type', ...)
     .eq('node_name', metric.node_name || '').eq('resolved', false)].
    In SQL a NULL [node_name] is equal to no string, the empty one included. *)
Definition matchesExisting (cluster : Cluster.t) (metric : Metric.t) (a : Alert.t) : bool :=
  String.eqb (Alert.cluster_id a) (Cluster.id cluster)
  && String.eqb (Alert.alert_type a) (alertType metric)
  && match Alert.node_name a with
     | Some n => String.eqb n (orElse (Metric.node_name metric) "")
     | None => false
     end
  && negb (Alert.resolved a).

(** [.single()]: the row when exactly one row matches, otherwise an error
    with [data] null. *)
Definition single {A : Type} (rows : list A) : option A :=
  match rows with
  | [r] => Some r
  | _ => None
  end.

(** [const { data: existingAlert } = await ... .single()].  The code does
    not read [error]: a lookup that is not [answered] (the query failed)
    leaves [existingAlert] null, as one that finds no row does. *)
Definition existingAlert (answered : bool) (cluster : Cluster.t) (metric : Metric.t)
    (alerts : list Alert.t) : option Alert.t :=
  if answered then single (filter (matchesExisting cluster metric) alerts) else None.

Section Thresholds.

(** Number formatting: [value.toFixed(1)] and the template's [${thresholdValue}]. *)
Variable toFixed1 : number -> string.
Variable numberToString : number -> string.

(** Whether the lookup of the [k]-th iteration of a pass is answered. *)
Variable alertLookup : nat -> bool.

Definition alertMessage (metric : Metric.t) (severity : string) (thresholdValue : number)
    : string :=
  toUpperCase (Metric.metric_type metric) ++ " usage " ++ toFixed1 (Metric.value metric)
  ++ "% exceeds " ++ severity ++ " threshold of " ++ numberToString thresholdValue
  ++ "% on " ++ orElse (Metric.node_name metric) "cluster".

(** The row handed to [.insert]. *)
Definition newAlert (cluster : Cluster.t) (metric : Metric.t)
    (severity : string) (thresholdValue : number) : Alert.t :=
  {| Alert.cluster_id := Cluster.id cluster;
     Alert.user_id := Cluster.user_id cluster;
     Alert.alert_type := alertType metric;
     Alert.severity := severity;
     Alert.threshold_value := thresholdValue;
     Alert.current_value := Metric.value metric;
     Alert.node_name := Metric.node_name metric;
     Alert.resource_name := Metric.resource_name metric;
     Alert.message := alertMessage metric severity thresholdValue;
     Alert.acknowledged := false;
     Alert.resolved := false |}.

(** Iteration [k] of [for (const metric of metrics)]: the state is the
    [monitoring_alerts] table and the counter [alertsCreated]. *)
Definition checkMetric (cluster : Cluster.t) (k : nat) (st : list Alert.t * nat)
    (metric : Metric.t) : list Alert.t * nat :=
  match thresholds (Metric.metric_type metric) with
  | None => st
  | Some threshold =>
      match severityOf threshold (Metric.value metric) with
      | None => st
      | Some (severity, thresholdValue) =>
          match existingAlert (alertLookup k) cluster metric (fst st) with
          | Some _ => st
          | None => ((fst st ++ [newAlert cluster metric severity thresholdValue])%list, S (snd st))
          end
      end
  end.

(** The pass after its read: [metrics] are the cluster's rows of the last two
    minutes.  It returns the table and [alertsCreated]. *)
Definition checkMetricThresholds (cluster : Cluster.t) (metrics : option (list Metric.t))
    (alerts : list Alert.t) : list Alert.t * nat :=
  match metrics with
  | None | Some [] => (alerts, 0)
  | Some ms => forEachFrom (checkMetric cluster) 0 ms (alerts, 0)
  end.

End Thresholds.

(** The unresolved rows of a (cluster_id, alert_type, node_name) triple. *)
Definition openAlerts (cluster_id alert_type : string) (node_name : option string)
    (alerts : list Alert.t) : list Alert.t :=
  filter (fun a => String.eqb (Alert.cluster_id a) cluster_id
                   && String.eqb (Alert.alert_type a) alert_type
                   && strictEq (Alert.node_name a) node_name
                   && negb (Alert.resolved a)) alerts.

End PrometheusMonitor.

(** ** The intelligent-analysis function *)

(** A row of [cluster_events]; [created_at] in epoch milliseconds, as
    [new Date(event.created_at).getTime()] reads it. *)
Module Event.
Record t := mk {
  id : string;
  cluster_id : string;
  namespace : string;
  name : string;
  kind : string;
  reason : string;
  message : string;
  type : string;
  created_at : Z
}.
End Event.

(** An element of the array [groupEventsByTimeWindows] builds. *)
Module Window.
Record t := mk { startTime : Z; endTime : Z; events : list Event.t }.
End Window.

(** A row handed to [event_correlations]. *)
Module EventCorrelation.
Record resource := mkResource { name : string; kind : string; namespace : string }.
Record t := mk {
  cluster_id : string;
  correlation_id : string;
  primary_event_id : string;
  related_event_ids : list string;
  root_cause_analysis : string;
  confidence_score : JS.number;
  correlation_type : string;
  affected_resources : list resource
}.
End EventCorrelation.

(** The average interval as [calculateAverageRestartInterval] words it:
    ['0 seconds'] or ['<n> minutes']. *)
Inductive Interval :=
| Seconds (n : Z)
| Minutes (n : Z).

(** A row handed to [pod_restart_trends]. *)
Module PodRestartTrend.
Record t := mk {
  cluster_id : string;
  pod_name : string;
  namespace : string;
  time_window : Z;
  restart_count : Z;
  avg_restart_interval : Interval;
  trend_direction : string;
  trend_score : JS.number
}.
End PodRestartTrend.

(** A row of [smart_alerts]. *)
Module SmartAlert.
Record t := mk {
  id : string;
  cluster_id : string;
  alert_type : string;
  severity : string;
  resource_type : string;
  resource_name : string;
  namespace : option string;
  description : string;
  suggestion : option string;
  is_resolved : bool;
  created_at : Z
}.
End SmartAlert.

(** A row of [intelligent_suggestions] (its generated [id] apart), and at the
    same time an element of the array the suggestion model is asked for. *)
Module Suggestion.
Record json := mkJson {
  type : string;
  priority : Z;
  title : string;
  description : string;
  actionSteps : list string;
  estimatedImpact : string;
  difficulty : string;
  confidence : JS.number
}.
Record t := mk {
  alert_id : string;
  suggestion_type : string;
  row_priority : Z;
  row_title : string;
  row_description : string;
  action_steps : list string;
  estimated_impact : string;
  implementation_difficulty : string;
  ai_confidence : JS.number
}.
End Suggestion.

(** What one call of the language model comes to inside the [try] block of
    the three [...WithAI] functions. *)
Inductive Reply (A : Type) :=
| Threw        (* fetch or response.json() rejected, or the body has no
                  choices[0].message.content *)
| Unparsable   (* JSON.parse threw on the content *)
| Parsed (v : A).

Arguments Threw {A}.
Arguments Unparsable {A}.
Arguments Parsed {A} v.

(** The call ended in the [catch] block. *)
Definition callFailed {A : Type} (r : Reply A) : bool :=
  match r with
  | Parsed _ => false
  | _ => true
  end.

(** The parsed content of a correlation or trend reply is an object with the
    fields the prompt asks for, or null ([None]).  A number that is missing
    compares like NaN: no comparison with it holds. *)
Module CorrelationJson.
Record t := mk {
  isCorrelated : bool;
  confidence : JS.number;
  rootCause : string;
  type : string
}.
End CorrelationJson.

(** The object [analyzeEventCorrelationWithAI] returns. *)
Module CorrelationAnalysis.
Record t := mk { confidence : JS.number; rootCause : string; type : string }.
End CorrelationAnalysis.

(** The object [analyzePodTrendWithAI] returns. *)
Module TrendAnalysis.
Record t := mk { significance : JS.number; direction : string; score : JS.number }.
End TrendAnalysis.

(** The parsed content of a suggestions reply: an array, or a value that
    [for ... of] cannot iterate (null, an object). *)
Inductive SuggestionsJson :=
| NotIterable
| Items (suggestions : list Suggestion.json).

(** A JavaScript [Map] with string keys.  [data] is the map's own list of
    entries, in insertion order: [has], [get] and [set] work on it.
    [ownProps] are the own enumerable properties of the object, which is what
    [Object.entries] lists; none of the Map methods creates one. *)
Module JSMap.

Record t (V : Type) := mk { data : list (string * V); ownProps : list (string * V) }.

Definition empty {V : Type} : t V := mk [] [].

Definition has {V : Type} (m : t V) (key : string) : bool :=
  existsb (fun kv => String.eqb (fst kv) key) (data m).

Definition get {V : Type} (m : t V) (key : string) : option V :=
  option_map snd (find (fun kv => String.eqb (fst kv) key) (data m)).

Fixpoint setData {V : Type} (d : list (string * V)) (key : string) (v : V) : list (string * V) :=
  match d with
  | [] => [(key, v)]
  | (k, w) :: rest => if String.eqb k key then (k, v) :: rest else (k, w) :: setData rest key v
  end.

Definition set {V : Type} (m : t V) (key : string) (v : V) : t V :=
  mk (setData (data m) key v) (ownProps m).

End JSMap.

Definition Object_entries {V : Type} (o : JSMap.t V) : list (string * V) :=
  JSMap.ownProps o.

(** What a pass returns: [{ ...Found: 0 }] or [{ ...Analyzed: 0 }] or
    [{ ...Generated: 0 }] on the early exit, the counter at the end of the
    loop, or [{ error }] from the [catch] of the pass. *)
Inductive PassResult :=
| NothingToDo
| Created (count : nat)
| PassError.

(** [.upsert(row, { onConflict })]: the row replaces the one with the same
    conflict key, or is added. *)
Fixpoint upsert {A : Type} (sameKey : A -> A -> bool) (row : A) (table : list A) : list A :=
  match table with
  | [] => [row]
  | r :: rest => if sameKey r row then row :: rest else r :: upsert sameKey row rest
  end.

Module IntelligentAnalysis.
Import JS.
Open Scope string_scope.

(** *** Utility functions *)

Definition inWindow (eventTime : Z) (w : Window.t) : bool :=
  (Window.startTime w <=? eventTime)%Z && (eventTime <=? Window.endTime w)%Z.

(** [windows.find(...)] followed by [window.events.push(event)] on the
    window found, which is an element of [windows]; [None] when [find]
    returns undefined. *)
Fixpoint pushToFound (eventTime : Z) (event : Event.t) (windows : list Window.t)
    : option (list Window.t) :=
  match windows with
  | [] => None
  | w :: rest =>
      if inWindow eventTime w
      then Some (Window.mk (Window.startTime w) (Window.endTime w)
                           (Window.events w ++ [event])%list :: rest)
      else option_map (cons w) (pushToFound eventTime event rest)
  end.

Definition groupEventsByTimeWindows (events : list Event.t) (windowMinutes : Z)
    : list Window.t :=
  let windowMs := (windowMinutes * 60 * 1000)%Z in
  fold_left
    (fun windows event =>
       let eventTime := Event.created_at event in
       match pushToFound eventTime event windows with
       | Some windows' => windows'
       | None =>
           (windows ++ [Window.mk (eventTime / windowMs * windowMs)
                                  (eventTime / windowMs * windowMs + windowMs)
                                  [event]])%list
       end)
    events [].

(** [groups.get(key)!.push(item)] changes the array the map holds, which is
    [set] on the same key here. *)
Definition groupBy {T : Type} (array : list T) (keyFunc : T -> string) : JSMap.t (list T) :=
  fold_left
    (fun groups item =>
       let key := keyFunc item in
       let groups := if JSMap.has groups key then groups else JSMap.set groups key [] in
       match JSMap.get groups key with
       | Some items => JSMap.set groups key (items ++ [item])%list
       | None => groups
       end)
    array JSMap.empty.

Fixpoint intervals (podData : list PodHealth.t) : list Z :=
  match podData with
  | prev :: (curr :: _) as rest =>
      (PodHealth.updated_at curr - PodHealth.updated_at prev)%Z :: intervals rest
  | _ => []
  end.

(** [Math.round(avgMs / 60000)] with [avgMs] the mean of the intervals, in
    exact arithmetic: round to nearest, a half goes up. *)
Definition calculateAverageRestartInterval (podData : list PodHealth.t) : Interval :=
  if (List.length podData <? 2)%nat then Seconds 0
  else
    let ivs := intervals podData in
    let sum := fold_left Z.add ivs 0%Z in
    let d := (Z.of_nat (List.length ivs) * 60000)%Z in
    Minutes ((2 * sum + d) / (2 * d))%Z.

Definition podKey (pod : PodHealth.t) : string :=
  PodHealth.pod_name pod ++ "_" ++ PodHealth.namespace pod.

(** [currentHour.setMinutes(0, 0, 0)] on [new Date()], in epoch milliseconds. *)
Definition currentHour (now : Z) : Z := (now - now mod 3600000)%Z.

Section Analysis.

(** The language model: its reply to the [n]-th call of a pass on an input. *)
Variable correlationModel : nat -> list Event.t -> Reply (option CorrelationJson.t).
Variable trendModel : nat -> list PodHealth.t -> Reply (option TrendAnalysis.t).
Variable suggestionModel : nat -> SmartAlert.t -> Cluster.t -> Reply SuggestionsJson.

(** Whether the lookup of existing suggestions in the [k]-th iteration of a
    suggestion pass is answered. *)
Variable suggestionLookup : nat -> bool.

(** [`${Date.now()}_${Math.random().toString(36).substr(2, 9)}`] at the
    [k]-th correlation of a pass, and the time [new Date()] reads at the
    [k]-th trend of a pass. *)
Variable correlationSuffix : nat -> string.
Variable now : nat -> Z.

(** *** AI analysis functions *)

Definition analyzeEventCorrelationWithAI (n : nat) (events : list Event.t)
    : CorrelationAnalysis.t :=
  match correlationModel n events with
  | Parsed (Some result) =>
      CorrelationAnalysis.mk
        (if CorrelationJson.isCorrelated result
         then CorrelationJson.confidence result else 0%float)
        (CorrelationJson.rootCause result)
        (CorrelationJson.type result)
  | _ => CorrelationAnalysis.mk 0%float "Analysis failed" "unknown"
  end.

(** [return JSON.parse(...)]: the parsed value as it is, null ([None])
    included. *)
Definition analyzePodTrendWithAI (n : nat) (podData : list PodHealth.t)
    : option TrendAnalysis.t :=
  match trendModel n podData with
  | Parsed v => v
  | _ => Some (TrendAnalysis.mk 0%float "stable" 0%float)
  end.

Definition generateSuggestionsWithAI (n : nat) (alert : SmartAlert.t) (cluster : Cluster.t)
    : SuggestionsJson :=
  match suggestionModel n alert cluster with
  | Parsed v => v
  | _ => Items []
  end.

(** *** performEventCorrelation *)

(** The state of the loop: the rows handed to [.upsert] so far, the inputs
    the model was asked about so far, and the counter. *)
Record CorrelationState := {
  correlations : list EventCorrelation.t;
  correlationCalls : list (list Event.t);
  correlationsCreated : nat
}.

Definition correlationRow (cluster : Cluster.t) (k : nat) (events : list Event.t)
    (analysis : CorrelationAnalysis.t) : EventCorrelation.t :=
  {| EventCorrelation.cluster_id := Cluster.id cluster;
     EventCorrelation.correlation_id :=
       "corr_" ++ Cluster.id cluster ++ "_" ++ correlationSuffix k;
     EventCorrelation.primary_event_id :=
       match events with e :: _ => Event.id e | [] => "" end;
     EventCorrelation.related_event_ids := map Event.id (tl events);
     EventCorrelation.root_cause_analysis := CorrelationAnalysis.rootCause analysis;
     EventCorrelation.confidence_score := CorrelationAnalysis.confidence analysis;
     EventCorrelation.correlation_type := CorrelationAnalysis.type analysis;
     EventCorrelation.affected_resources :=
       map (fun e => EventCorrelation.mkResource (Event.name e) (Event.kind e)
                                                 (Event.namespace e)) events |}.

(** One iteration of [for (const window of timeWindows)]. *)
Definition correlateWindow (cluster : Cluster.t) (st : CorrelationState) (window : Window.t)
    : CorrelationState :=
  let events := Window.events window in
  if (List.length events <? 2)%nat then st
  else
    let correlationAnalysis :=
      analyzeEventCorrelationWithAI (List.length (correlationCalls st)) events in
    let calls := (correlationCalls st ++ [events])%list in
    if gt (CorrelationAnalysis.confidence correlationAnalysis) 0.7
    then {| correlations :=
              (correlations st
               ++ [correlationRow cluster (correlationsCreated st) events correlationAnalysis])%list;
            correlationCalls := calls;
            correlationsCreated := S (correlationsCreated st) |}
    else {| correlations := correlations st;
            correlationCalls := calls;
            correlationsCreated := correlationsCreated st |}.

Definition correlationStart : CorrelationState :=
  {| correlations := []; correlationCalls := []; correlationsCreated := 0 |}.

(** The pass after its read: [events] are the cluster's events of the last
    two hours, newest first, at most 100, or null when the query failed. *)
Definition performEventCorrelation (cluster : Cluster.t) (events : option (list Event.t))
    : CorrelationState * PassResult :=
  match events with
  | None | Some [] => (correlationStart, NothingToDo)
  | Some evs =>
      let timeWindows := groupEventsByTimeWindows evs 5 in
      let st := fold_left (correlateWindow cluster) timeWindows correlationStart in
      (st, Created (correlationsCreated st))
  end.

Definition sameCorrelationKey (a b : EventCorrelation.t) : bool :=
  String.eqb (EventCorrelation.cluster_id a) (EventCorrelation.cluster_id b)
  && String.eqb (EventCorrelation.correlation_id a) (EventCorrelation.correlation_id b).

(** The [event_correlations] table after the upserts of a pass. *)
Definition storeCorrelations (table : list EventCorrelation.t) (st : CorrelationState)
    : list EventCorrelation.t :=
  fold_left (fun t row => upsert sameCorrelationKey row t) (correlations st) table.

(** *** analyzePodRestartTrends *)

Record TrendState := {
  trends : list PodRestartTrend.t;
  trendCalls : list (list PodHealth.t);
  trendsCreated : nat
}.

Definition trendRow (cluster : Cluster.t) (k : nat) (podData : list PodHealth.t)
    (trendAnalysis : TrendAnalysis.t) : PodRestartTrend.t :=
  {| PodRestartTrend.cluster_id := Cluster.id cluster;
     PodRestartTrend.pod_name :=
       match podData with p :: _ => PodHealth.pod_name p | [] => "" end;
     PodRestartTrend.namespace :=
       match podData with p :: _ => PodHealth.namespace p | [] => "" end;
     PodRestartTrend.time_window := currentHour (now k);
     PodRestartTrend.restart_count :=
       match rev podData with p :: _ => PodHealth.restart_count p | [] => 0%Z end;
     PodRestartTrend.avg_restart_interval := calculateAverageRestartInterval podData;
     PodRestartTrend.trend_direction := TrendAnalysis.direction trendAnalysis;
     PodRestartTrend.trend_score := TrendAnalysis.score trendAnalysis |}.

(** One iteration of [for (const [podKey, podData] of ...)]; [None] when
    it throws (reading [.significance] of null), which the [catch] of the pass
    turns into [{ error }]. *)
Definition analyzeGroup (cluster : Cluster.t) (st : TrendState)
    (entry : string * list PodHealth.t) : option TrendState :=
  let podData := snd entry in
  if (List.length podData <? 2)%nat then Some st
  else
    let calls := (trendCalls st ++ [podData])%list in
    match analyzePodTrendWithAI (List.length (trendCalls st)) podData with
    | None => None
    | Some trendAnalysis =>
        if gt (TrendAnalysis.significance trendAnalysis) 0.5
        then Some {| trends := (trends st
                                ++ [trendRow cluster (trendsCreated st) podData
                                             trendAnalysis])%list;
                     trendCalls := calls;
                     trendsCreated := S (trendsCreated st) |}
        else Some {| trends := trends st;
                     trendCalls := calls;
                     trendsCreated := trendsCreated st |}
    end.

Fixpoint analyzeGroups (cluster : Cluster.t) (entries : list (string * list PodHealth.t))
    (st : TrendState) : TrendState * PassResult :=
  match entries with
  | [] => (st, Created (trendsCreated st))
  | entry :: rest =>
      match analyzeGroup cluster st entry with
      | Some st' => analyzeGroups cluster rest st'
      | None =>
          ({| trends := trends st;
              trendCalls := (trendCalls st ++ [snd entry])%list;
              trendsCreated := trendsCreated st |}, PassError)
      end
  end.

Definition trendStart : TrendState :=
  {| trends := []; trendCalls := []; trendsCreated := 0 |}.

(** The pass after its read: [podHealthData] are the cluster's [pod_health]
    rows updated in the last 24 hours, oldest first, or null when the query
    failed. *)
Definition analyzePodRestartTrends (cluster : Cluster.t)
    (podHealthData : option (list PodHealth.t)) : TrendState * PassResult :=
  match podHealthData with
  | None | Some [] => (trendStart, NothingToDo)
  | Some rows =>
      let podGroups := groupBy rows podKey in
      analyzeGroups cluster (Object_entries podGroups) trendStart
  end.

Definition sameTrendKey (a b : PodRestartTrend.t) : bool :=
  String.eqb (PodRestartTrend.cluster_id a) (PodRestartTrend.cluster_id b)
  && String.eqb (PodRestartTrend.pod_name a) (PodRestartTrend.pod_name b)
  && String.eqb (PodRestartTrend.namespace a) (PodRestartTrend.namespace b)
  && (PodRestartTrend.time_window a =? PodRestartTrend.time_window b)%Z.

(** The [pod_restart_trends] table after the upserts of a pass. *)
Definition storeTrends (table : list PodRestartTrend.t) (st : TrendState)
    : list PodRestartTrend.t :=
  fold_left (fun t row => upsert sameTrendKey row t) (trends st) table.

(** *** generateIntelligentSuggestions *)

(** [.order('created_at', { ascending: false })]. *)
Fixpoint insertByCreatedAt (a : SmartAlert.t) (sorted : list SmartAlert.t) : list SmartAlert.t :=
  match sorted with
  | [] => [a]
  | b :: rest =>
      if (SmartAlert.created_at b <? SmartAlert.created_at a)%Z
      then a :: sorted
      else b :: insertByCreatedAt a rest
  end.

Definition orderByCreatedAtDesc (rows : list SmartAlert.t) : list SmartAlert.t :=
  fold_right insertByCreatedAt [] rows.

(** The first read of the pass, on the [smart_alerts] table. *)
Definition unresolvedAlerts (cluster : Cluster.t) (smart_alerts : list SmartAlert.t)
    : list SmartAlert.t :=
  orderByCreatedAtDesc
    (filter (fun a => String.eqb (SmartAlert.cluster_id a) (Cluster.id cluster)
                      && negb (SmartAlert.is_resolved a)) smart_alerts).

(** The rows that the read inside the loop selects on the
    [intelligent_suggestions] table. *)
Definition existingSuggestions (alert : SmartAlert.t) (suggestions : list Suggestion.t)
    : list Suggestion.t :=
  filter (fun s => String.eqb (Suggestion.alert_id s) (SmartAlert.id alert)) suggestions.

Definition suggestionRow (alert : SmartAlert.t) (suggestion : Suggestion.json) : Suggestion.t :=
  {| Suggestion.alert_id := SmartAlert.id alert;
     Suggestion.suggestion_type := Suggestion.type suggestion;
     Suggestion.row_priority := Suggestion.priority suggestion;
     Suggestion.row_title := Suggestion.title suggestion;
     Suggestion.row_description := Suggestion.description suggestion;
     Suggestion.action_steps := Suggestion.actionSteps suggestion;
     Suggestion.estimated_impact := Suggestion.estimatedImpact suggestion;
     Suggestion.implementation_difficulty := Suggestion.difficulty suggestion;
     Suggestion.ai_confidence := Suggestion.confidence suggestion |}.

(** The state of the loop: the [intelligent_suggestions] table, the alerts the
    model was asked about so far, and the counter. *)
Record SuggestionState := {
  suggestions : list Suggestion.t;
  suggestionCalls : list SmartAlert.t;
  suggestionsCreated : nat
}.

(** [const { data: existingSuggestions } = await ...] in iteration [k].  The
    code does not read [error]: when the lookup is not answered,
    [existingSuggestions] is null. *)
Definition lookupSuggestions (k : nat) (alert : SmartAlert.t) (suggestions : list Suggestion.t)
    : option (list Suggestion.t) :=
  if suggestionLookup k then Some (existingSuggestions alert suggestions) else None.

(** Iteration [k] of [for (const alert of alerts)]; [None] when the inner
    [for ... of] throws on a value that is not iterable.  The guard
    [existingSuggestions && existingSuggestions.length > 0] skips the alert
    only for an answer with a row. *)
Definition suggestFor (cluster : Cluster.t) (k : nat) (st : SuggestionState)
    (alert : SmartAlert.t) : option SuggestionState :=
  match lookupSuggestions k alert (suggestions st) with
  | Some (_ :: _) => Some st
  | _ =>
      match generateSuggestionsWithAI (List.length (suggestionCalls st)) alert cluster with
      | NotIterable => None
      | Items items =>
          Some {| suggestions := (suggestions st ++ map (suggestionRow alert) items)%list;
                  suggestionCalls := (suggestionCalls st ++ [alert])%list;
                  suggestionsCreated := suggestionsCreated st + List.length items |}
      end
  end.

Fixpoint suggestForAll (cluster : Cluster.t) (alerts : list SmartAlert.t) (k : nat)
    (st : SuggestionState) : SuggestionState * PassResult :=
  match alerts with
  | [] => (st, Created (suggestionsCreated st))
  | alert :: rest =>
      match suggestFor cluster k st alert with
      | Some st' => suggestForAll cluster rest (S k) st'
      | None =>
          ({| suggestions := suggestions st;
              suggestionCalls := (suggestionCalls st ++ [alert])%list;
              suggestionsCreated := suggestionsCreated st |}, PassError)
      end
  end.

(** The pass on the two tables it reads; it returns the
    [intelligent_suggestions] table it leaves. *)
Definition generateIntelligentSuggestions (cluster : Cluster.t)
    (smart_alerts : list SmartAlert.t) (table : list Suggestion.t)
    : SuggestionState * PassResult :=
  let start := {| suggestions := table; suggestionCalls := []; suggestionsCreated := 0 |} in
  match unresolvedAlerts cluster smart_alerts with
  | [] => (start, NothingToDo)
  | alerts => suggestForAll cluster alerts 0 start
  end.

End Analysis.

(** What holds of the state of the suggestion loop throughout a pass that
    started on [table] and runs over alerts of [alerts]: the table has only
    grown, by rows of alerts the model was asked about, and each of these is
    one of [alerts] and had no suggestion in [table]. *)
Definition grownFrom (table : list Suggestion.t) (alerts : list SmartAlert.t)
    (st : SuggestionState) : Prop :=
  (exists added,
      suggestions st = (table ++ added)%list
      /\ forall s, In s added ->
           exists a, In a (suggestionCalls st) /\ Suggestion.alert_id s = SmartAlert.id a)
  /\ forall a, In a (suggestionCalls st) ->
       In a alerts /\ existingSuggestions a table = [].

End IntelligentAnalysis.

(** ** The slack-integration function *)

(** A row of [slack_webhooks]. *)
Module Webhook.
Record t := mk {
  id : string;
  user_id : string;
  cluster_id : option string;
  webhook_url : string;
  channel_name : string;
  enabled : bool
}.
End Webhook.

(** A row of [notification_preferences]. *)
Module Preference.
Record t := mk {
  user_id : string;
  cluster_id : option string;
  notification_type : string;
  severity_threshold : string;
  enabled : bool
}.
End Preference.

(** [SlackNotificationPayload]. *)
Module Payload.
Record t := mk {
  message : string;
  severity : string;
  cluster_name : string;
  resource_name : option string;
  action : option string
}.
End Payload.

Module SlackIntegration.
Import JS.
Open Scope string_scope.

Definition severityLevels : list string := ["low"; "medium"; "high"; "critical"].

(** The two reads of the handler. *)
Definition userWebhooks (user_id : string) (slack_webhooks : list Webhook.t) : list Webhook.t :=
  filter (fun w => String.eqb (Webhook.user_id w) user_id && Webhook.enabled w) slack_webhooks.

Definition slackPreferences (user_id : string) (notification_preferences : list Preference.t)
    : list Preference.t :=
  filter (fun p => String.eqb (Preference.user_id p) user_id
                   && String.eqb (Preference.notification_type p) "slack"
                   && Preference.enabled p) notification_preferences.

(** [preferences?.find(p => !p.cluster_id || p.cluster_id === webhook.cluster_id)];
    [preferences] is null when its query failed. *)
Definition userPref (preferences : option (list Preference.t)) (webhook : Webhook.t)
    : option Preference.t :=
  match preferences with
  | None => None
  | Some prefs =>
      find (fun p => negb (truthy (Preference.cluster_id p))
                     || strictEq (Preference.cluster_id p) (Webhook.cluster_id webhook)) prefs
  end.

(** The predicate of [webhooks.filter(...)]. *)
Definition passesThreshold (payload : Payload.t) (preferences : option (list Preference.t))
    (webhook : Webhook.t) : bool :=
  match userPref preferences webhook with
  | None => true
  | Some pref =>
      let messageLevel := indexOf severityLevels (Payload.severity payload) in
      let thresholdLevel := indexOf severityLevels (Preference.severity_threshold pref) in
      (thresholdLevel <=? messageLevel)%Z
  end.

Definition enabledWebhooks (payload : Payload.t) (webhooks : list Webhook.t)
    (preferences : option (list Preference.t)) : list Webhook.t :=
  filter (passesThreshold payload preferences) webhooks.

(** The webhooks the handler posts the message to, for the authenticated
    user: none when the user has no enabled webhook (the early return). *)
Definition recipients (user_id : string) (payload : Payload.t)
    (slack_webhooks : list Webhook.t) (preferences : option (list Preference.t))
    : list Webhook.t :=
  match userWebhooks user_id slack_webhooks with
  | [] => []
  | webhooks => enabledWebhooks payload webhooks preferences
  end.

End SlackIntegration.

(** ** The specification's wording of the component score *)

Module Spec.
Import JS.

(** "if average >= configured alert threshold for that type, score =
    max(0, 100 - (avg - threshold) x 10); else score =
    max(0, 100 - (avg/threshold) x 50)". *)
Definition componentScore (avg threshold : number) : number :=
  if PrimFloat.leb threshold avg
  then Math_max 0 (100 - (avg - threshold) * 10)
  else Math_max 0 (100 - avg / threshold * 50).

(** [x] is within [eps] of [y]. *)
Definition about (x y eps : number) : bool := PrimFloat.ltb (PrimFloat.abs (x - y)) eps.

End Spec.

(** ** Sample data *)

Module Samples.
Open Scope string_scope.

Definition prod : Cluster.t := Cluster.mk "c1" "u1" "prod" "https://k8s.example" "default".

(** A node CPU sample of cluster [c1] with the given value. *)
Definition cpuSample (value : JS.number) : Metric.t :=
  Metric.mk "c1" "cpu" "node_cpu_usage" value (Some "node-1") None 0.

(** A [pod_memory_usage] sample: the query sums by (pod, namespace), so the
    series carries no [instance] or [node] label and [node_name] is null. *)
Definition podMemorySample : Metric.t :=
  Metric.mk "c1" "memory" "pod_memory_usage" 52428800 None (Some "web-1") 0.

Definition runningPod : PodHealth.t :=
  PodHealth.mk "c1" "web" "default" (Some "app") 0 None None "Running" 0.

Definition failedPod : PodHealth.t :=
  PodHealth.mk "c1" "job" "default" (Some "run") 3 (Some 1%Z) (Some "Error") "Failed" 0.

(** Two observations of the same pod, two minutes apart. *)
Definition webAt (updated_at restart_count : Z) : PodHealth.t :=
  PodHealth.mk "c1" "web" "default" (Some "app") restart_count None None "Running" updated_at.

Definition webHistory : list PodHealth.t := [webAt 0 1; webAt 120000 5].

Definition backOff (id : string) (created_at : Z) : Event.t :=
  Event.mk id "c1" "default" "web" "Pod" "BackOff" "Back-off restarting" "Warning" created_at.

Definition twoEvents : Window.t := Window.mk 600000 900000 [backOff "e1" 600000; backOff "e2" 610000].
Definition oneEvent : Window.t := Window.mk 600000 900000 [backOff "e1" 600000].

(** A correlation model that always answers "correlated" with one confidence. *)
Definition confident (confidence : JS.number) (n : nat) (events : list Event.t)
    : Reply (option CorrelationJson.t) :=
  Parsed (Some (CorrelationJson.mk true confidence "restart loop" "cascade")).

Definition rising (n : nat) (podData : list PodHealth.t) : Reply (option TrendAnalysis.t) :=
  Parsed (Some (TrendAnalysis.mk 0.9 "increasing" 0.8)).

Definition oneSuggestion : Suggestion.json :=
  Suggestion.mkJson "immediate" 1 "Raise the memory limit" "The container is OOM killed"
                    ["kubectl edit deployment web"] "high" "easy" 0.9.

Definition advising (n : nat) (alert : SmartAlert.t) (cluster : Cluster.t)
    : Reply SuggestionsJson :=
  Parsed (Items [oneSuggestion]).

(** Models whose every call fails. *)
Definition downCorrelation (n : nat) (events : list Event.t) : Reply (option CorrelationJson.t) :=
  Threw.
Definition downTrend (n : nat) (podData : list PodHealth.t) : Reply (option TrendAnalysis.t) :=
  Unparsable.
Definition downSuggestion (n : nat) (alert : SmartAlert.t) (cluster : Cluster.t)
    : Reply SuggestionsJson :=
  Threw.

Definition suffix (k : nat) : string := "1754586000000_k3x9q2m1z".

(** 2025-08-07 17:05:00 UTC, a second later at each reading. *)
Definition clock (k : nat) : Z := (1754586300000 + 1000 * Z.of_nat k)%Z.

Definition oomAlert : SmartAlert.t :=
  SmartAlert.mk "a1" "c1" "oomkill" "critical" "pod" "web" (Some "default")
                "Container app was OOM killed" None false 100.

Definition crashAlert : SmartAlert.t :=
  SmartAlert.mk "a2" "c1" "crash_loop" "warning" "pod" "job" (Some "default")
                "Container run is crash looping" None false 200.

Definition storedSuggestion : Suggestion.t :=
  Suggestion.mk "a1" "immediate" 1 "Raise the memory limit" "The container is OOM killed"
                ["kubectl edit deployment web"] "high" "easy" 0.9.

Definition opsChannel : Webhook.t :=
  Webhook.mk "w1" "u1" (Some "c1") "https://hooks.slack.example/ops" "#ops" true.

Definition highOnly : Preference.t := Preference.mk "u1" None "slack" "high" true.

Definition notice (severity : string) : Payload.t :=
  Payload.mk "CPU pressure on node-1" severity "prod" None None.

End Samples.

(** ** supabase/functions/prometheus-monitor/index.ts: metric collection *)

(** A row inserted into [cluster_metrics], with all its columns.  The health
    scorer and the threshold monitor read the columns of [Metric.t]. *)
Module MetricRow.
Record t := mk {
  cluster_id : string;
  metric_type : string;
  metric_name : string;
  value : JS.number;
  unit : string;
  node_name : option string;
  namespace : option string;
  resource_name : option string;
  labels : list (string * string);
  timestamp : Z
}.

Definition toMetric (r : t) : Metric.t :=
  Metric.mk (cluster_id r) (metric_type r) (metric_name r) (value r)
            (node_name r) (resource_name r) (timestamp r).
End MetricRow.

(** A row of [prometheus_targets]. *)
Module Target.
Record t := mk {
  id : string;
  endpoint : string;
  auth_token : option string;
  last_scrape_at : option Z
}.
End Target.

Module Collector.
Import JS.
Open Scope string_scope.

(** [s.includes(sub)]. *)
Fixpoint includes (s sub : string) : bool :=
  String.prefix sub s
  || match s with
     | EmptyString => false
     | String _ rest => includes rest sub
     end.

Definition getMetricUnit (metricName : string) : string :=
  if includes metricName "usage"
     && (includes metricName "cpu" || includes metricName "memory"
         || includes metricName "disk")
  then "percentage"
  else if includes metricName "bytes" then "bytes"
  else if includes metricName "count" then "count"
  else if includes metricName "load" then "load"
  else "value".

(** An element of [queries].  The PromQL text of the element goes to the
    metrics source inside the URL and plays no other part. *)
Record QueryDef := { name : string; type : string }.

Definition queries : list QueryDef :=
  [ {| name := "node_cpu_usage"; type := "cpu" |};
    {| name := "node_memory_usage"; type := "memory" |};
    {| name := "node_disk_usage"; type := "disk" |};
    {| name := "node_load_average"; type := "cpu" |};
    {| name := "pod_count_total"; type := "pod_count" |};
    {| name := "pod_cpu_usage"; type := "cpu" |};
    {| name := "pod_memory_usage"; type := "memory" |};
    {| name := "network_bytes_received"; type := "network" |};
    {| name := "network_bytes_transmitted"; type := "network" |} ].

(** An element of [data.data.result]: [NoValue] has no [value] array, so
    that reading [result.value[1]] throws; otherwise the entry has the number
    [parseFloat(result.value[1])], NaN when the text is no number, and its
    [metric] object of labels, which may be missing. *)
Inductive SeriesEntry :=
| NoValue
| Point (value : number) (metric : option (list (string * string))).

(** What one query comes to inside its [try] block. *)
Inductive QueryOutcome :=
| Threw                         (* fetch or response.json() rejected *)
| NotOk (status : Z)            (* !response.ok *)
| Invalid                       (* status is not 'success', or no data.result *)
| Result (entries : list SeriesEntry).

(** [labels.key]: undefined when the label is absent. *)
Definition label (labels : list (string * string)) (key : string) : option string :=
  option_map snd (find (fun kv => String.eqb (fst kv) key) labels).

(** [a || b] on two nullable strings. *)
Definition orOption (a b : option string) : option string :=
  if truthy a then a else b.

Record CollectState := {
  cluster_metrics : list MetricRow.t;
  collectedMetrics : nat
}.

Section Collection.

(** The metrics source, and the time [new Date()] reads at the [k]-th
    insert of the pass. *)
Variable respond : QueryDef -> QueryOutcome.
Variable now : nat -> Z.

Definition metricRow (cluster : Cluster.t) (queryDef : QueryDef) (k : nat)
    (value : number) (metric : option (list (string * string))) : MetricRow.t :=
  let labels := match metric with Some m => m | None => [] end in
  {| MetricRow.cluster_id := Cluster.id cluster;
     MetricRow.metric_type := type queryDef;
     MetricRow.metric_name := name queryDef;
     MetricRow.value := value;
     MetricRow.unit := getMetricUnit (name queryDef);
     MetricRow.node_name := orOption (label labels "instance") (label labels "node");
     MetricRow.namespace := label labels "namespace";
     MetricRow.resource_name := orOption (label labels "pod") (label labels "container");
     MetricRow.labels := labels;
     MetricRow.timestamp := now k |}.

(** [for (const result of data.data.result)]: an entry without value throws
    and ends the loop, in the [catch] of its query. *)
Fixpoint storeSeries (cluster : Cluster.t) (queryDef : QueryDef)
    (entries : list SeriesEntry) (st : CollectState) : CollectState :=
  match entries with
  | [] => st
  | NoValue :: _ => st
  | Point value metric :: rest =>
      if PrimFloat.is_nan value then storeSeries cluster queryDef rest st
      else
        storeSeries cluster queryDef rest
          {| cluster_metrics :=
               (cluster_metrics st
                ++ [metricRow cluster queryDef (collectedMetrics st) value metric])%list;
             collectedMetrics := S (collectedMetrics st) |}
  end.

(** One iteration of [for (const queryDef of queries)]. *)
Definition collectQuery (cluster : Cluster.t) (st : CollectState) (queryDef : QueryDef)
    : CollectState :=
  match respond queryDef with
  | Result entries => storeSeries cluster queryDef entries st
  | _ => st
  end.

(** The pass on the [cluster_metrics] table: it returns the table, the
    counter of [{ collectedMetrics }] and the target with its new
    [last_scrape_at]. *)
Definition collectPrometheusMetrics (cluster : Cluster.t) (target : Target.t)
    (table : list MetricRow.t) : CollectState * Target.t :=
  let st := fold_left (collectQuery cluster) queries
              {| cluster_metrics := table; collectedMetrics := 0 |} in
  (st, Target.mk (Target.id target) (Target.endpoint target) (Target.auth_token target)
                 (Some (now (collectedMetrics st)))).

End Collection.

(** The values [storeSeries] keeps of a reply: those before the first entry
    without value that are numbers. *)
Fixpoint keptValues (entries : list SeriesEntry) : list number :=
  match entries with
  | [] => []
  | NoValue :: _ => []
  | Point value _ :: rest =>
      if PrimFloat.is_nan value then keptValues rest else value :: keptValues rest
  end.

Definition keptOf (outcome : QueryOutcome) : list number :=
  match outcome with
  | Result entries => keptValues entries
  | _ => []
  end.

End Collector.

(** ** calculateClusterHealthScore: the node count *)

Module HealthNodes.
Import JS.

(** [[...new Set(names)]]: each name once, at its first place. *)
Fixpoint distinct (names : list string) : list string :=
  match names with
  | [] => []
  | n :: rest => n :: filter (fun m => negb (String.eqb n m)) (distinct rest)
  end.

(** [metrics.map(m => m.node_name).filter(Boolean)]. *)
Fixpoint namedNodes (metrics : list Metric.t) : list string :=
  match metrics with
  | [] => []
  | m :: rest =>
      match Metric.node_name m with
      | Some (String c r) => String c r :: namedNodes rest
      | _ => namedNodes rest
      end
  end.

Definition uniqueNodes (metrics : list Metric.t) : list string :=
  distinct (namedNodes metrics).

(** [uniqueNodes.length || 1]. *)
Definition nodeCount (metrics : list Metric.t) : nat :=
  match List.length (uniqueNodes metrics) with
  | 0 => 1
  | n => n
  end.

Definition healthyNodes (metrics : list Metric.t) : nat := nodeCount metrics.

(** The row handed to [.upsert] on [cluster_health_scores]. *)
Record HealthScoreRow := {
  cluster_id : string;
  overall_score : number;
  cpu_score : number;
  memory_score : number;
  disk_score : number;
  network_score : number;
  pod_health_score : number;
  node_count : nat;
  healthy_nodes : nat;
  total_pods : nat;
  healthy_pods : nat;
  calculated_at : Z
}.

(** The row [calculateClusterHealthScore] stores at the time [at_]: every
    score rounded to two decimals; none when the pass returns its error. *)
Definition storedHealthScore (cluster : Cluster.t) (metrics : option (list Metric.t))
    (podHealth : option (list PodHealth.t)) (at_ : Z) : option HealthScoreRow :=
  match metrics with
  | None | Some [] => None
  | Some ms =>
      let cpuScore := PrometheusMonitor.calculateComponentScore ms "cpu" 80%float in
      let memoryScore := PrometheusMonitor.calculateComponentScore ms "memory" 85%float in
      let diskScore := PrometheusMonitor.calculateComponentScore ms "disk" 90%float in
      let networkScore := 95%float in
      let podHealthScore := PrometheusMonitor.calculatePodHealthScore podHealth in
      let overallScore :=
        (cpuScore * 0.25 + memoryScore * 0.25 + diskScore * 0.20 + networkScore * 0.10
         + podHealthScore * 0.20)%float in
      Some {| cluster_id := Cluster.id cluster;
              overall_score := (Math_round (overallScore * 100) / 100)%float;
              cpu_score := (Math_round (cpuScore * 100) / 100)%float;
              memory_score := (Math_round (memoryScore * 100) / 100)%float;
              disk_score := (Math_round (diskScore * 100) / 100)%float;
              network_score := (Math_round (networkScore * 100) / 100)%float;
              pod_health_score := (Math_round (podHealthScore * 100) / 100)%float;
              node_count := nodeCount ms;
              healthy_nodes := healthyNodes ms;
              total_pods := PrometheusMonitor.totalPods podHealth;
              healthy_pods := PrometheusMonitor.healthyPods podHealth;
              calculated_at := at_ |}
  end.

End HealthNodes.

(** ** The slack-integration function: delivery *)

Module SlackDelivery.
Import JS SlackIntegration.

(** What posting to one webhook comes to. *)
Inductive Posting :=
| Ok                    (* response.ok *)
| HttpError (status : Z)
| Unreachable.          (* fetch rejected *)

(** An element of the array [Promise.allSettled] resolves to. *)
Inductive Settled :=
| Fulfilled (webhook_id channel : string)
| Rejected.

Definition isFulfilled (r : Settled) : bool :=
  match r with Fulfilled _ _ => true | Rejected => false end.

Definition isRejected (r : Settled) : bool :=
  match r with Fulfilled _ _ => false | Rejected => true end.

Section Delivery.

Variable post : Webhook.t -> Posting.

Definition deliver (webhook : Webhook.t) : Settled :=
  match post webhook with
  | Ok => Fulfilled (Webhook.id webhook) (Webhook.channel_name webhook)
  | _ => Rejected
  end.

Definition results (enabledWebhooks : list Webhook.t) : list Settled :=
  map deliver enabledWebhooks.

(** [successful.length] and [failed.length], which the response reports as
    [notifications_sent] and [failures]; both are 0 on the early return for a
    user without enabled webhook, whose response carries no counts.  What
    the handler does between the fan-out and the response for a request that
    names an incident is no part of this model. *)
Definition notify (user_id : string) (payload : Payload.t)
    (slack_webhooks : list Webhook.t) (preferences : option (list Preference.t))
    : nat * nat :=
  let settled := results (recipients user_id payload slack_webhooks preferences) in
  (List.length (filter isFulfilled settled), List.length (filter isRejected settled)).

End Delivery.

End SlackDelivery.

(** ** supabase/functions/monitor-clusters/index.ts *)

(** A row of [pod_health] with all its columns. *)
Module PodRow.
Record t := mk {
  health : PodHealth.t;
  last_restart_time : option Z;
  oom_killed : bool
}.
End PodRow.

(** The part of the pod list of the Kubernetes API that the monitor reads. *)
Module K8s.
(** [lastState.terminated].  The API leaves an empty field out of its JSON
    text, so that the field reads as [undefined]: that is [None] here. *)
Record Terminated := {
  exitCode : option Z;
  reason : option string;
  finishedAt : option Z
}.

(** [terminated] is [containerStatus.lastState?.terminated]. *)
Record ContainerStatus := {
  name : string;
  restartCount : option Z;
  terminated : option Terminated
}.

(** An element of [podsData.items]: [Malformed] lacks [metadata] or
    [status], so that reading the pod's name or phase throws. *)
Inductive PodItem :=
| Malformed
| Pod (name phase : string) (containerStatuses : option (list ContainerStatus)).

(** What the request for the pods comes to. *)
Inductive PodsReply :=
| Threw                 (* fetch or response.json() rejected *)
| NotOk (status : Z)    (* !response.ok, turned into a throw *)
| Items (items : option (list PodItem)).
End K8s.

(** The object [monitorPodHealth] hands to [.upsert]. *)
Module PodPayload.
(** A property of the object: [Undefined] when its value is [undefined],
    else its value, which may be null. *)
Inductive field (A : Type) :=
| Undefined
| Defined (v : option A).
Arguments Undefined {A}.
Arguments Defined {A} v.

Record t := mk {
  cluster_id : string;
  pod_name : string;
  namespace : string;
  restart_count : Z;
  last_restart_time : field Z;
  exit_code : field Z;
  exit_reason : field string;
  container_name : string;
  oom_killed : bool;
  status : string
}.
End PodPayload.

(** The object handed to [createAlert]. *)
Module AlertData.
Inductive related :=
| PodData (pod : PodRow.t)
| EventData (event : Event.t).

Record t := mk {
  cluster_id : string;
  user_id : string;
  alert_type : string;
  severity : string;
  resource_type : string;
  resource_name : string;
  namespace : string;
  title : string;
  description : string;
  suggestion : string;
  related_events : related
}.
End AlertData.

(** A row of [smart_alerts] as the monitor writes it: the inserted object,
    [is_resolved] (false by default on insert) and [updated_at]. *)
Module SmartAlertRow.
Record t := mk {
  data : AlertData.t;
  is_resolved : bool;
  updated_at : Z
}.
End SmartAlertRow.

Inductive MonitorResult :=
| Processed (count : nat)
| MonitorError.

Module ClusterMonitor.
Import JS.
Open Scope string_scope.

(** *** monitorPodHealth *)

(** The conflict key of [pod_health]; a NULL [container_name] conflicts with
    nothing. *)
Definition samePodKey (a b : PodRow.t) : bool :=
  String.eqb (PodHealth.cluster_id (PodRow.health a)) (PodHealth.cluster_id (PodRow.health b))
  && String.eqb (PodHealth.pod_name (PodRow.health a)) (PodHealth.pod_name (PodRow.health b))
  && String.eqb (PodHealth.namespace (PodRow.health a)) (PodHealth.namespace (PodRow.health b))
  && match PodHealth.container_name (PodRow.health a),
           PodHealth.container_name (PodRow.health b) with
     | Some x, Some y => String.eqb x y
     | _, _ => false
     end.

(** [cluster.namespace || 'default']. *)
Definition namespaceOf (cluster : Cluster.t) : string :=
  orElse (Some (Cluster.namespace cluster)) "default".

(** A value read from the pod list, as a property of the object. *)
Definition ofRead {A : Type} (v : option A) : PodPayload.field A :=
  match v with
  | Some x => PodPayload.Defined (Some x)
  | None => PodPayload.Undefined
  end.

(** The object upserted for one container of a pod.  [exitCode] and
    [exitReason] are null unless the container has a last termination state,
    and then they are what that state holds. *)
Definition containerPayload (cluster : Cluster.t) (podName status : string)
    (containerStatus : K8s.ContainerStatus) : PodPayload.t :=
  let restartCount :=
    match K8s.restartCount containerStatus with Some n => n | None => 0%Z end in
  let exitCode :=
    match K8s.terminated containerStatus with
    | Some t => ofRead (K8s.exitCode t)
    | None => PodPayload.Defined None
    end in
  let exitReason :=
    match K8s.terminated containerStatus with
    | Some t => ofRead (K8s.reason t)
    | None => PodPayload.Defined None
    end in
  let oomKilled :=
    match K8s.terminated containerStatus with
    | Some t => strictEq (K8s.reason t) (Some "OOMKilled")
    | None => false
    end in
  {| PodPayload.cluster_id := Cluster.id cluster;
     PodPayload.pod_name := podName;
     PodPayload.namespace := namespaceOf cluster;
     PodPayload.restart_count := restartCount;
     PodPayload.last_restart_time :=
       match K8s.terminated containerStatus with
       | Some t => ofRead (K8s.finishedAt t)
       | None => PodPayload.Undefined
       end;
     PodPayload.exit_code := exitCode;
     PodPayload.exit_reason := exitReason;
     PodPayload.container_name := K8s.name containerStatus;
     PodPayload.oom_killed := oomKilled;
     PodPayload.status := status |}.

(** What a write stores in a nullable column whose stored value is [stored]:
    JSON.stringify leaves a property out of the document when its value is
    [undefined], and the write sets the columns that the document names. *)
Definition store {A : Type} (stored : option A) (sent : PodPayload.field A) : option A :=
  match sent with
  | PodPayload.Defined v => v
  | PodPayload.Undefined => stored
  end.

(** The row the upsert inserts at time [at_]: a column that the document
    does not name takes its default, NULL. *)
Definition insertRow (p : PodPayload.t) (at_ : Z) : PodRow.t :=
  {| PodRow.health :=
       PodHealth.mk (PodPayload.cluster_id p) (PodPayload.pod_name p) (PodPayload.namespace p)
                    (Some (PodPayload.container_name p)) (PodPayload.restart_count p)
                    (store None (PodPayload.exit_code p))
                    (store None (PodPayload.exit_reason p))
                    (PodPayload.status p) at_;
     PodRow.last_restart_time := store None (PodPayload.last_restart_time p);
     PodRow.oom_killed := PodPayload.oom_killed p |}.

(** The row the upsert makes of the row [r] with the same conflict key, at
    time [at_]: a column that the document does not name keeps its value, and
    the trigger of the table sets [updated_at]. *)
Definition updateRow (p : PodPayload.t) (at_ : Z) (r : PodRow.t) : PodRow.t :=
  {| PodRow.health :=
       PodHealth.mk (PodPayload.cluster_id p) (PodPayload.pod_name p) (PodPayload.namespace p)
                    (Some (PodPayload.container_name p)) (PodPayload.restart_count p)
                    (store (PodHealth.exit_code (PodRow.health r)) (PodPayload.exit_code p))
                    (store (PodHealth.exit_reason (PodRow.health r)) (PodPayload.exit_reason p))
                    (PodPayload.status p) at_;
     PodRow.last_restart_time :=
       store (PodRow.last_restart_time r) (PodPayload.last_restart_time p);
     PodRow.oom_killed := PodPayload.oom_killed p |}.

(** [.upsert(p, { onConflict: 'cluster_id,pod_name,namespace,container_name' })]. *)
Fixpoint upsertPod (p : PodPayload.t) (at_ : Z) (table : list PodRow.t) : list PodRow.t :=
  match table with
  | [] => [insertRow p at_]
  | r :: rest =>
      if samePodKey r (insertRow p at_) then updateRow p at_ r :: rest
      else r :: upsertPod p at_ rest
  end.

Record PodState := {
  pod_health : list PodRow.t;
  upserts : nat;
  processedPods : nat
}.

Section Monitor.

(** The time of the [k]-th write of a pass, and whether the lookup of the
    [k]-th call of [createAlert] in a pass is answered. *)
Variable now : nat -> Z.
Variable alertLookup : nat -> bool.

Definition upsertContainer (cluster : Cluster.t) (podName status : string)
    (st : PodState) (containerStatus : K8s.ContainerStatus) : PodState :=
  {| pod_health :=
       upsertPod (containerPayload cluster podName status containerStatus)
                 (now (upserts st)) (pod_health st);
     upserts := S (upserts st);
     processedPods := processedPods st |}.

(** One iteration of [for (const pod of podsData.items || [])]. *)
Definition processPod (cluster : Cluster.t) (st : PodState) (pod : K8s.PodItem) : PodState :=
  match pod with
  | K8s.Malformed => st
  | K8s.Pod podName status containerStatuses =>
      let st' :=
        fold_left (upsertContainer cluster podName status)
                  (match containerStatuses with Some cs => cs | None => [] end) st in
      {| pod_health := pod_health st';
         upserts := upserts st';
         processedPods := S (processedPods st') |}
  end.

Definition monitorPodHealth (cluster : Cluster.t) (reply : K8s.PodsReply)
    (table : list PodRow.t) : list PodRow.t * MonitorResult :=
  match reply with
  | K8s.Items items =>
      let st :=
        fold_left (processPod cluster)
                  (match items with Some ps => ps | None => [] end)
                  {| pod_health := table; upserts := 0; processedPods := 0 |} in
      (pod_health st, Processed (processedPods st))
  | _ => (table, MonitorError)
  end.

(** *** createAlert *)

(** The filters of the lookup of [createAlert]. *)
Definition matchesOpen (alertData : AlertData.t) (r : SmartAlertRow.t) : bool :=
  String.eqb (AlertData.cluster_id (SmartAlertRow.data r)) (AlertData.cluster_id alertData)
  && String.eqb (AlertData.alert_type (SmartAlertRow.data r)) (AlertData.alert_type alertData)
  && String.eqb (AlertData.resource_name (SmartAlertRow.data r))
                (AlertData.resource_name alertData)
  && negb (SmartAlertRow.is_resolved r).

(** [.update({ description, updated_at })] on a row. *)
Definition refresh (alertData : AlertData.t) (at_ : Z) (r : SmartAlertRow.t)
    : SmartAlertRow.t :=
  let d := SmartAlertRow.data r in
  {| SmartAlertRow.data :=
       AlertData.mk (AlertData.cluster_id d) (AlertData.user_id d) (AlertData.alert_type d)
                    (AlertData.severity d) (AlertData.resource_type d)
                    (AlertData.resource_name d) (AlertData.namespace d) (AlertData.title d)
                    (AlertData.description alertData) (AlertData.suggestion d)
                    (AlertData.related_events d);
     SmartAlertRow.is_resolved := SmartAlertRow.is_resolved r;
     SmartAlertRow.updated_at := at_ |}.

(** [createAlert] on the [smart_alerts] table at time [at_].  The code does
    not read the [error] of its lookup: when the lookup is not [answered],
    [existingAlert] is null and the alert is inserted.  The update names the
    row by the id the lookup returned: it reaches the one row that the lookup
    found. *)
Definition createAlert (answered : bool) (at_ : Z) (table : list SmartAlertRow.t)
    (alertData : AlertData.t) : list SmartAlertRow.t :=
  match (if answered then PrometheusMonitor.single (filter (matchesOpen alertData) table)
         else None) with
  | Some _ =>
      map (fun r => if matchesOpen alertData r then refresh alertData at_ r else r) table
  | None =>
      (table ++ [SmartAlertRow.mk alertData false at_])%list
  end.

(** *** analyzeAndCreateAlerts *)

(** Rendering of a number and of a nullable number inside a template, and
    the times [Date.now()] reads for the two reads with a time window. *)
Variable showNumber : Z -> string.
Variable showNullable : option Z -> string.
Variable oomReadAt : Z.
Variable probeReadAt : Z.

Definition quote : string := String (ascii_of_nat 34) EmptyString.

(** [`${text}`] of a nullable string. *)
Definition showText (text : option string) : string :=
  match text with
  | Some s => s
  | None => "null"
  end.

Definition oomAlertData (cluster : Cluster.t) (pod : PodRow.t) : AlertData.t :=
  let h := PodRow.health pod in
  AlertData.mk (Cluster.id cluster) (Cluster.user_id cluster) "oomkill" "critical" "pod"
    (PodHealth.pod_name h) (PodHealth.namespace h)
    ("Pod OOMKilled: " ++ PodHealth.pod_name h)
    ("Container " ++ quote ++ showText (PodHealth.container_name h) ++ quote
     ++ " was killed due to out of memory.")
    "Consider increasing memory limits in your deployment configuration. Check actual memory usage patterns."
    (AlertData.PodData pod).

Definition crashLoopAlertData (cluster : Cluster.t) (pod : PodRow.t) : AlertData.t :=
  let h := PodRow.health pod in
  AlertData.mk (Cluster.id cluster) (Cluster.user_id cluster) "crash_loop" "critical" "pod"
    (PodHealth.pod_name h) (PodHealth.namespace h)
    ("Crash Loop Detected: " ++ PodHealth.pod_name h)
    ("Pod has restarted " ++ showNumber (PodHealth.restart_count h) ++ " times. Exit code: "
     ++ showNullable (PodHealth.exit_code h) ++ ", Reason: "
     ++ showText (PodHealth.exit_reason h))
    "Check application logs and configuration. Common issues: wrong command, missing dependencies, configuration errors."
    (AlertData.PodData pod).

Definition probeAlertData (cluster : Cluster.t) (event : Event.t) : AlertData.t :=
  AlertData.mk (Cluster.id cluster) (Cluster.user_id cluster) "liveness_failed" "warning" "pod"
    (Event.name event) (Event.namespace event)
    ("Health Check Failed: " ++ Event.name event)
    (Event.message event)
    "Check if your application is responding on the health check endpoint. Verify probe configuration and timeouts."
    (AlertData.EventData event).

(** The three reads of the pass, at time [at_]. *)
Definition oomPods (cluster : Cluster.t) (at_ : Z) (pods : list PodRow.t) : list PodRow.t :=
  filter (fun p => String.eqb (PodHealth.cluster_id (PodRow.health p)) (Cluster.id cluster)
                   && PodRow.oom_killed p
                   && (at_ - 5 * 60 * 1000 <=? PodHealth.updated_at (PodRow.health p))%Z) pods.

Definition crashLoopPods (cluster : Cluster.t) (pods : list PodRow.t) : list PodRow.t :=
  filter (fun p => String.eqb (PodHealth.cluster_id (PodRow.health p)) (Cluster.id cluster)
                   && (5 <=? PodHealth.restart_count (PodRow.health p))%Z) pods.

Definition probeEvents (cluster : Cluster.t) (at_ : Z) (events : list Event.t) : list Event.t :=
  filter (fun e => String.eqb (Event.cluster_id e) (Cluster.id cluster)
                   && (String.eqb (Event.reason e) "Unhealthy"
                       || String.eqb (Event.reason e) "ProbeWarning")
                   && (at_ - 5 * 60 * 1000 <=? Event.created_at e)%Z) events.

(** The state of the pass: the [smart_alerts] table and [alertsCreated],
    which is the number of calls of [createAlert] so far; [now k] is the time
    the [k]-th call reads and [alertLookup k] whether its lookup is
    answered. *)
Definition raise (st : list SmartAlertRow.t * nat) (alertData : AlertData.t)
    : list SmartAlertRow.t * nat :=
  (createAlert (alertLookup (snd st)) (now (snd st)) (fst st) alertData, S (snd st)).

Definition analyzeAndCreateAlerts (cluster : Cluster.t)
    (pods : list PodRow.t) (events : list Event.t) (smart_alerts : list SmartAlertRow.t)
    : list SmartAlertRow.t * nat :=
  let st0 := (smart_alerts, 0) in
  let st1 := fold_left raise (map (oomAlertData cluster) (oomPods cluster oomReadAt pods)) st0 in
  let st2 := fold_left raise (map (crashLoopAlertData cluster) (crashLoopPods cluster pods)) st1 in
  fold_left raise
    (map (probeAlertData cluster) (probeEvents cluster probeReadAt events)) st2.

End Monitor.

(** The open alerts of a (cluster_id, alert_type, resource_name) triple. *)
Definition openSmartAlerts (cluster_id alert_type resource_name : string)
    (table : list SmartAlertRow.t) : list SmartAlertRow.t :=
  filter (fun r => String.eqb (AlertData.cluster_id (SmartAlertRow.data r)) cluster_id
                   && String.eqb (AlertData.alert_type (SmartAlertRow.data r)) alert_type
                   && String.eqb (AlertData.resource_name (SmartAlertRow.data r)) resource_name
                   && negb (SmartAlertRow.is_resolved r)) table.

End ClusterMonitor.

(** ** supabase/functions/kubectl/index.ts *)

Module Kubectl.
Import JS.
Open Scope string_scope.

(** *** String methods *)

(** A string is the sequence of its code units, taken to be below 256.  Of
    those, [trim] strips the white space and the line terminators: 9 to 13,
    32 and 160. *)
Definition isWhiteSpace (c : ascii) : bool :=
  let n := nat_of_ascii c in
  (Nat.leb 9 n && Nat.leb n 13) || Nat.eqb n 32 || Nat.eqb n 160.

Fixpoint trimStart (s : string) : string :=
  match s with
  | EmptyString => EmptyString
  | String c rest => if isWhiteSpace c then trimStart rest else s
  end.

Fixpoint trimEnd (s : string) : string :=
  match s with
  | EmptyString => EmptyString
  | String c rest =>
      match trimEnd rest with
      | EmptyString => if isWhiteSpace c then EmptyString else String c EmptyString
      | kept => String c kept
      end
  end.

(** [s.trim()]. *)
Definition trim (s : string) : string := trimEnd (trimStart s).

(** [s.split(' ')]: the pieces between the spaces, empty ones included. *)
Fixpoint split (s : string) : list string :=
  match s with
  | EmptyString => [EmptyString]
  | String c rest =>
      if Ascii.eqb c " " then EmptyString :: split rest
      else match split rest with
           | piece :: pieces => String c piece :: pieces
           | [] => [String c EmptyString]
           end
  end.

(** [pieces.join(' ')]. *)
Fixpoint join (pieces : list string) : string :=
  match pieces with
  | [] => EmptyString
  | [piece] => piece
  | piece :: rest => piece ++ " " ++ join rest
  end.

(** [s.replace(/\/$/, '')]: a slash that ends [s] is removed. *)
Fixpoint dropFinalSlash (s : string) : string :=
  match s with
  | EmptyString => EmptyString
  | String c EmptyString => if Ascii.eqb c "/" then EmptyString else s
  | String c rest => String c (dropFinalSlash rest)
  end.

(** *** buildKubernetesApiUrl *)

Record Request := { url : string; method : string }.

Definition buildKubernetesApiUrl (operation : string) (clusterConfig : Cluster.t)
    : option Request :=
  let baseUrl := dropFinalSlash (Cluster.endpoint clusterConfig) in
  let namespace := orElse (Some (Cluster.namespace clusterConfig)) "default" in
  let parts := split operation in
  let verb := nth_error parts 0 in
  let resource := nth_error parts 1 in
  let resourceName := nth_error parts 2 in
  if strictEq verb (Some "get") then
    if strictEq resource (Some "pods") then
      Some {| url := match resourceName with
                     | Some (String c r) =>
                         baseUrl ++ "/api/v1/namespaces/" ++ namespace ++ "/pods/" ++ String c r
                     | _ => baseUrl ++ "/api/v1/namespaces/" ++ namespace ++ "/pods"
                     end;
              method := "GET" |}
    else if strictEq resource (Some "services") || strictEq resource (Some "svc") then
      Some {| url := match resourceName with
                     | Some (String c r) =>
                         baseUrl ++ "/api/v1/namespaces/" ++ namespace ++ "/services/"
                                 ++ String c r
                     | _ => baseUrl ++ "/api/v1/namespaces/" ++ namespace ++ "/services"
                     end;
              method := "GET" |}
    else if strictEq resource (Some "deployments") || strictEq resource (Some "deploy") then
      Some {| url := match resourceName with
                     | Some (String c r) =>
                         baseUrl ++ "/apis/apps/v1/namespaces/" ++ namespace ++ "/deployments/"
                                 ++ String c r
                     | _ => baseUrl ++ "/apis/apps/v1/namespaces/" ++ namespace ++ "/deployments"
                     end;
              method := "GET" |}
    else if strictEq resource (Some "nodes") then
      Some {| url := match resourceName with
                     | Some (String c r) => baseUrl ++ "/api/v1/nodes/" ++ String c r
                     | _ => baseUrl ++ "/api/v1/nodes"
                     end;
              method := "GET" |}
    else None
  else if strictEq verb (Some "logs") then
    (* parts.length >= 2: parts[1] is there *)
    match resource with
    | Some podName =>
        Some {| url := baseUrl ++ "/api/v1/namespaces/" ++ namespace ++ "/pods/" ++ podName
                               ++ "/log?tailLines=100";
                method := "GET" |}
    | None => None
    end
  else if strictEq verb (Some "describe") then
    if strictEq resource (Some "pod") && truthy resourceName then
      Some {| url := baseUrl ++ "/api/v1/namespaces/" ++ namespace ++ "/pods/"
                             ++ orElse resourceName "";
              method := "GET" |}
    else None
  else None.

(** *** executeKubectl *)

(** [{ success: true, output }] and [{ success: false, error }]. *)
Inductive Result :=
| Success (output : string)
| Failure (error : string).

(** What [fetch] and the reading of the response come to: [Rejected] when
    [fetch], [response.text()] or [response.json()] throws, with the message
    of the error. *)
Inductive Response (Data : Type) :=
| Rejected (message : string)
| NotOk (status : string) (errorText : string)
| Json (data : Data).
Arguments Rejected {Data} message.
Arguments NotOk {Data} status errorText.
Arguments Json {Data} data.

Section Execution.

(** The cluster's API and [formatKubectlOutput], which returns its text or
    throws an error with a message ([inl]). *)
Variable Data : Type.
Variable fetch : Cluster.t -> Request -> Response Data.
Variable formatKubectlOutput : string -> Data -> string + string.

Definition executeKubectl (command : string) (clusterConfig : Cluster.t) : Result :=
  let args := split (trim command) in
  if negb (strictEq (nth_error args 0) (Some "kubectl"))
  then Failure "Only kubectl commands are supported"
  else
    let operation := join (skipn 1 args) in
    match buildKubernetesApiUrl operation clusterConfig with
    | None => Failure "Unsupported kubectl command or unable to parse"
    | Some apiUrl =>
        match fetch clusterConfig apiUrl with
        | Rejected message => Failure ("Execution failed: " ++ message)
        | NotOk status errorText =>
            Failure ("Kubernetes API error (" ++ status ++ "): " ++ errorText)
        | Json data =>
            match formatKubectlOutput operation data with
            | inr formattedOutput => Success formattedOutput
            | inl message => Failure ("Execution failed: " ++ message)
            end
        end
    end.

End Execution.

(** *** calculateAge *)

(** The text [`${count}${unit}`]. *)
Record Age := { count : Z; unit : string }.

(** [calculateAge] at the time [now] for the creation time [created], both
    in epoch milliseconds, in exact arithmetic.  [%] is the remainder with
    the sign of the dividend. *)
Definition calculateAge (now created : Z) : Age :=
  let diff := (now - created)%Z in
  let days := (diff / (1000 * 60 * 60 * 24))%Z in
  let hours := (Z.rem diff (1000 * 60 * 60 * 24) / (1000 * 60 * 60))%Z in
  let minutes := (Z.rem diff (1000 * 60 * 60) / (1000 * 60))%Z in
  if (0 <? days)%Z then {| count := days; unit := "d" |}
  else if (0 <? hours)%Z then {| count := hours; unit := "h" |}
  else {| count := minutes; unit := "m" |}.

(** The words of a command line, and the verbs that have a case in
    [buildKubernetesApiUrl]. *)
Definition words (command : string) : list string := split (trim command).

Definition verbs : list string := ["get"; "logs"; "describe"].

End Kubectl.

(** ** More sample data *)

Module MoreSamples.
Import Samples.
Open Scope string_scope.

Definition podMemoryQuery : Collector.QueryDef :=
  {| Collector.name := "pod_memory_usage"; Collector.type := "memory" |}.

(** A metrics source that answers the node CPU query with a number, a text
    that is no number and an entry without value, the pod memory query with
    one number, and fails on every other query. *)
Definition source (q : Collector.QueryDef) : Collector.QueryOutcome :=
  if String.eqb (Collector.name q) "node_cpu_usage"
  then Collector.Result
         [Collector.Point 91.5 (Some [("instance", "node-1")]);
          Collector.Point PrimFloat.nan None;
          Collector.NoValue;
          Collector.Point 3 None]
  else if String.eqb (Collector.name q) "pod_memory_usage"
  then Collector.Result
         [Collector.Point 52428800 (Some [("pod", "web-1"); ("namespace", "default")])]
  else Collector.NotOk 500.

Definition scrapeTarget : Target.t := Target.mk "t1" "https://prometheus.example" None None.

(** Container app of pod web, OOM killed, restarted six times. *)
Definition oomRow : PodRow.t :=
  PodRow.mk (PodHealth.mk "c1" "web" "default" (Some "app") 6 (Some 137%Z)
                          (Some "OOMKilled") "Running" 1754586290000)
            (Some 1754586280000%Z) true.

Definition showNumber (n : Z) : string := "6".
Definition showNullable (n : option Z) : string := "137".

(** A cluster API that answers every request with the URL it was asked
    for, and a formatter that returns the answer as it is. *)
Definition echo (clusterConfig : Cluster.t) (request : Kubectl.Request)
    : Kubectl.Response string :=
  Kubectl.Json (Kubectl.url request).

Definition asIs (operation : string) (data : string) : string + string := inr data.

(** The request for the log of pod web-1 of cluster [prod]. *)
Definition logsRequest : Kubectl.Request :=
  {| Kubectl.url :=
       "https://k8s.example/api/v1/namespaces/default/pods/web-1/log?tailLines=100";
     Kubectl.method := "GET" |}.

End MoreSamples.

(** * Properties *)

Unset Implicit Arguments.

(** ** Health scores *)

Module ScoreFacts.
Import JS PrometheusMonitor Samples.
Open Scope string_scope.

Lemma typeMetrics_absent : forall metrics type,
  (forall m, In m metrics -> Metric.metric_type m <> type) ->
  typeMetrics metrics type = [].
Proof.
  induction metrics as [|m rest IH]; intros type Habs; simpl.
  - reflexivity.
  - destruct (String.eqb_spec (Metric.metric_type m) type) as [E|_].
    + exfalso. apply (Habs m); [left; reflexivity | exact E].
    + apply IH. intros m' Hin. apply Habs. right. exact Hin.
Qed.

Lemma typeMetrics_present : forall metrics type m,
  In m metrics -> Metric.metric_type m = type -> typeMetrics metrics type <> [].
Proof.
  intros metrics type m Hin Hty Hnil.
  assert (Hm : In m (typeMetrics metrics type)).
  { unfold typeMetrics. apply filter_In. split; [exact Hin|].
    apply String.eqb_eq. exact Hty. }
  rewrite Hnil in Hm. exact Hm.
Qed.

(** C10: a list of samples with no sample of the requested type gives the
    component score 100 for that type, whatever the threshold. *)
Theorem absent_type_scores_100 : forall metrics type alertThreshold,
  (forall m, In m metrics -> Metric.metric_type m <> type) ->
  calculateComponentScore metrics type alertThreshold = 100%float.
Proof.
  intros metrics type alertThreshold Habs.
  unfold calculateComponentScore.
  rewrite (typeMetrics_absent metrics type Habs).
  reflexivity.
Qed.

Lemma absent_type_scores_100_witness :
  calculateComponentScore [cpuSample 95; cpuSample 97] "memory" 85 = 100%float.
Proof.
  apply (absent_type_scores_100 [cpuSample 95; cpuSample 97] "memory" 85%float).
  intros m [E|[E|[]]]; subst m; simpl; discriminate.
Defined.

(** C2, as the specification states its boundary example: an average of
    exactly 80 against the threshold 80 does not score 50; it scores 100. *)
Lemma score_at_threshold_is_100_not_50 :
  calculateComponentScore [cpuSample 80] "cpu" 80 = 100%float
  /\ PrimFloat.eqb (calculateComponentScore [cpuSample 80] "cpu" 80) 50 = false
  /\ avgValue (typeMetrics [cpuSample 80] "cpu") = 80%float.
Proof. repeat split; vm_compute; reflexivity. Qed.

(** C2, amended: with at least one sample of the type, the score is the
    specification's two-branch formula applied to the left-to-right average
    of the type's values, the branch chosen by [avg >= threshold]; an average
    of 80 against 80 takes the first branch and scores 100, 79.9 takes the
    second and scores 50.0625, and 80.1 takes the first and scores 99 up to
    rounding of the binary64 operations. *)
Theorem component_score_two_branches :
  (forall metrics type threshold m,
      In m metrics -> Metric.metric_type m = type ->
      calculateComponentScore metrics type threshold
      = Spec.componentScore (avgValue (typeMetrics metrics type)) threshold)
  /\ Spec.componentScore 80 80 = 100%float
  /\ Spec.componentScore 79.9 80 = 50.0625%float
  /\ Spec.about (Spec.componentScore 80.1 80) 99 1e-9 = true
  /\ calculateComponentScore [cpuSample 80] "cpu" 80 = 100%float
  /\ calculateComponentScore [cpuSample 79.9] "cpu" 80 = 50.0625%float
  /\ Spec.about (calculateComponentScore [cpuSample 80.1] "cpu" 80) 99 1e-9 = true.
Proof.
  split.
  - intros metrics type threshold m Hin Hty.
    pose proof (typeMetrics_present metrics type m Hin Hty) as Hne.
    unfold calculateComponentScore, Spec.componentScore, ge.
    destruct (typeMetrics metrics type) as [|m0 tm] eqn:E.
    + contradiction Hne. reflexivity.
    + reflexivity.
  - repeat split; vm_compute; reflexivity.
Qed.

Lemma component_score_two_branches_witness :
  calculateComponentScore [cpuSample 70; cpuSample 96] "cpu" 80
  = Spec.componentScore (avgValue (typeMetrics [cpuSample 70; cpuSample 96] "cpu")) 80.
Proof.
  apply (proj1 component_score_two_branches [cpuSample 70; cpuSample 96] "cpu" 80%float (cpuSample 70)).
  - simpl. left. reflexivity.
  - reflexivity.
Defined.

(** C6: whenever the health scorer computes a score (there are recent
    metrics), its pod-health component is 100 when the cluster has no pod rows
    (also when the pod query returned nothing), and otherwise the number of
    rows whose status is Running divided by the number of rows, times 100. *)
Theorem pod_health_score_ratio : forall m ms podHealth,
  exists overall scores,
    calculateClusterHealthScore (Some (m :: ms)) podHealth = HealthOk overall scores
    /\ podHealthScore scores = calculatePodHealthScore podHealth
    /\ calculatePodHealthScore None = 100%float
    /\ calculatePodHealthScore (Some []) = 100%float
    /\ (forall p rows, podHealth = Some (p :: rows) ->
          podHealthScore scores
          = (ofNat (List.length (filter (fun q => String.eqb (PodHealth.status q) "Running")
                                        (p :: rows)))
             / ofNat (List.length (p :: rows)) * 100)%float).
Proof.
  intros m ms podHealth.
  eexists. eexists. split; [reflexivity|].
  split; [reflexivity|].
  split; [reflexivity|].
  split; [reflexivity|].
  intros p rows ->. reflexivity.
Qed.

Lemma pod_health_score_ratio_examples :
  calculatePodHealthScore (Some [runningPod; failedPod]) = 50%float
  /\ calculatePodHealthScore (Some [failedPod]) = 0%float
  /\ calculatePodHealthScore (Some [runningPod]) = 100%float
  /\ PrimFloat.eqb (calculatePodHealthScore (Some [])) 0 = false.
Proof. repeat split; vm_compute; reflexivity. Qed.

End ScoreFacts.

(** ** Threshold alerts *)

Module ThresholdFacts.
Import JS PrometheusMonitor Samples.
Open Scope string_scope.

Section Formatting.

Variable toFixed1 : number -> string.
Variable numberToString : number -> string.
Variable alertLookup : nat -> bool.

Local Abbreviation checkMetric := (checkMetric toFixed1 numberToString alertLookup).
Local Abbreviation checkMetricThresholds :=
  (checkMetricThresholds toFixed1 numberToString alertLookup).
Local Abbreviation newAlert := (newAlert toFixed1 numberToString).

Lemma severityOf_critical : forall threshold value,
  ge value (critical threshold) = true ->
  severityOf threshold value = Some ("critical", critical threshold).
Proof. intros threshold value H. unfold severityOf. rewrite H. reflexivity. Qed.

Lemma severityOf_none : forall threshold value,
  ge value (critical threshold) = false ->
  ge value (warning threshold) = false ->
  severityOf threshold value = None.
Proof. intros threshold value Hc Hw. unfold severityOf. rewrite Hc, Hw. reflexivity. Qed.

(** C5: for a sample whose type has a threshold pair, a value at or above
    the critical threshold is classified critical against the critical
    threshold, even where it is also at or above the warning one, and the
    alert the pass then inserts (unless its lookup finds an open alert)
    carries that severity; a value below both thresholds leaves the table and
    the counter as they were. *)
Theorem critical_checked_before_warning : forall cluster k st metric threshold,
  thresholds (Metric.metric_type metric) = Some threshold ->
  (ge (Metric.value metric) (critical threshold) = true ->
     severityOf threshold (Metric.value metric) = Some ("critical", critical threshold)
     /\ severityOf threshold (Metric.value metric) <> Some ("warning", warning threshold)
     /\ checkMetric cluster k st metric
        = match existingAlert (alertLookup k) cluster metric (fst st) with
          | Some _ => st
          | None => ((fst st ++ [newAlert cluster metric "critical" (critical threshold)])%list,
                     S (snd st))
          end)
  /\ (ge (Metric.value metric) (critical threshold) = false ->
      ge (Metric.value metric) (warning threshold) = false ->
      severityOf threshold (Metric.value metric) = None
      /\ checkMetric cluster k st metric = st).
Proof.
  intros cluster k st metric threshold Hthr. split.
  - intros Hc.
    pose proof (severityOf_critical threshold (Metric.value metric) Hc) as Hsev.
    split; [exact Hsev|]. split.
    + rewrite Hsev. intros E. inversion E.
    + unfold PrometheusMonitor.checkMetric. rewrite Hthr, Hsev. reflexivity.
  - intros Hc Hw.
    pose proof (severityOf_none threshold (Metric.value metric) Hc Hw) as Hsev.
    split; [exact Hsev|].
    unfold PrometheusMonitor.checkMetric. rewrite Hthr, Hsev. reflexivity.
Qed.

(** *** The open alerts of a triple with a node name *)

Lemma orElse_some : forall n, orElse (Some n) "" = n.
Proof. intros [|c r]; reflexivity. Qed.

Lemma openAlerts_app : forall cid aty node xs ys,
  openAlerts cid aty node (xs ++ ys) = (openAlerts cid aty node xs ++ openAlerts cid aty node ys)%list.
Proof. intros. unfold openAlerts. apply filter_app. Qed.

Lemma single_none_short : forall (A : Type) (rows : list A),
  single rows = None -> List.length rows <= 1 -> rows = [].
Proof.
  intros A [|r [|r' rest]] Hs Hlen; simpl in *.
  - reflexivity.
  - discriminate.
  - lia.
Qed.

(** When the sample names its node, the lookup selects exactly the open
    alerts of the sample's triple. *)
Lemma lookup_selects_triple : forall cluster metric n alerts,
  Metric.node_name metric = Some n ->
  filter (matchesExisting cluster metric) alerts
  = openAlerts (Cluster.id cluster) (alertType metric) (Some n) alerts.
Proof.
  intros cluster metric n alerts Hn. unfold openAlerts.
  apply filter_ext. intros a. unfold matchesExisting.
  rewrite Hn, orElse_some.
  destruct (Alert.node_name a); reflexivity.
Qed.

Lemma checkMetric_named_triple : forall cluster k st metric cid aty n,
  alertLookup k = true ->
  List.length (openAlerts cid aty (Some n) (fst st)) <= 1 ->
  List.length (openAlerts cid aty (Some n) (fst (checkMetric cluster k st metric))) <= 1.
Proof.
  intros cluster k st metric cid aty n Hanswered Hinv.
  unfold PrometheusMonitor.checkMetric. rewrite Hanswered.
  destruct (thresholds (Metric.metric_type metric)) as [threshold|]; [|exact Hinv].
  destruct (severityOf threshold (Metric.value metric)) as [[severity thresholdValue]|];
    [|exact Hinv].
  destruct (existingAlert true cluster metric (fst st)) as [a|] eqn:Hex; [exact Hinv|].
  simpl fst. rewrite openAlerts_app, length_app.
  unfold openAlerts at 2. simpl filter.
  destruct (String.eqb_spec (Cluster.id cluster) cid) as [Ec|_]; simpl; [|lia].
  destruct (String.eqb_spec (alertType metric) aty) as [Ea|_]; simpl; [|lia].
  destruct (strictEq (Metric.node_name metric) (Some n)) eqn:En; simpl; [|lia].
  destruct (Metric.node_name metric) as [n'|] eqn:Hn; simpl in En; [|discriminate].
  apply String.eqb_eq in En. subst n' cid aty.
  unfold existingAlert in Hex.
  rewrite (lookup_selects_triple cluster metric n (fst st) Hn) in Hex.
  rewrite (single_none_short _ _ Hex Hinv). simpl. lia.
Qed.

(** X1: for a triple with a node name, a pass whose lookups are all
    answered never leaves more than one open alert where there was at most
    one. *)
Lemma pass_keeps_named_triple : forall cluster metrics alerts cid aty n,
  (forall k, alertLookup k = true) ->
  List.length (openAlerts cid aty (Some n) alerts) <= 1 ->
  List.length (openAlerts cid aty (Some n)
                 (fst (checkMetricThresholds cluster metrics alerts))) <= 1.
Proof.
  intros cluster metrics alerts cid aty n Hanswered Hinv.
  assert (Hloop : forall ms k st,
             List.length (openAlerts cid aty (Some n) (fst st)) <= 1 ->
             List.length (openAlerts cid aty (Some n)
                            (fst (forEachFrom (checkMetric cluster) k ms st))) <= 1).
  { induction ms as [|m ms IH]; intros k st Hst; simpl.
    - exact Hst.
    - apply IH. apply checkMetric_named_triple; [apply Hanswered | exact Hst]. }
  unfold PrometheusMonitor.checkMetricThresholds.
  destruct metrics as [[|m ms]|]; try exact Hinv.
  apply Hloop. exact Hinv.
Qed.

End Formatting.

Lemma pass_keeps_named_triple_witness :
  List.length
    (openAlerts "c1" "cpu_pressure" (Some "node-1")
       (fst (checkMetricThresholds (fun _ => "95.0") (fun _ => "90") (fun _ => true) prod
               (Some [cpuSample 95; cpuSample 96; cpuSample 85]) []))) <= 1.
Proof.
  apply (pass_keeps_named_triple (fun _ => "95.0") (fun _ => "90") (fun _ => true) prod
           (Some [cpuSample 95; cpuSample 96; cpuSample 85]) []
           "c1" "cpu_pressure" "node-1").
  - reflexivity.
  - simpl. lia.
Defined.

(** Without the answer of a lookup the pass cannot tell: the second of two
    samples of node-1 finds the alert of the first when its lookup is
    answered, and inserts a second open alert of the triple when it is not. *)
Lemma unanswered_lookup_inserts_again :
  List.length
    (openAlerts "c1" "cpu_pressure" (Some "node-1")
       (fst (checkMetricThresholds (fun _ => "95.0") (fun _ => "90") (fun _ => true) prod
               (Some [cpuSample 95; cpuSample 96]) []))) = 1
  /\ List.length
       (openAlerts "c1" "cpu_pressure" (Some "node-1")
          (fst (checkMetricThresholds (fun _ => "95.0") (fun _ => "90")
                  (fun k => Nat.eqb k 0) prod
                  (Some [cpuSample 95; cpuSample 96]) []))) = 2.
Proof. split; vm_compute; reflexivity. Qed.

Lemma critical_checked_before_warning_witness :
  severityOf {| critical := 90; warning := 80 |} 95
  = Some ("critical", 90%float).
Proof.
  apply (critical_checked_before_warning (fun _ => "95.0") (fun _ => "90") (fun _ => true)
           prod 0 ([], 0) (cpuSample 95) {| critical := 90; warning := 80 |}).
  - reflexivity.
  - vm_compute. reflexivity.
Defined.

(** C1, on an input where it fails: a memory sample without node name
    (pod_memory_usage, 50 MiB) is at or above the critical threshold 95.  The
    first pass inserts an alert with a null [node_name]; the lookup of the
    second pass compares [node_name] with the empty string, finds nothing
    although it is answered, and a second unresolved row of the same triple
    is inserted.  Two such samples in one pass do the same.  This is so
    whichever lookups of the three passes are answered. *)
Theorem null_node_alert_is_inserted_twice :
  forall toFixed1 numberToString firstLookup secondLookup lookup,
  let first := checkMetricThresholds toFixed1 numberToString firstLookup prod
                 (Some [podMemorySample]) [] in
  let second := checkMetricThresholds toFixed1 numberToString secondLookup prod
                  (Some [podMemorySample]) (fst first) in
  List.length (openAlerts "c1" "memory_pressure" None (fst first)) = 1
  /\ existingAlert true prod podMemorySample (fst first) = None
  /\ snd second = 1
  /\ List.length (openAlerts "c1" "memory_pressure" None (fst second)) = 2
  /\ List.length (openAlerts "c1" "memory_pressure" None
                    (fst (checkMetricThresholds toFixed1 numberToString lookup prod
                            (Some [podMemorySample; podMemorySample]) []))) = 2.
Proof.
  intros toFixed1 numberToString firstLookup secondLookup lookup. cbv zeta.
  unfold checkMetricThresholds, forEachFrom, checkMetric.
  destruct (firstLookup 0), (secondLookup 0), (lookup 0), (lookup 1);
    repeat split; vm_compute; reflexivity.
Qed.

End ThresholdFacts.

(** ** Event correlation *)

Module CorrelationFacts.
Import JS IntelligentAnalysis Samples.
Open Scope string_scope.
Open Scope list_scope.

Section Correlation.

Variable correlationModel : nat -> list Event.t -> Reply (option CorrelationJson.t).
Variable correlationSuffix : nat -> string.

Local Abbreviation analyze := (analyzeEventCorrelationWithAI correlationModel).
Local Abbreviation step := (correlateWindow correlationModel correlationSuffix).
Local Abbreviation row := (correlationRow correlationSuffix).

Lemma correlateWindow_short : forall cluster st window,
  List.length (Window.events window) < 2 -> step cluster st window = st.
Proof.
  intros cluster st window Hlen. unfold correlateWindow.
  destruct (Nat.ltb_spec (List.length (Window.events window)) 2) as [_|Hge].
  - reflexivity.
  - lia.
Qed.

Lemma correlateWindow_above : forall cluster st window,
  2 <= List.length (Window.events window) ->
  gt (CorrelationAnalysis.confidence
        (analyze (List.length (correlationCalls st)) (Window.events window))) 0.7 = true ->
  step cluster st window
  = {| correlations :=
         correlations st
         ++ [row cluster (correlationsCreated st) (Window.events window)
                 (analyze (List.length (correlationCalls st)) (Window.events window))];
       correlationCalls := correlationCalls st ++ [Window.events window];
       correlationsCreated := S (correlationsCreated st) |}.
Proof.
  intros cluster st window Hlen Hgt. unfold correlateWindow.
  destruct (Nat.ltb_spec (List.length (Window.events window)) 2) as [Hlt|_].
  - lia.
  - rewrite Hgt. reflexivity.
Qed.

Lemma correlateWindow_not_above : forall cluster st window,
  2 <= List.length (Window.events window) ->
  gt (CorrelationAnalysis.confidence
        (analyze (List.length (correlationCalls st)) (Window.events window))) 0.7 = false ->
  step cluster st window
  = {| correlations := correlations st;
       correlationCalls := correlationCalls st ++ [Window.events window];
       correlationsCreated := correlationsCreated st |}.
Proof.
  intros cluster st window Hlen Hgt. unfold correlateWindow.
  destruct (Nat.ltb_spec (List.length (Window.events window)) 2) as [Hlt|_].
  - lia.
  - rewrite Hgt. reflexivity.
Qed.

Lemma confidence_of_reply : forall n events result,
  correlationModel n events = Parsed (Some result) ->
  CorrelationAnalysis.confidence (analyze n events)
  = if CorrelationJson.isCorrelated result then CorrelationJson.confidence result else 0%float.
Proof.
  intros n events result Hr. unfold analyzeEventCorrelationWithAI. rewrite Hr. reflexivity.
Qed.

(** C4: in one iteration over a time bucket, a bucket of exactly one event
    changes nothing (the model is not even asked); for a bucket of two or
    more events the iteration hands exactly one more row to the table when
    the confidence the analysis returns is above 0.7, and none otherwise.
    The comparison is strict: a model that reports a correlation with
    confidence 0.70 gets no row, one that reports 0.71 gets one. *)
Theorem correlation_row_needs_two_events_and_confidence_above_07 :
  forall cluster st window,
    let events := Window.events window in
    let analysis := analyze (List.length (correlationCalls st)) events in
    let st' := step cluster st window in
    (List.length events = 1 -> st' = st)
    /\ (2 <= List.length events ->
        gt (CorrelationAnalysis.confidence analysis) 0.7 = true ->
        correlations st' = correlations st ++ [row cluster (correlationsCreated st) events analysis]
        /\ correlationsCreated st' = S (correlationsCreated st))
    /\ (2 <= List.length events ->
        gt (CorrelationAnalysis.confidence analysis) 0.7 = false ->
        correlations st' = correlations st
        /\ correlationsCreated st' = correlationsCreated st)
    /\ (forall result,
          2 <= List.length events ->
          correlationModel (List.length (correlationCalls st)) events = Parsed (Some result) ->
          CorrelationJson.isCorrelated result = true ->
          (CorrelationJson.confidence result = 0.70%float -> correlations st' = correlations st)
          /\ (CorrelationJson.confidence result = 0.71%float ->
              correlations st'
              = correlations st ++ [row cluster (correlationsCreated st) events analysis])).
Proof.
  intros cluster st window events analysis st'.
  split; [|split; [|split]].
  - intros H1. apply correlateWindow_short. fold events. lia.
  - intros Hlen Hgt. subst st'.
    rewrite (correlateWindow_above cluster st window Hlen Hgt). split; reflexivity.
  - intros Hlen Hgt. subst st'.
    rewrite (correlateWindow_not_above cluster st window Hlen Hgt). split; reflexivity.
  - intros result Hlen Hreply Hcorr.
    pose proof (confidence_of_reply _ _ _ Hreply) as Hconf.
    rewrite Hcorr in Hconf. split; intros Hval; rewrite Hval in Hconf; subst st'.
    + rewrite (correlateWindow_not_above cluster st window Hlen); [reflexivity|].
      fold events. rewrite Hconf. vm_compute. reflexivity.
    + rewrite (correlateWindow_above cluster st window Hlen); [reflexivity|].
      fold events. rewrite Hconf. vm_compute. reflexivity.
Qed.

Lemma correlateWindow_rows : forall cluster st window,
  (forall r, In r (correlations st) ->
     gt (EventCorrelation.confidence_score r) 0.7 = true
     /\ EventCorrelation.related_event_ids r <> []) ->
  forall r, In r (correlations (step cluster st window)) ->
    gt (EventCorrelation.confidence_score r) 0.7 = true
    /\ EventCorrelation.related_event_ids r <> [].
Proof.
  intros cluster st window Hst r. unfold correlateWindow.
  destruct (Nat.ltb_spec (List.length (Window.events window)) 2) as [_|Hlen].
  - apply Hst.
  - destruct (gt (CorrelationAnalysis.confidence
                    (analyze (List.length (correlationCalls st)) (Window.events window))) 0.7)
      eqn:Hgt; simpl.
    + intros Hin. apply in_app_or in Hin. destruct Hin as [Hold|[<-|[]]].
      * apply Hst. exact Hold.
      * simpl. split; [exact Hgt|].
        destruct (Window.events window) as [|e0 [|e1 rest]]; simpl in *; try lia.
        discriminate.
    + apply Hst.
Qed.

(** X3: every row a correlation pass hands to the table has a confidence
    above 0.7 and at least one related event beside the primary one. *)
Theorem pass_rows_are_confident : forall cluster events r,
  In r (correlations (fst (performEventCorrelation correlationModel correlationSuffix
                             cluster events))) ->
  gt (EventCorrelation.confidence_score r) 0.7 = true
  /\ EventCorrelation.related_event_ids r <> [].
Proof.
  intros cluster events r. unfold performEventCorrelation.
  destruct events as [[|e evs]|]; simpl; try (intros []).
  generalize (groupEventsByTimeWindows (e :: evs) 5). intros windows.
  assert (H : forall ws st,
             (forall r, In r (correlations st) ->
                gt (EventCorrelation.confidence_score r) 0.7 = true
                /\ EventCorrelation.related_event_ids r <> []) ->
             forall r, In r (correlations (fold_left (step cluster) ws st)) ->
               gt (EventCorrelation.confidence_score r) 0.7 = true
               /\ EventCorrelation.related_event_ids r <> []).
  { induction ws as [|w ws IH]; intros st Hst; simpl.
    - exact Hst.
    - apply IH. apply correlateWindow_rows. exact Hst. }
  apply H. intros r' [].
Qed.

End Correlation.

Lemma pass_rows_are_confident_witness :
  let r := correlationRow suffix prod 0 (Window.events twoEvents)
             (analyzeEventCorrelationWithAI (confident 0.71) 0 (Window.events twoEvents)) in
  gt (EventCorrelation.confidence_score r) 0.7 = true
  /\ EventCorrelation.related_event_ids r <> [].
Proof.
  cbv zeta.
  apply (pass_rows_are_confident (confident 0.71) suffix prod
           (Some (Window.events twoEvents))).
  vm_compute. left. reflexivity.
Defined.

Lemma correlation_row_needs_two_events_and_confidence_above_07_witness :
  correlateWindow (confident 0.99) suffix prod correlationStart oneEvent = correlationStart
  /\ correlations (correlateWindow (confident 0.70) suffix prod correlationStart twoEvents) = []
  /\ List.length
       (correlations (correlateWindow (confident 0.71) suffix prod correlationStart twoEvents)) = 1.
Proof.
  split; [|split].
  - apply (correlation_row_needs_two_events_and_confidence_above_07
             (confident 0.99) suffix prod correlationStart oneEvent).
    reflexivity.
  - apply (correlation_row_needs_two_events_and_confidence_above_07
             (confident 0.70) suffix prod correlationStart twoEvents).
    + simpl. lia.
    + vm_compute. reflexivity.
  - pose proof (correlation_row_needs_two_events_and_confidence_above_07
                  (confident 0.71) suffix prod correlationStart twoEvents) as H.
    cbv zeta in H. destruct H as [_ [H _]].
    rewrite (proj1 (H ltac:(simpl; lia) ltac:(vm_compute; reflexivity))).
    reflexivity.
Defined.

(** The whole pass on the two-event bucket and on the one-event bucket. *)
Lemma performEventCorrelation_examples :
  snd (performEventCorrelation (confident 0.70) suffix prod (Some (Window.events twoEvents)))
  = Created 0
  /\ snd (performEventCorrelation (confident 0.71) suffix prod (Some (Window.events twoEvents)))
     = Created 1
  /\ performEventCorrelation (confident 0.99) suffix prod (Some (Window.events oneEvent))
     = (correlationStart, Created 0)
  /\ groupEventsByTimeWindows (Window.events twoEvents) 5 = [twoEvents].
Proof. repeat split; vm_compute; reflexivity. Qed.

End CorrelationFacts.

(** ** Pod restart trends *)

Module TrendFacts.
Import JS IntelligentAnalysis Samples.
Open Scope string_scope.
Open Scope list_scope.

(** [set] leaves the own properties of the object alone, so the map
    [groupBy] returns has none. *)
Lemma groupBy_ownProps : forall (T : Type) (array : list T) (keyFunc : T -> string),
  JSMap.ownProps (groupBy array keyFunc) = [].
Proof.
  intros T array keyFunc. unfold groupBy.
  assert (H : forall items (m : JSMap.t (list T)),
             JSMap.ownProps m = [] ->
             JSMap.ownProps
               (fold_left
                  (fun groups item =>
                     let key := keyFunc item in
                     let groups := if JSMap.has groups key then groups
                                   else JSMap.set groups key [] in
                     match JSMap.get groups key with
                     | Some its => JSMap.set groups key (its ++ [item])
                     | None => groups
                     end) items m) = []).
  { induction items as [|item items IH]; intros m Hm; simpl.
    - exact Hm.
    - apply IH.
      destruct (JSMap.has m (keyFunc item));
        destruct (JSMap.get _ (keyFunc item)); simpl; exact Hm. }
  apply H. reflexivity.
Qed.

(** X2: whatever the history and the model, the loop of the pass iterates
    over no entry: no model call, no row. *)
Lemma trend_pass_writes_nothing : forall trendModel now cluster podHealthData,
  fst (analyzePodRestartTrends trendModel now cluster podHealthData) = trendStart.
Proof.
  intros trendModel now cluster podHealthData.
  unfold analyzePodRestartTrends.
  destruct podHealthData as [[|p rows]|]; try reflexivity.
  unfold Object_entries. rewrite groupBy_ownProps. reflexivity.
Qed.

(** C3, on an input where it fails: the history of pod web/default has two
    samples in one group and the model reports significance 0.9 > 0.5, yet the
    pass writes no PodRestartTrend row and reports 0 trends, because
    [Object.entries] of the Map that [groupBy] returns is empty.  Run over the
    entries the Map holds, the same loop body writes the row the claim
    describes, with the restart count 5 of the latest sample. *)
Theorem trend_pass_skips_significant_group : forall now,
  JSMap.data (groupBy webHistory podKey) = [("web_default", webHistory)]
  /\ (forall n, option_map TrendAnalysis.significance (analyzePodTrendWithAI rising n webHistory)
                = Some 0.9%float)
  /\ gt 0.9 0.5 = true
  /\ analyzePodRestartTrends rising now prod (Some webHistory) = (trendStart, Created 0)
  /\ map PodRestartTrend.restart_count
         (trends (fst (analyzeGroups rising now prod
                         (JSMap.data (groupBy webHistory podKey)) trendStart)))
     = [5%Z].
Proof.
  intros now. repeat split; try (vm_compute; reflexivity).
Qed.

End TrendFacts.

(** ** Suggestions *)

Module SuggestionFacts.
Import JS IntelligentAnalysis Samples.
Open Scope string_scope.
Open Scope list_scope.

Lemma insertByCreatedAt_In : forall a x sorted,
  In x (insertByCreatedAt a sorted) <-> x = a \/ In x sorted.
Proof.
  intros a x sorted. induction sorted as [|b rest IH]; simpl.
  - intuition.
  - destruct (SmartAlert.created_at b <? SmartAlert.created_at a)%Z; simpl.
    + intuition.
    + rewrite IH. intuition.
Qed.

Lemma orderByCreatedAtDesc_In : forall x rows,
  In x (orderByCreatedAtDesc rows) <-> In x rows.
Proof.
  intros x rows. unfold orderByCreatedAtDesc.
  induction rows as [|a rest IH]; simpl.
  - reflexivity.
  - rewrite insertByCreatedAt_In, IH. intuition.
Qed.

Lemma unresolvedAlerts_In : forall cluster smart_alerts a,
  In a (unresolvedAlerts cluster smart_alerts) <->
  In a smart_alerts
  /\ SmartAlert.cluster_id a = Cluster.id cluster
  /\ SmartAlert.is_resolved a = false.
Proof.
  intros cluster smart_alerts a. unfold unresolvedAlerts.
  rewrite orderByCreatedAtDesc_In, filter_In, andb_true_iff, negb_true_iff, String.eqb_eq.
  intuition.
Qed.

(** The lookup of existing suggestions reads the alert's id only. *)
Lemma existingSuggestions_same_id : forall a b table,
  SmartAlert.id a = SmartAlert.id b ->
  existingSuggestions a table = existingSuggestions b table.
Proof. intros a b table E. unfold existingSuggestions. rewrite E. reflexivity. Qed.

Lemma existingSuggestions_app : forall a xs ys,
  existingSuggestions a (xs ++ ys) = existingSuggestions a xs ++ existingSuggestions a ys.
Proof. intros. unfold existingSuggestions. apply filter_app. Qed.

Lemma existingSuggestions_other : forall alert added,
  (forall s, In s added -> Suggestion.alert_id s <> SmartAlert.id alert) ->
  existingSuggestions alert added = [].
Proof.
  intros alert added H. unfold existingSuggestions.
  induction added as [|s rest IH]; simpl.
  - reflexivity.
  - destruct (String.eqb_spec (Suggestion.alert_id s) (SmartAlert.id alert)) as [E|_].
    + exfalso. apply (H s); [left; reflexivity | exact E].
    + apply IH. intros s' Hin. apply H. right. exact Hin.
Qed.

Section Suggestions.

Variable suggestionModel : nat -> SmartAlert.t -> Cluster.t -> Reply SuggestionsJson.
Variable suggestionLookup : nat -> bool.
Variable cluster : Cluster.t.
Variable table : list Suggestion.t.
Variable alerts : list SmartAlert.t.

(** Every lookup of the pass is answered. *)
Hypothesis answered : forall k, suggestionLookup k = true.

Local Abbreviation loop := (suggestForAll suggestionModel suggestionLookup cluster).

Local Abbreviation grown := (grownFrom table alerts).

Lemma grown_asked : forall st alert,
  grown st -> In alert alerts ->
  existingSuggestions alert (suggestions st) = [] ->
  forall a, In a (suggestionCalls st ++ [alert]) ->
    In a alerts /\ existingSuggestions a table = [].
Proof.
  intros st alert [[added [Hs _]] Hcalls] Hin Hnone a Ha.
  apply in_app_or in Ha. destruct Ha as [Ha|[<-|[]]].
  - apply Hcalls. exact Ha.
  - split; [exact Hin|].
    rewrite Hs, existingSuggestions_app in Hnone.
    apply app_eq_nil in Hnone. exact (proj1 Hnone).
Qed.

Lemma suggestForAll_grown : forall rest k st,
  incl rest alerts -> grown st -> grown (fst (loop rest k st)).
Proof.
  induction rest as [|alert rest IH]; intros k st Hincl Hst; simpl.
  - exact Hst.
  - assert (Hin : In alert alerts) by (apply Hincl; left; reflexivity).
    assert (Hrest : incl rest alerts) by (intros x Hx; apply Hincl; right; exact Hx).
    unfold suggestFor, lookupSuggestions. rewrite answered.
    destruct (existingSuggestions alert (suggestions st)) as [|s0 ss] eqn:Hex.
    + destruct (generateSuggestionsWithAI suggestionModel
                  (List.length (suggestionCalls st)) alert cluster) as [|items].
      * simpl. destruct Hst as [[added [Hs Hadded]] Hcalls]. split.
        -- exists added. split; [exact Hs|].
           intros s Hs'. destruct (Hadded s Hs') as [a [Ha E]].
           exists a. split; [apply in_or_app; left; exact Ha | exact E].
        -- apply (grown_asked st alert); [|exact Hin|exact Hex].
           split; [exists added; split; assumption | exact Hcalls].
      * apply IH; [exact Hrest|].
        pose proof (grown_asked st alert Hst Hin Hex) as Hcalls'.
        destruct Hst as [[added [Hs Hadded]] Hcalls]. split; simpl.
        -- exists (added ++ map (suggestionRow alert) items). split.
           ++ rewrite Hs, app_assoc. reflexivity.
           ++ intros s Hin'. apply in_app_or in Hin'. destruct Hin' as [Hold|Hnew].
              ** destruct (Hadded s Hold) as [a [Ha E]].
                 exists a. split; [apply in_or_app; left; exact Ha | exact E].
              ** apply in_map_iff in Hnew. destruct Hnew as [j [<- _]].
                 exists alert. split; [apply in_or_app; right; left; reflexivity|].
                 reflexivity.
        -- exact Hcalls'.
    + apply IH; [exact Hrest | exact Hst].
Qed.

End Suggestions.



(** C7, on an input where it fails: the alert a1 has a suggestion row, and
    the lookup of its suggestions is not answered.  The code does not read
    the error of the lookup; the data is null, the guard that skips an alert
    with suggestions does not hold, the model is asked about a1 and its
    suggestion is inserted: a1 has two rows after the pass.  With the lookup
    answered, the same pass asks nothing and inserts nothing. *)
Theorem unanswered_lookup_regenerates_suggestions :
  let failing := generateIntelligentSuggestions advising (fun _ => false) prod
                   [oomAlert] [storedSuggestion] in
  let answered := generateIntelligentSuggestions advising (fun _ => true) prod
                    [oomAlert] [storedSuggestion] in
  existingSuggestions oomAlert [storedSuggestion] = [storedSuggestion]
  /\ suggestionCalls (fst failing) = [oomAlert]
  /\ snd failing = Created 1
  /\ suggestions (fst failing) = [storedSuggestion; suggestionRow oomAlert oneSuggestion]
  /\ List.length (existingSuggestions oomAlert (suggestions (fst failing))) = 2
  /\ suggestionCalls (fst answered) = []
  /\ snd answered = Created 0
  /\ suggestions (fst answered) = [storedSuggestion].
Proof. cbv zeta. repeat split; vm_compute; reflexivity. Qed.

(** Two passes in a row with answered lookups: the second asks the model
    nothing and inserts nothing. *)
Lemma suggestion_pass_twice :
  let first := generateIntelligentSuggestions advising (fun _ => true) prod
                 [oomAlert; crashAlert] [storedSuggestion] in
  let second := generateIntelligentSuggestions advising (fun _ => true) prod
                  [oomAlert; crashAlert] (suggestions (fst first)) in
  map SmartAlert.id (suggestionCalls (fst first)) = ["a2"]
  /\ snd first = Created 1
  /\ suggestionCalls (fst second) = []
  /\ snd second = Created 0
  /\ suggestions (fst second) = suggestions (fst first).
Proof. cbv zeta. repeat split; vm_compute; reflexivity. Qed.

End SuggestionFacts.

(** ** Failed model calls *)

Module FailureFacts.
Import JS IntelligentAnalysis Samples.
Open Scope string_scope.
Open Scope list_scope.

Section Failures.

Variable correlationModel : nat -> list Event.t -> Reply (option CorrelationJson.t).
Variable trendModel : nat -> list PodHealth.t -> Reply (option TrendAnalysis.t).
Variable suggestionModel : nat -> SmartAlert.t -> Cluster.t -> Reply SuggestionsJson.
Variable suggestionLookup : nat -> bool.
Variable correlationSuffix : nat -> string.
Variable now : nat -> Z.
Variable cluster : Cluster.t.

Lemma failed_correlation_call : forall n events,
  callFailed (correlationModel n events) = true ->
  analyzeEventCorrelationWithAI correlationModel n events
  = CorrelationAnalysis.mk 0 "Analysis failed" "unknown".
Proof.
  intros n events H. unfold analyzeEventCorrelationWithAI.
  destruct (correlationModel n events); [reflexivity | reflexivity | discriminate].
Qed.

Lemma failed_trend_call : forall n podData,
  callFailed (trendModel n podData) = true ->
  analyzePodTrendWithAI trendModel n podData = Some (TrendAnalysis.mk 0 "stable" 0).
Proof.
  intros n podData H. unfold analyzePodTrendWithAI.
  destruct (trendModel n podData); [reflexivity | reflexivity | discriminate].
Qed.

Lemma failed_suggestion_call : forall n alert,
  callFailed (suggestionModel n alert cluster) = true ->
  generateSuggestionsWithAI suggestionModel n alert cluster = Items [].
Proof.
  intros n alert H. unfold generateSuggestionsWithAI.
  destruct (suggestionModel n alert cluster); [reflexivity | reflexivity | discriminate].
Qed.

Lemma zero_not_above : gt 0 0.7 = false /\ gt 0 0.5 = false.
Proof. split; vm_compute; reflexivity. Qed.

Lemma correlateWindow_failed : forall st window,
  callFailed (correlationModel (List.length (correlationCalls st)) (Window.events window))
  = true ->
  correlations (correlateWindow correlationModel correlationSuffix cluster st window)
  = correlations st
  /\ correlationsCreated (correlateWindow correlationModel correlationSuffix cluster st window)
     = correlationsCreated st.
Proof.
  intros st window H. unfold correlateWindow.
  destruct (Nat.ltb (List.length (Window.events window)) 2); [split; reflexivity|].
  rewrite (failed_correlation_call _ _ H).
  cbn [CorrelationAnalysis.confidence].
  rewrite (proj1 zero_not_above). split; reflexivity.
Qed.

Lemma analyzeGroup_failed : forall st entry,
  callFailed (trendModel (List.length (trendCalls st)) (snd entry)) = true ->
  exists st',
    analyzeGroup trendModel now cluster st entry = Some st'
    /\ trends st' = trends st
    /\ trendsCreated st' = trendsCreated st.
Proof.
  intros st entry H. unfold analyzeGroup.
  destruct (Nat.ltb (List.length (snd entry)) 2).
  - exists st. repeat split.
  - rewrite (failed_trend_call _ _ H).
    cbn [TrendAnalysis.significance].
    rewrite (proj2 zero_not_above). eexists. repeat split.
Qed.

Lemma suggestFor_failed : forall k st alert,
  callFailed (suggestionModel (List.length (suggestionCalls st)) alert cluster) = true ->
  exists st',
    suggestFor suggestionModel suggestionLookup cluster k st alert = Some st'
    /\ suggestions st' = suggestions st
    /\ suggestionsCreated st' = suggestionsCreated st.
Proof.
  intros k st alert H. unfold suggestFor.
  destruct (lookupSuggestions suggestionLookup k alert (suggestions st)) as [[|s0 ss]|].
  - rewrite (failed_suggestion_call _ _ H). eexists. split; [reflexivity|].
    simpl. split; [apply app_nil_r | apply Nat.add_0_r].
  - exists st. repeat split.
  - rewrite (failed_suggestion_call _ _ H). eexists. split; [reflexivity|].
    simpl. split; [apply app_nil_r | apply Nat.add_0_r].
Qed.

(** When every call of a pass fails, the loop runs to its end without a row. *)
Lemma correlation_loop_all_failed : forall windows st,
  (forall n events, callFailed (correlationModel n events) = true) ->
  correlations (fold_left (correlateWindow correlationModel correlationSuffix cluster)
                          windows st) = correlations st
  /\ correlationsCreated (fold_left (correlateWindow correlationModel correlationSuffix cluster)
                                    windows st) = correlationsCreated st.
Proof.
  induction windows as [|w windows IH]; intros st Hall; simpl.
  - split; reflexivity.
  - destruct (IH (correlateWindow correlationModel correlationSuffix cluster st w) Hall)
      as [H1 H2].
    destruct (correlateWindow_failed st w (Hall _ _)) as [H3 H4].
    rewrite H1, H2, H3, H4. split; reflexivity.
Qed.

Lemma trend_loop_all_failed : forall entries st,
  (forall n podData, callFailed (trendModel n podData) = true) ->
  trends (fst (analyzeGroups trendModel now cluster entries st)) = trends st
  /\ snd (analyzeGroups trendModel now cluster entries st) = Created (trendsCreated st).
Proof.
  induction entries as [|entry entries IH]; intros st Hall; simpl.
  - split; reflexivity.
  - destruct (analyzeGroup_failed st entry (Hall _ _)) as [st' [E [H1 H2]]].
    rewrite E. destruct (IH st' Hall) as [H3 H4].
    rewrite H3, H4, H1, H2. split; reflexivity.
Qed.

Lemma suggestion_loop_all_failed : forall alerts k st,
  (forall n alert, callFailed (suggestionModel n alert cluster) = true) ->
  suggestions (fst (suggestForAll suggestionModel suggestionLookup cluster alerts k st))
  = suggestions st
  /\ snd (suggestForAll suggestionModel suggestionLookup cluster alerts k st)
     = Created (suggestionsCreated st).
Proof.
  induction alerts as [|alert alerts IH]; intros k st Hall; simpl.
  - split; reflexivity.
  - destruct (suggestFor_failed k st alert (Hall _ _)) as [st' [E [H1 H2]]].
    rewrite E. destruct (IH (S k) st' Hall) as [H3 H4].
    rewrite H3, H4, H1, H2. split; reflexivity.
Qed.

End Failures.

(** C9: a model call that throws or whose content does not parse is answered
    by the fallback of its function: confidence 0, significance 0, or an empty
    list of suggestions.  The iteration that made the call then completes
    without throwing and hands no row to its table; and a pass whose every
    call fails ends with a count (never with an error) and no row: 0
    correlations, the trend loop's counter unchanged over any entries, and the
    suggestion table as it was, whichever lookups of the suggestion pass are
    answered. *)
Theorem failed_model_call_persists_nothing :
  forall correlationModel trendModel suggestionModel suggestionLookup correlationSuffix now
         cluster,
    (forall st window,
        callFailed (correlationModel (List.length (correlationCalls st)) (Window.events window))
        = true ->
        CorrelationAnalysis.confidence
          (analyzeEventCorrelationWithAI correlationModel
             (List.length (correlationCalls st)) (Window.events window)) = 0%float
        /\ correlations (correlateWindow correlationModel correlationSuffix cluster st window)
           = correlations st
        /\ correlationsCreated (correlateWindow correlationModel correlationSuffix cluster st window)
           = correlationsCreated st)
    /\ (forall st entry,
          callFailed (trendModel (List.length (trendCalls st)) (snd entry)) = true ->
          option_map TrendAnalysis.significance
            (analyzePodTrendWithAI trendModel (List.length (trendCalls st)) (snd entry))
          = Some 0%float
          /\ exists st',
              analyzeGroup trendModel now cluster st entry = Some st'
              /\ trends st' = trends st
              /\ trendsCreated st' = trendsCreated st)
    /\ (forall k st alert,
          callFailed (suggestionModel (List.length (suggestionCalls st)) alert cluster) = true ->
          generateSuggestionsWithAI suggestionModel (List.length (suggestionCalls st))
            alert cluster = Items []
          /\ exists st',
              suggestFor suggestionModel suggestionLookup cluster k st alert = Some st'
              /\ suggestions st' = suggestions st
              /\ suggestionsCreated st' = suggestionsCreated st)
    /\ ((forall n events, callFailed (correlationModel n events) = true) ->
        forall events,
          correlations (fst (performEventCorrelation correlationModel correlationSuffix
                               cluster events)) = []
          /\ snd (performEventCorrelation correlationModel correlationSuffix cluster events)
             <> PassError)
    /\ ((forall n podData, callFailed (trendModel n podData) = true) ->
        forall entries st,
          trends (fst (analyzeGroups trendModel now cluster entries st)) = trends st
          /\ snd (analyzeGroups trendModel now cluster entries st) = Created (trendsCreated st))
    /\ ((forall n alert, callFailed (suggestionModel n alert cluster) = true) ->
        forall smart_alerts table,
          suggestions (fst (generateIntelligentSuggestions suggestionModel suggestionLookup
                              cluster smart_alerts table)) = table
          /\ snd (generateIntelligentSuggestions suggestionModel suggestionLookup cluster
                   smart_alerts table)
             <> PassError).
Proof.
  intros correlationModel trendModel suggestionModel suggestionLookup correlationSuffix now
         cluster.
  split; [|split; [|split; [|split; [|split]]]].
  - intros st window H. split.
    + rewrite (failed_correlation_call correlationModel _ _ H). reflexivity.
    + apply correlateWindow_failed. exact H.
  - intros st entry H. split.
    + rewrite (failed_trend_call trendModel _ _ H). reflexivity.
    + apply analyzeGroup_failed. exact H.
  - intros k st alert H. split.
    + apply failed_suggestion_call. exact H.
    + apply suggestFor_failed. exact H.
  - intros Hall events. unfold performEventCorrelation.
    destruct events as [[|e evs]|]; simpl; try (split; [reflexivity|discriminate]).
    split; [|discriminate].
    apply (proj1 (correlation_loop_all_failed correlationModel correlationSuffix cluster
                    (groupEventsByTimeWindows (e :: evs) 5) correlationStart Hall)).
  - intros Hall entries st. apply trend_loop_all_failed. exact Hall.
  - intros Hall smart_alerts table. unfold generateIntelligentSuggestions.
    destruct (unresolvedAlerts cluster smart_alerts) as [|a0 rest].
    + simpl. split; [reflexivity|discriminate].
    + destruct (suggestion_loop_all_failed suggestionModel suggestionLookup cluster
                  (a0 :: rest) 0
                  {| suggestions := table; suggestionCalls := []; suggestionsCreated := 0 |}
                  Hall) as [H1 H2].
      rewrite H1, H2. split; [reflexivity|discriminate].
Qed.

Lemma failed_model_call_persists_nothing_witness :
  correlations (correlateWindow downCorrelation suffix prod correlationStart twoEvents) = []
  /\ (exists st', analyzeGroup downTrend clock prod trendStart ("web_default", webHistory) = Some st'
                  /\ trends st' = []
                  /\ trendsCreated st' = 0)
  /\ suggestions (fst (generateIntelligentSuggestions downSuggestion (fun _ => true) prod
                         [oomAlert; crashAlert] [])) = [].
Proof.
  pose proof (failed_model_call_persists_nothing
                downCorrelation downTrend downSuggestion (fun _ => true) suffix clock prod) as
      [Hc [Ht [_ [_ [_ Hs]]]]].
  split; [|split].
  - apply (Hc correlationStart twoEvents). reflexivity.
  - apply (Ht trendStart ("web_default", webHistory)). reflexivity.
  - apply (Hs (fun _ _ => eq_refl) [oomAlert; crashAlert] []).
Defined.

End FailureFacts.

(** ** Notification filter *)

Module SlackFacts.
Import JS SlackIntegration Samples.
Open Scope string_scope.
Open Scope list_scope.

Lemma recipients_filter : forall user_id payload slack_webhooks preferences,
  recipients user_id payload slack_webhooks preferences
  = enabledWebhooks payload (userWebhooks user_id slack_webhooks) preferences.
Proof.
  intros. unfold recipients.
  destruct (userWebhooks user_id slack_webhooks); reflexivity.
Qed.


End SlackFacts.

(** ** Time buckets *)

Module WindowFacts.
Import JS IntelligentAnalysis Samples.
Open Scope string_scope.
Open Scope list_scope.
Open Scope Z_scope.

Lemma pushToFound_none : forall t e ws,
  pushToFound t e ws = None -> forall w, In w ws -> inWindow t w = false.
Proof.
  intros t e ws. induction ws as [|w0 ws IH]; simpl; intros H w Hin.
  - contradiction.
  - destruct (inWindow t w0) eqn:Hw0; [discriminate|].
    destruct (pushToFound t e ws) as [ws'|] eqn:Hp; [discriminate|].
    destruct Hin as [<-|Hin]; [exact Hw0 | apply IH; [reflexivity | exact Hin]].
Qed.

(** The window [find] returns: the first one that holds the time. *)
Lemma pushToFound_some : forall t e ws ws',
  pushToFound t e ws = Some ws' ->
  exists pre w post,
    ws = pre ++ w :: post
    /\ (forall w', In w' pre -> inWindow t w' = false)
    /\ inWindow t w = true
    /\ ws' = pre ++ Window.mk (Window.startTime w) (Window.endTime w)
                             (Window.events w ++ [e]) :: post.
Proof.
  intros t e ws. induction ws as [|w0 ws IH]; simpl; intros ws' H.
  - discriminate.
  - destruct (inWindow t w0) eqn:Hw0.
    + inversion H; subst ws'. exists [], w0, ws. repeat split; auto.
      intros w' [].
    + destruct (pushToFound t e ws) as [ws1|] eqn:Hp; [|discriminate].
      inversion H; subst ws'.
      destruct (IH ws1 eq_refl) as [pre [w [post [E [Hpre [Hw E']]]]]].
      exists (w0 :: pre), w, post. subst ws ws1. repeat split; auto.
      intros w' [<-|Hin]; [exact Hw0 | apply Hpre; exact Hin].
Qed.

Lemma grouping_step_events : forall windowMs windows event,
  Permutation
    (flat_map Window.events
       (match pushToFound (Event.created_at event) event windows with
        | Some windows' => windows'
        | None =>
            windows ++ [Window.mk (Event.created_at event / windowMs * windowMs)
                                  (Event.created_at event / windowMs * windowMs + windowMs)
                                  [event]]
        end))
    (flat_map Window.events windows ++ [event]).
Proof.
  intros windowMs windows event.
  destruct (pushToFound (Event.created_at event) event windows) as [ws'|] eqn:Hp.
  - destruct (pushToFound_some _ _ _ _ Hp) as [pre [w [post [E [_ [_ E']]]]]].
    subst windows ws'. rewrite !flat_map_app. simpl.
    rewrite <- !app_assoc. apply Permutation_app_head.
    apply Permutation_app_head. apply Permutation_app_comm.
  - rewrite flat_map_app. simpl. apply Permutation_refl.
Qed.

(** X4: grouping loses and duplicates no event: the events of the buckets,
    taken together, are the input events, and no bucket is empty. *)
Theorem grouping_partitions_the_events : forall events windowMinutes,
  Permutation (flat_map Window.events (groupEventsByTimeWindows events windowMinutes)) events
  /\ forall w, In w (groupEventsByTimeWindows events windowMinutes) -> Window.events w <> [].
Proof.
  intros events windowMinutes. unfold groupEventsByTimeWindows.
  set (windowMs := windowMinutes * 60 * 1000).
  set (step := fun windows event => _).
  assert (H : forall evs ws,
             (forall w, In w ws -> Window.events w <> []) ->
             Permutation (flat_map Window.events (fold_left step evs ws))
                         (flat_map Window.events ws ++ evs)
             /\ forall w, In w (fold_left step evs ws) -> Window.events w <> []).
  { induction evs as [|e evs IH]; intros ws Hne; simpl.
    - rewrite app_nil_r. split; [apply Permutation_refl | exact Hne].
    - assert (Hne' : forall w, In w (step ws e) -> Window.events w <> []).
      { unfold step. intros w Hin.
        destruct (pushToFound (Event.created_at e) e ws) as [ws'|] eqn:Hp.
        - destruct (pushToFound_some _ _ _ _ Hp) as [pre [w1 [post [E [_ [_ E']]]]]].
          subst ws ws'. apply in_app_or in Hin. destruct Hin as [Hin|[<-|Hin]].
          + apply Hne. apply in_or_app. left. exact Hin.
          + simpl. intros Habs. apply app_eq_nil in Habs. destruct Habs; discriminate.
          + apply Hne. apply in_or_app. right. right. exact Hin.
        - apply in_app_or in Hin. destruct Hin as [Hin|[<-|[]]].
          + apply Hne. exact Hin.
          + simpl. discriminate. }
      destruct (IH (step ws e) Hne') as [Hperm Hall]. split; [|exact Hall].
      eapply Permutation_trans; [exact Hperm|].
      replace (flat_map Window.events ws ++ e :: evs)
        with ((flat_map Window.events ws ++ [e]) ++ evs)
        by (rewrite <- app_assoc; reflexivity).
      apply Permutation_app_tail. unfold step. apply grouping_step_events. }
  destruct (H events [] (fun w (Hin : In w []) => False_ind _ Hin)) as [Hperm Hall].
  split; [exact Hperm | exact Hall].
Qed.

Lemma new_window_holds_time : forall ms t,
  0 < ms ->
  t / ms * ms <= t <= t / ms * ms + ms /\ (t / ms * ms) mod ms = 0.
Proof.
  intros ms t Hms.
  pose proof (Z.mul_div_le t ms Hms) as Hle.
  pose proof (Z.mod_pos_bound t ms Hms) as Hmod.
  pose proof (Z.div_mod t ms ltac:(lia)) as Hdm.
  rewrite (Z.mul_comm (t / ms) ms). split; [lia|].
  rewrite Z.mul_comm. apply Z.mod_mul. lia.
Qed.

(** X5: with a positive width, the buckets have pairwise different start
    times; each starts on a multiple of the width and ends one width later;
    and each event lies between the start and the end of its bucket, both
    included, so that two events of a bucket are at most one width apart.
    The end is included indeed: an event whose time is the end of a bucket
    there is joins a bucket there is, and no bucket is made for it, although
    its time starts the next window of the grid. *)
Theorem buckets_are_aligned_and_hold_their_events : forall events windowMinutes,
  0 < windowMinutes ->
  let windowMs := windowMinutes * 60 * 1000 in
  NoDup (map Window.startTime (groupEventsByTimeWindows events windowMinutes))
  /\ (forall w, In w (groupEventsByTimeWindows events windowMinutes) ->
       Window.endTime w = Window.startTime w + windowMs
       /\ Window.startTime w mod windowMs = 0
       /\ (forall e, In e (Window.events w) ->
             Window.startTime w <= Event.created_at e <= Window.endTime w)
       /\ (forall e1 e2, In e1 (Window.events w) -> In e2 (Window.events w) ->
             Z.abs (Event.created_at e1 - Event.created_at e2) <= windowMs))
  /\ (forall e w, In w (groupEventsByTimeWindows events windowMinutes) ->
       Event.created_at e = Window.endTime w ->
       Event.created_at e mod windowMs = 0
       /\ map Window.startTime (groupEventsByTimeWindows (events ++ [e]) windowMinutes)
          = map Window.startTime (groupEventsByTimeWindows events windowMinutes)
       /\ exists w', In w' (groupEventsByTimeWindows (events ++ [e]) windowMinutes)
                     /\ In e (Window.events w')
                     /\ In (Window.startTime w')
                           (map Window.startTime
                                (groupEventsByTimeWindows events windowMinutes))).
Proof.
  intros events windowMinutes Hpos windowMs.
  assert (Hms : 0 < windowMs) by (unfold windowMs; lia).
  unfold groupEventsByTimeWindows. fold windowMs.
  set (step := fun windows event => _).
  set (good := fun w : Window.t =>
                 Window.endTime w = Window.startTime w + windowMs
                 /\ Window.startTime w mod windowMs = 0
                 /\ forall e, In e (Window.events w) ->
                      Window.startTime w <= Event.created_at e <= Window.endTime w).
  assert (H : forall evs ws,
             NoDup (map Window.startTime ws) -> (forall w, In w ws -> good w) ->
             NoDup (map Window.startTime (fold_left step evs ws))
             /\ forall w, In w (fold_left step evs ws) -> good w).
  { induction evs as [|e evs IH]; intros ws Hnd Hgood; simpl.
    - split; assumption.
    - apply IH; unfold step;
        destruct (pushToFound (Event.created_at e) e ws) as [ws'|] eqn:Hp.
      + destruct (pushToFound_some _ _ _ _ Hp) as [pre [w1 [post [E [_ [_ E']]]]]].
        subst ws ws'. rewrite map_app in *. simpl in *. exact Hnd.
      + rewrite map_app. simpl.
        apply NoDup_app; [exact Hnd | repeat constructor; intros [] | ].
        intros S Hin [<-|[]].
        apply in_map_iff in Hin. destruct Hin as [w [HS Hw]].
        pose proof (pushToFound_none _ _ _ Hp w Hw) as Hout.
        destruct (Hgood w Hw) as [Hend _].
        destruct (new_window_holds_time windowMs (Event.created_at e) Hms) as [Hin' _].
        unfold inWindow in Hout. rewrite Hend, HS in Hout.
        apply andb_false_iff in Hout. destruct Hout as [Hout|Hout];
          apply Z.leb_gt in Hout; lia.
      + destruct (pushToFound_some _ _ _ _ Hp) as [pre [w1 [post [E [_ [Hw1 E']]]]]].
        subst ws ws'. intros w Hin.
        apply in_app_or in Hin. destruct Hin as [Hin|[<-|Hin]].
        * apply Hgood. apply in_or_app. left. exact Hin.
        * destruct (Hgood w1 ltac:(apply in_or_app; right; left; reflexivity))
            as [Hend [Hal Hev]].
          unfold good. simpl. repeat split; try assumption;
            apply in_app_or in H; destruct H as [H|[<-|[]]];
            try (apply Hev; exact H);
            unfold inWindow in Hw1; apply andb_true_iff in Hw1;
            destruct Hw1 as [Ha Hb]; apply Z.leb_le in Ha, Hb; assumption.
        * apply Hgood. apply in_or_app. right. right. exact Hin.
      + intros w Hin. apply in_app_or in Hin. destruct Hin as [Hin|[<-|[]]].
        * apply Hgood. exact Hin.
        * destruct (new_window_holds_time windowMs (Event.created_at e) Hms) as [Hin' Hal].
          unfold good. simpl. repeat split; try assumption; try reflexivity;
            destruct H as [<-|[]]; lia. }
  destruct (H events [] (NoDup_nil _) (fun w (Hin : In w []) => False_ind _ Hin))
    as [Hnd Hgood].
  split; [exact Hnd|]. split.
  - intros w Hin. destruct (Hgood w Hin) as [Hend [Hal Hev]].
    repeat split; try assumption; try (apply Hev; assumption).
    intros e1 e2 H1 H2. pose proof (Hev e1 H1). pose proof (Hev e2 H2). lia.
  - intros e w Hin Hat. destruct (Hgood w Hin) as [Hend [Hal _]].
    split.
    { rewrite Hat, Hend, <- Zplus_mod_idemp_l, Hal, Z.add_0_l. apply Z_mod_same_full. }
    rewrite fold_left_app. cbn [fold_left].
    set (ws := fold_left step events []) in *. unfold step. cbv beta zeta.
    destruct (pushToFound (Event.created_at e) e ws) as [ws'|] eqn:Hp.
    + destruct (pushToFound_some _ _ _ _ Hp) as [pre [w1 [post [E [Hpre [Hw1 E']]]]]].
      split.
      * rewrite E, E', !map_app. reflexivity.
      * eexists. split; [rewrite E'; apply in_or_app; right; left; reflexivity|].
        cbn [Window.events Window.startTime].
        split; [apply in_or_app; right; left; reflexivity|].
        rewrite E, map_app. apply in_or_app. right. left. reflexivity.
    + pose proof (pushToFound_none _ _ _ Hp w Hin) as Hout.
      unfold inWindow in Hout. apply andb_false_iff in Hout.
      destruct Hout as [Hout|Hout]; apply Z.leb_gt in Hout; lia.
Qed.

Lemma buckets_are_aligned_and_hold_their_events_witness :
  NoDup (map Window.startTime (groupEventsByTimeWindows (Window.events twoEvents) 5)).
Proof.
  apply (buckets_are_aligned_and_hold_their_events (Window.events twoEvents) 5).
  lia.
Defined.

(** An event five minutes after the first shares its bucket, one a
    millisecond later does not. *)
Lemma bucket_end_is_included :
  map (fun w => (Window.startTime w, Window.endTime w, map Event.id (Window.events w)))
      (groupEventsByTimeWindows [backOff "e1" 600000; backOff "e2" 900000] 5)
  = [(600000, 900000, ["e1"; "e2"])]
  /\ map (fun w => (Window.startTime w, Window.endTime w, map Event.id (Window.events w)))
       (groupEventsByTimeWindows [backOff "e1" 600000; backOff "e2" 900001] 5)
     = [(600000, 900000, ["e1"]); (900000, 1200000, ["e2"])]
  /\ map (fun w => (Window.startTime w, Window.endTime w, map Event.id (Window.events w)))
       (groupEventsByTimeWindows [backOff "e2" 900000; backOff "e1" 600000] 5)
     = [(900000, 1200000, ["e2"]); (600000, 900000, ["e1"])].
Proof. repeat split. Qed.

End WindowFacts.

(** ** Grouping by key *)

Module GroupFacts.
Import JS IntelligentAnalysis Samples.
Open Scope string_scope.
Open Scope list_scope.

Lemma has_get : forall (V : Type) (m : JSMap.t V) key,
  JSMap.has m key = match JSMap.get m key with Some _ => true | None => false end.
Proof.
  intros V [d props] key. unfold JSMap.has, JSMap.get. simpl.
  induction d as [|[k v] d IH]; simpl.
  - reflexivity.
  - destruct (String.eqb k key); [reflexivity | exact IH].
Qed.

Lemma get_set_same : forall (V : Type) (m : JSMap.t V) key v,
  JSMap.get (JSMap.set m key v) key = Some v.
Proof.
  intros V [d props] key v. unfold JSMap.get, JSMap.set. simpl.
  induction d as [|[k w] d IH]; simpl.
  - rewrite String.eqb_refl. reflexivity.
  - destruct (String.eqb k key) eqn:E; simpl; rewrite E; [reflexivity | exact IH].
Qed.

Lemma get_set_other : forall (V : Type) (m : JSMap.t V) key v k,
  key <> k -> JSMap.get (JSMap.set m key v) k = JSMap.get m k.
Proof.
  intros V [d props] key v k Hne. unfold JSMap.get, JSMap.set. simpl.
  induction d as [|[k0 w] d IH]; simpl.
  - destruct (String.eqb_spec key k); [contradiction | reflexivity].
  - destruct (String.eqb k0 key) eqn:E; simpl.
    + apply String.eqb_eq in E. subst k0.
      destruct (String.eqb_spec key k); [contradiction | reflexivity].
    + destruct (String.eqb k0 k); [reflexivity | exact IH].
Qed.

Lemma keys_set : forall (V : Type) (d : list (string * V)) key v,
  NoDup (map fst d) -> NoDup (map fst (JSMap.setData d key v)).
Proof.
  intros V d key v. induction d as [|[k w] d IH]; simpl; intros Hnd.
  - repeat constructor. intros [].
  - inversion Hnd as [|? ? Hnotin Hnd']; subst.
    destruct (String.eqb k key) eqn:E; simpl.
    + constructor; assumption.
    + constructor; [|apply IH; exact Hnd'].
      intros Hin. apply Hnotin.
      clear -Hin E. induction d as [|[k1 w1] d IHd]; simpl in *.
      * destruct Hin as [Hk|[]]. subst k. rewrite String.eqb_refl in E. discriminate.
      * destruct (String.eqb k1 key); simpl in Hin.
        -- exact Hin.
        -- destruct Hin as [Hk|Hin]; [left; exact Hk | right; apply IHd; exact Hin].
Qed.

Section GroupBy.

Variable T : Type.
Variable keyFunc : T -> string.

(** The body of the loop of [groupBy]. *)
Local Abbreviation step :=
  (fun (groups : JSMap.t (list T)) (item : T) =>
     let key := keyFunc item in
     let groups := if JSMap.has groups key then groups else JSMap.set groups key [] in
     match JSMap.get groups key with
     | Some items => JSMap.set groups key (items ++ [item])
     | None => groups
     end).

Lemma step_get : forall groups item k,
  JSMap.get (step groups item) k
  = if String.eqb (keyFunc item) k
    then Some (match JSMap.get groups k with Some g => g ++ [item] | None => [item] end)
    else JSMap.get groups k.
Proof.
  intros groups item k. cbv beta zeta.
  rewrite has_get.
  destruct (String.eqb_spec (keyFunc item) k) as [E|Hne].
  - subst k. destruct (JSMap.get groups (keyFunc item)) as [g|] eqn:Hg.
    + rewrite Hg. apply get_set_same.
    + rewrite get_set_same. apply get_set_same.
  - destruct (JSMap.get groups (keyFunc item)) as [g|] eqn:Hg.
    + rewrite Hg. apply get_set_other. exact Hne.
    + rewrite get_set_same. rewrite !get_set_other by exact Hne. reflexivity.
Qed.

Lemma step_keys : forall groups item,
  NoDup (map fst (JSMap.data groups)) -> NoDup (map fst (JSMap.data (step groups item))).
Proof.
  intros groups item Hnd. cbv beta zeta.
  destruct (JSMap.has groups (keyFunc item)).
  - destruct (JSMap.get groups (keyFunc item)); [apply keys_set|]; exact Hnd.
  - rewrite get_set_same. simpl. apply keys_set. apply keys_set. exact Hnd.
Qed.

Lemma fold_get : forall items groups k,
  JSMap.get (fold_left step items groups) k
  = match JSMap.get groups k, filter (fun x => String.eqb (keyFunc x) k) items with
    | None, [] => None
    | None, x :: rest => Some (x :: rest)
    | Some g, found => Some (g ++ found)
    end.
Proof.
  induction items as [|item items IH]; intros groups k; simpl.
  - destruct (JSMap.get groups k) as [g|]; [rewrite app_nil_r|]; reflexivity.
  - rewrite IH, step_get.
    destruct (String.eqb (keyFunc item) k).
    + destruct (JSMap.get groups k) as [g|].
      * rewrite <- app_assoc. reflexivity.
      * reflexivity.
    + reflexivity.
Qed.

(** X6: in the map [groupBy] returns, a key that some item has maps to the
    items with that key, in their order in the array; any other key maps to
    nothing; and no key occurs twice. *)
Theorem groupBy_get : forall array k,
  JSMap.get (groupBy array keyFunc) k
  = match filter (fun x => String.eqb (keyFunc x) k) array with
    | [] => None
    | x :: rest => Some (x :: rest)
    end
  /\ NoDup (map fst (JSMap.data (groupBy array keyFunc))).
Proof.
  intros array k. unfold groupBy. split.
  - rewrite fold_get. reflexivity.
  - assert (H : forall items groups,
               NoDup (map fst (JSMap.data groups)) ->
               NoDup (map fst (JSMap.data (fold_left step items groups)))).
    { induction items as [|item items IH]; intros groups Hnd; simpl.
      - exact Hnd.
      - apply IH. apply step_keys. exact Hnd. }
    apply H. simpl. constructor.
Qed.

End GroupBy.

End GroupFacts.

(** ** Pod keys and restart intervals *)

Module PodFacts.
Import JS IntelligentAnalysis Samples.
Open Scope string_scope.
Open Scope list_scope.

Lemma underscore_splits_once : forall a c b d,
  (forall x, In x (list_ascii_of_string a) -> x <> "_"%char) ->
  (forall x, In x (list_ascii_of_string c) -> x <> "_"%char) ->
  (a ++ "_" ++ b)%string = (c ++ "_" ++ d)%string ->
  a = c /\ b = d.
Proof.
  induction a as [|x a IH]; intros c b d Ha Hc E; destruct c as [|y c]; simpl in *.
  - injection E as Hb. subst d. split; reflexivity.
  - injection E as Hy _. exfalso. apply (Hc y); [left; reflexivity | symmetry; exact Hy].
  - injection E as Hx _. exfalso. apply (Ha x); [left; reflexivity | exact Hx].
  - injection E as Hx Hrest. subst y.
    destruct (IH c b d) as [E1 E2].
    + intros z Hz. apply Ha. right. exact Hz.
    + intros z Hz. apply Hc. right. exact Hz.
    + exact Hrest.
    + subst. split; reflexivity.
Qed.

(** X7: for pod names without an underscore (Kubernetes names have none),
    the grouping key of the trend analysis tells pods apart: rows with the
    same key have the same pod name and the same namespace. *)
Theorem podKey_identifies_pod : forall p q,
  (forall x, In x (list_ascii_of_string (PodHealth.pod_name p)) -> x <> "_"%char) ->
  (forall x, In x (list_ascii_of_string (PodHealth.pod_name q)) -> x <> "_"%char) ->
  podKey p = podKey q ->
  PodHealth.pod_name p = PodHealth.pod_name q
  /\ PodHealth.namespace p = PodHealth.namespace q.
Proof.
  intros p q Hp Hq E. unfold podKey in E.
  apply (underscore_splits_once _ _ _ _ Hp Hq E).
Qed.

Lemma podKey_identifies_pod_witness :
  PodHealth.pod_name (webAt 0 1) = PodHealth.pod_name (webAt 120000 5)
  /\ PodHealth.namespace (webAt 0 1) = PodHealth.namespace (webAt 120000 5).
Proof.
  apply (podKey_identifies_pod (webAt 0 1) (webAt 120000 5)).
  - intros x Hx. simpl in Hx. intuition (subst; discriminate).
  - intros x Hx. simpl in Hx. intuition (subst; discriminate).
  - reflexivity.
Defined.

Lemma intervals_length : forall p rest,
  List.length (intervals (p :: rest)) = List.length rest.
Proof.
  intros p rest. revert p. induction rest as [|q rest IH]; intros p.
  - reflexivity.
  - transitivity (S (List.length (intervals (q :: rest)))); [reflexivity|].
    rewrite IH. reflexivity.
Qed.

Lemma last_nonempty : forall (rest : list PodHealth.t) r a b,
  last (r :: rest) a = last (r :: rest) b.
Proof.
  induction rest as [|r' rest IH]; intros r a b; [reflexivity|].
  change (last (r' :: rest) a = last (r' :: rest) b). apply IH.
Qed.

Lemma intervals_sum : forall rest p acc,
  fold_left Z.add (intervals (p :: rest)) acc
  = (acc + (PodHealth.updated_at (last rest p) - PodHealth.updated_at p))%Z.
Proof.
  induction rest as [|q rest IH]; intros p acc.
  - simpl. lia.
  - transitivity (fold_left Z.add (intervals (q :: rest))
                              (acc + (PodHealth.updated_at q - PodHealth.updated_at p))%Z);
      [reflexivity|].
    rewrite IH.
    replace (last (q :: rest) p) with (last rest q).
    + lia.
    + destruct rest as [|r rest]; [reflexivity|].
      change (last (q :: r :: rest) p) with (last (r :: rest) p).
      apply last_nonempty.
Qed.

(** X8: the average restart interval of fewer than two samples is
    ['0 seconds']; of two or more it depends on the first and the last sample
    only: it is the time between them divided by the number of steps, in
    minutes, rounded to the nearest whole minute with a half rounded up. *)
Theorem average_interval_spans_first_to_last :
  calculateAverageRestartInterval [] = Seconds 0
  /\ (forall p, calculateAverageRestartInterval [p] = Seconds 0)
  /\ forall p q rest,
       let span := (PodHealth.updated_at (last (q :: rest) p) - PodHealth.updated_at p)%Z in
       let d := (Z.of_nat (List.length (q :: rest)) * 60000)%Z in
       calculateAverageRestartInterval (p :: q :: rest) = Minutes ((2 * span + d) / (2 * d))%Z.
Proof.
  split; [reflexivity|]. split; [reflexivity|].
  intros p q rest span d. unfold calculateAverageRestartInterval.
  change (List.length (p :: q :: rest) <? 2)%nat with false. cbv iota.
  rewrite intervals_length, intervals_sum. reflexivity.
Qed.

End PodFacts.

(** ** Accounting of the correlation pass *)

Module CorrelationPassFacts.
Import JS IntelligentAnalysis Samples.
Open Scope string_scope.
Open Scope list_scope.

Section Pass.

Variable correlationModel : nat -> list Event.t -> Reply (option CorrelationJson.t).
Variable correlationSuffix : nat -> string.
Variable cluster : Cluster.t.

Local Abbreviation step := (correlateWindow correlationModel correlationSuffix cluster).
Local Abbreviation asked :=
  (fun w : Window.t => negb (List.length (Window.events w) <? 2)%nat).

Lemma step_calls : forall st w,
  correlationCalls (step st w)
  = correlationCalls st ++ (if asked w then [Window.events w] else []).
Proof.
  intros st w. unfold correlateWindow. cbv beta.
  destruct (List.length (Window.events w) <? 2)%nat; simpl.
  - rewrite app_nil_r. reflexivity.
  - destruct (gt _ _); reflexivity.
Qed.

Lemma step_rows : forall st w,
  correlationsCreated st = List.length (correlations st) ->
  List.length (correlations st) <= List.length (correlationCalls st) ->
  (forall r, In r (correlations st) ->
     EventCorrelation.cluster_id r = Cluster.id cluster
     /\ exists events, In events (correlationCalls st)
          /\ EventCorrelation.primary_event_id r :: EventCorrelation.related_event_ids r
             = map Event.id events) ->
  correlationsCreated (step st w) = List.length (correlations (step st w))
  /\ List.length (correlations (step st w)) <= List.length (correlationCalls (step st w))
  /\ (forall r, In r (correlations (step st w)) ->
        EventCorrelation.cluster_id r = Cluster.id cluster
        /\ exists events, In events (correlationCalls (step st w))
             /\ EventCorrelation.primary_event_id r :: EventCorrelation.related_event_ids r
                = map Event.id events).
Proof.
  intros st w Hcount Hle Hrows. unfold correlateWindow.
  destruct (Nat.ltb_spec (List.length (Window.events w)) 2) as [_|Hlen].
  - split; [exact Hcount|]. split; [exact Hle | exact Hrows].
  - destruct (gt _ _); simpl.
    + rewrite !length_app. simpl. split; [lia|]. split; [lia|].
      intros r Hin. apply in_app_or in Hin. destruct Hin as [Hin|[<-|[]]].
      * destruct (Hrows r Hin) as [Hc [events [Hev E]]].
        split; [exact Hc|].
        exists events. split; [apply in_or_app; left; exact Hev | exact E].
      * split; [reflexivity|].
        exists (Window.events w). split; [apply in_or_app; right; left; reflexivity|].
        simpl. destruct (Window.events w) as [|e0 rest]; [simpl in Hlen; lia|].
        reflexivity.
    + rewrite length_app. simpl. split; [exact Hcount|]. split; [lia|].
      intros r Hin. destruct (Hrows r Hin) as [Hc [events [Hev E]]].
      split; [exact Hc|].
      exists events. split; [apply in_or_app; left; exact Hev | exact E].
Qed.

(** X9: a correlation pass asks the model once for each bucket of two or
    more events, in the order of the buckets, and for no other; its counter is
    the number of rows it hands over, which is at most the number of calls;
    and each row carries the cluster's id and names, as primary and related
    events, the events of one of those buckets in their order. *)
Theorem correlation_pass_accounting : forall e evs,
  let windows := groupEventsByTimeWindows (e :: evs) 5 in
  let result := performEventCorrelation correlationModel correlationSuffix cluster
                  (Some (e :: evs)) in
  correlationCalls (fst result) = map Window.events (filter asked windows)
  /\ snd result = Created (List.length (correlations (fst result)))
  /\ List.length (correlations (fst result)) <= List.length (correlationCalls (fst result))
  /\ forall r, In r (correlations (fst result)) ->
       EventCorrelation.cluster_id r = Cluster.id cluster
       /\ exists events, In events (correlationCalls (fst result))
            /\ EventCorrelation.primary_event_id r :: EventCorrelation.related_event_ids r
               = map Event.id events.
Proof.
  intros e evs windows result.
  assert (H : forall ws st,
             correlationsCreated st = List.length (correlations st) ->
             List.length (correlations st) <= List.length (correlationCalls st) ->
             (forall r, In r (correlations st) ->
                EventCorrelation.cluster_id r = Cluster.id cluster
                /\ exists events, In events (correlationCalls st)
                     /\ EventCorrelation.primary_event_id r
                        :: EventCorrelation.related_event_ids r = map Event.id events) ->
             let st' := fold_left step ws st in
             correlationCalls st' = correlationCalls st ++ map Window.events (filter asked ws)
             /\ correlationsCreated st' = List.length (correlations st')
             /\ List.length (correlations st') <= List.length (correlationCalls st')
             /\ (forall r, In r (correlations st') ->
                   EventCorrelation.cluster_id r = Cluster.id cluster
                   /\ exists events, In events (correlationCalls st')
                        /\ EventCorrelation.primary_event_id r
                           :: EventCorrelation.related_event_ids r = map Event.id events)).
  { induction ws as [|w ws IH]; intros st Hc Hle Hrows; simpl.
    - rewrite app_nil_r. split; [reflexivity|]. split; [exact Hc|].
      split; [exact Hle | exact Hrows].
    - destruct (step_rows st w Hc Hle Hrows) as [Hc' [Hle' Hrows']].
      destruct (IH (step st w) Hc' Hle' Hrows') as [Hcalls Hrest].
      split; [|exact Hrest].
      rewrite Hcalls, step_calls, <- app_assoc.
      destruct (asked w); reflexivity. }
  destruct (H windows correlationStart eq_refl (Nat.le_refl _)
              (fun r (Hin : In r []) => False_ind _ Hin))
    as [Hcalls [Hcount [Hle Hrows]]].
  subst result. unfold performEventCorrelation. fold windows. simpl fst. simpl snd.
  split; [exact Hcalls|]. split; [rewrite Hcount; reflexivity|].
  split; [exact Hle | exact Hrows].
Qed.

End Pass.

End CorrelationPassFacts.

(** ** Accounting and idempotence of the suggestion pass *)

Module SuggestionPassFacts.
Import JS IntelligentAnalysis Samples.
Open Scope string_scope.
Open Scope list_scope.

Lemma existing_app : forall a xs ys,
  existingSuggestions a (xs ++ ys) = existingSuggestions a xs ++ existingSuggestions a ys.
Proof. intros. unfold existingSuggestions. apply filter_app. Qed.

Lemma existing_grows : forall a xs ys,
  existingSuggestions a xs <> [] -> existingSuggestions a (xs ++ ys) <> [].
Proof.
  intros a xs ys H E. rewrite existing_app in E.
  apply app_eq_nil in E. apply H. exact (proj1 E).
Qed.

Section Pass.

Variable suggestionModel : nat -> SmartAlert.t -> Cluster.t -> Reply SuggestionsJson.
Variable suggestionLookup : nat -> bool.
Variable cluster : Cluster.t.

Local Abbreviation step := (suggestFor suggestionModel suggestionLookup cluster).
Local Abbreviation loop := (suggestForAll suggestionModel suggestionLookup cluster).

(** An iteration skips the alert, or asks the model and adds its items. *)
Lemma step_cases : forall k st alert,
  (step k st alert = Some st
   /\ suggestionLookup k = true
   /\ existingSuggestions alert (suggestions st) <> [])
  \/ ((suggestionLookup k = false \/ existingSuggestions alert (suggestions st) = [])
      /\ step k st alert
         = match generateSuggestionsWithAI suggestionModel
                   (List.length (suggestionCalls st)) alert cluster with
           | NotIterable => None
           | Items items =>
               Some {| suggestions := suggestions st ++ map (suggestionRow alert) items;
                       suggestionCalls := suggestionCalls st ++ [alert];
                       suggestionsCreated := suggestionsCreated st + List.length items |}
           end).
Proof.
  intros k st alert. unfold suggestFor, lookupSuggestions.
  destruct (suggestionLookup k).
  - destruct (existingSuggestions alert (suggestions st)) as [|s0 ss].
    + right. split; [right; reflexivity | reflexivity].
    + left. split; [reflexivity|]. split; [reflexivity | discriminate].
  - right. split; [left; reflexivity | reflexivity].
Qed.

Lemma loop_accounting : forall alerts k st,
  exists added,
    suggestions (fst (loop alerts k st)) = suggestions st ++ added
    /\ suggestionsCreated (fst (loop alerts k st)) = suggestionsCreated st + List.length added
    /\ forall n, snd (loop alerts k st) = Created n ->
         n = suggestionsCreated st + List.length added.
Proof.
  induction alerts as [|alert alerts IH]; intros k st; cbn [suggestForAll].
  - exists []. simpl. rewrite app_nil_r, Nat.add_0_r. repeat split.
    intros n E. inversion E. reflexivity.
  - destruct (step_cases k st alert) as [[E _]|[_ E]]; rewrite E; [apply IH|].
    destruct (generateSuggestionsWithAI suggestionModel
                (List.length (suggestionCalls st)) alert cluster) as [|items].
    + exists []. simpl. rewrite app_nil_r, Nat.add_0_r. repeat split.
      intros n E'. discriminate.
    + match goal with
      | |- context [loop alerts (S k) ?s] => destruct (IH (S k) s) as [added [Hs [Hc Hn]]]
      end.
      simpl in Hs, Hc, Hn.
      exists (map (suggestionRow alert) items ++ added).
      rewrite Hs, Hc, length_app, length_map, <- app_assoc. repeat split; try lia.
      intros n E'. rewrite (Hn n E'). lia.
Qed.

(** X10: a suggestion pass only adds rows to the table, after the rows it
    found, and never changes or removes one; its counter is the number of rows
    added; a pass that ends in an error keeps the rows it added before.  This
    is so whichever lookups of the pass are answered. *)
Theorem suggestion_pass_only_appends : forall smart_alerts table,
  let result := generateIntelligentSuggestions suggestionModel suggestionLookup cluster
                  smart_alerts table in
  exists added,
    suggestions (fst result) = table ++ added
    /\ suggestionsCreated (fst result) = List.length added
    /\ (forall n, snd result = Created n -> n = List.length added)
    /\ (snd result = NothingToDo -> added = []).
Proof.
  intros smart_alerts table result. subst result.
  unfold generateIntelligentSuggestions.
  destruct (unresolvedAlerts cluster smart_alerts) as [|a0 rest].
  - exists []. simpl. rewrite app_nil_r. repeat split. intros n E. discriminate.
  - destruct (loop_accounting (a0 :: rest) 0
                {| suggestions := table; suggestionCalls := []; suggestionsCreated := 0 |})
      as [added [Hs [Hc Hn]]].
    exists added. simpl in Hs, Hc, Hn. repeat split; try assumption.
    intros E. exfalso. revert E. clear.
    set (start := {| suggestions := table; suggestionCalls := [];
                     suggestionsCreated := 0 |}).
    clearbody start. generalize 0 as k. revert start.
    induction (a0 :: rest) as [|a l IH]; intros st k; simpl.
    + discriminate.
    + destruct (suggestFor suggestionModel suggestionLookup cluster k st a);
        [apply IH | discriminate].
Qed.

(** A pass whose lookups are answered asks nothing and changes nothing when
    each alert it visits has a suggestion already. *)
Lemma loop_covered : forall alerts k st,
  (forall j, suggestionLookup j = true) ->
  (forall a, In a alerts -> existingSuggestions a (suggestions st) <> []) ->
  loop alerts k st = (st, Created (suggestionsCreated st)).
Proof.
  induction alerts as [|alert alerts IH]; intros k st Hanswered Hcov; cbn [suggestForAll].
  - reflexivity.
  - destruct (step_cases k st alert) as [[E _]|[[Hfailed|Hnone] _]].
    + rewrite E. apply IH; [exact Hanswered|].
      intros a Hin. apply Hcov. right. exact Hin.
    + rewrite Hanswered in Hfailed. discriminate.
    + exfalso. apply (Hcov alert); [left; reflexivity | exact Hnone].
Qed.

(** After a loop in which the model answered each call with at least one
    suggestion, each alert visited has a suggestion, whether its lookup was
    answered or not. *)
Lemma loop_covers : forall alerts k st,
  (forall n a, exists item items, suggestionModel n a cluster = Parsed (Items (item :: items))) ->
  (forall a, In a alerts -> existingSuggestions a (suggestions (fst (loop alerts k st))) <> [])
  /\ exists added, suggestions (fst (loop alerts k st)) = suggestions st ++ added.
Proof.
  induction alerts as [|alert alerts IH]; intros k st Hmodel; cbn [suggestForAll].
  - split; [intros a []|]. exists []. simpl. rewrite app_nil_r. reflexivity.
  - destruct (step_cases k st alert) as [[E [_ Hhas]]|[_ E]]; rewrite E.
    + destruct (IH (S k) st Hmodel) as [Hcov [added Hs]]. split.
      * intros a [<-|Hin]; [|apply Hcov; exact Hin].
        rewrite Hs. apply existing_grows. exact Hhas.
      * exists added. exact Hs.
    + unfold generateSuggestionsWithAI.
      destruct (Hmodel (List.length (suggestionCalls st)) alert) as [item [items Hr]].
      rewrite Hr.
      match goal with |- context [loop alerts (S k) ?s] => set (st1 := s) end.
      destruct (IH (S k) st1 Hmodel) as [Hcov [added Hs]]. split.
      * intros a [<-|Hin]; [|apply Hcov; exact Hin].
        rewrite Hs. apply existing_grows. subst st1. cbn [suggestions].
        rewrite existing_app. intros Habs. apply app_eq_nil in Habs.
        destruct Habs as [_ Habs].
        unfold existingSuggestions in Habs. simpl in Habs.
        rewrite String.eqb_refl in Habs. discriminate.
      * exists (map (suggestionRow alert) (item :: items) ++ added).
        rewrite Hs. subst st1. cbn [suggestions]. rewrite <- app_assoc. reflexivity.
Qed.

End Pass.

(** X11: when the model answers each call of a pass with at least one
    suggestion, a second pass over the same alerts whose lookups are all
    answered, whatever the model answers then, asks the model nothing and
    leaves the table as the first pass left it.  The lookups of the first
    pass may be answered or not. *)
Theorem second_suggestion_pass_changes_nothing :
  forall firstModel secondModel firstLookup secondLookup cluster smart_alerts table,
    (forall n a, exists item items, firstModel n a cluster = Parsed (Items (item :: items))) ->
    (forall k, secondLookup k = true) ->
    let first := generateIntelligentSuggestions firstModel firstLookup cluster
                   smart_alerts table in
    let second := generateIntelligentSuggestions secondModel secondLookup cluster smart_alerts
                    (suggestions (fst first)) in
    suggestionCalls (fst second) = []
    /\ suggestions (fst second) = suggestions (fst first)
    /\ suggestionsCreated (fst second) = 0
    /\ snd second <> PassError.
Proof.
  intros firstModel secondModel firstLookup secondLookup cluster smart_alerts table
         Hmodel Hanswered first second.
  subst first second. unfold generateIntelligentSuggestions.
  destruct (unresolvedAlerts cluster smart_alerts) as [|a0 rest].
  - simpl. repeat split. discriminate.
  - destruct (loop_covers firstModel firstLookup cluster (a0 :: rest) 0
                {| suggestions := table; suggestionCalls := []; suggestionsCreated := 0 |}
                Hmodel) as [Hcov _].
    rewrite (loop_covered secondModel secondLookup cluster (a0 :: rest) 0
               {| suggestions :=
                    suggestions (fst (suggestForAll firstModel firstLookup cluster (a0 :: rest) 0
                                        {| suggestions := table; suggestionCalls := [];
                                           suggestionsCreated := 0 |}));
                  suggestionCalls := []; suggestionsCreated := 0 |} Hanswered Hcov).
    simpl. repeat split. discriminate.
Qed.

Lemma second_suggestion_pass_changes_nothing_witness :
  suggestionCalls
    (fst (generateIntelligentSuggestions downSuggestion (fun _ => true) prod
            [oomAlert; crashAlert]
            (suggestions (fst (generateIntelligentSuggestions advising (fun k => Nat.eqb k 1)
                                 prod [oomAlert; crashAlert] [])))))
  = [].
Proof.
  apply (second_suggestion_pass_changes_nothing advising downSuggestion
           (fun k => Nat.eqb k 1) (fun _ => true) prod [oomAlert; crashAlert] []).
  - intros n a. exists oneSuggestion, []. reflexivity.
  - reflexivity.
Defined.

(** A second pass in which the lookup for the first alert is not answered
    asks the model about that alert again and inserts its suggestion a second
    time. *)
Lemma second_pass_with_unanswered_lookup :
  let first := generateIntelligentSuggestions advising (fun _ => true) prod
                 [oomAlert; crashAlert] [] in
  let second := generateIntelligentSuggestions advising (fun k => negb (Nat.eqb k 0)) prod
                  [oomAlert; crashAlert] (suggestions (fst first)) in
  List.length (suggestions (fst first)) = 2
  /\ map SmartAlert.id (suggestionCalls (fst second)) = ["a2"]
  /\ List.length (suggestions (fst second)) = 3.
Proof. cbv zeta. repeat split; vm_compute; reflexivity. Qed.

End SuggestionPassFacts.

(** ** Metric collection *)

Module CollectorFacts.
Import JS Collector Samples.
Open Scope string_scope.
Open Scope list_scope.

Section Collection.

Variable respond : QueryDef -> QueryOutcome.
Variable now : nat -> Z.
Variable cluster : Cluster.t.

Local Abbreviation store := (storeSeries now cluster).
Local Abbreviation named :=
  (fun (n : string) (r : MetricRow.t) => String.eqb (MetricRow.metric_name r) n).

Lemma storeSeries_adds : forall q entries st,
  exists added,
    cluster_metrics (store q entries st) = cluster_metrics st ++ added
    /\ collectedMetrics (store q entries st) = collectedMetrics st + List.length added
    /\ map MetricRow.value added = keptValues entries
    /\ forall r, In r added ->
         PrimFloat.is_nan (MetricRow.value r) = false
         /\ MetricRow.cluster_id r = Cluster.id cluster
         /\ MetricRow.metric_name r = name q
         /\ MetricRow.metric_type r = type q
         /\ MetricRow.unit r = getMetricUnit (name q).
Proof.
  intros q entries. induction entries as [|entry entries IH]; intros st.
  - exists []. simpl. rewrite app_nil_r, Nat.add_0_r. repeat split; contradiction.
  - destruct entry as [|value metric].
    + exists []. simpl. rewrite app_nil_r, Nat.add_0_r. repeat split; contradiction.
    + simpl. destruct (PrimFloat.is_nan value) eqn:Hnan.
      * apply IH.
      * match goal with |- context [store q entries ?s] => destruct (IH s) as [added [Hs [Hc [Hv Hr]]]] end.
        cbn [cluster_metrics collectedMetrics] in Hs, Hc.
        exists (metricRow now cluster q (collectedMetrics st) value metric :: added).
        split; [rewrite Hs, <- app_assoc; reflexivity|].
        split; [rewrite Hc; simpl; lia|].
        split; [simpl; rewrite Hv; reflexivity|].
        intros r [<-|Hin]; [|apply Hr; exact Hin].
        simpl. repeat split. exact Hnan.
Qed.

Lemma collect_adds : forall qs st,
  exists added,
    cluster_metrics (fold_left (collectQuery respond now cluster) qs st)
    = cluster_metrics st ++ added
    /\ collectedMetrics (fold_left (collectQuery respond now cluster) qs st)
       = collectedMetrics st + List.length added
    /\ (forall r, In r added ->
          PrimFloat.is_nan (MetricRow.value r) = false
          /\ MetricRow.cluster_id r = Cluster.id cluster
          /\ exists q, In q qs
               /\ MetricRow.metric_name r = name q
               /\ MetricRow.metric_type r = type q
               /\ MetricRow.unit r = getMetricUnit (name q))
    /\ forall n,
         map MetricRow.value (filter (named n) added)
         = flat_map (fun q => if String.eqb (name q) n then keptOf (respond q) else []) qs.
Proof.
  induction qs as [|q qs IH]; intros st.
  - exists []. simpl. rewrite app_nil_r, Nat.add_0_r. repeat split; contradiction.
  - simpl fold_left.
    assert (Hq : exists added,
               cluster_metrics (collectQuery respond now cluster st q)
               = cluster_metrics st ++ added
               /\ collectedMetrics (collectQuery respond now cluster st q)
                  = collectedMetrics st + List.length added
               /\ map MetricRow.value added = keptOf (respond q)
               /\ forall r, In r added ->
                    PrimFloat.is_nan (MetricRow.value r) = false
                    /\ MetricRow.cluster_id r = Cluster.id cluster
                    /\ MetricRow.metric_name r = name q
                    /\ MetricRow.metric_type r = type q
                    /\ MetricRow.unit r = getMetricUnit (name q)).
    { unfold collectQuery, keptOf.
      destruct (respond q) as [| | |entries];
        try (exists []; simpl; rewrite app_nil_r, Nat.add_0_r; repeat split; contradiction).
      apply storeSeries_adds. }
    destruct Hq as [a1 [Hs1 [Hc1 [Hv1 Hr1]]]].
    destruct (IH (collectQuery respond now cluster st q)) as [a2 [Hs2 [Hc2 [Hr2 Hv2]]]].
    exists (a1 ++ a2).
    split; [rewrite Hs2, Hs1, <- app_assoc; reflexivity|].
    split; [rewrite Hc2, Hc1, length_app; lia|].
    split.
    + intros r Hin. apply in_app_or in Hin. destruct Hin as [Hin|Hin].
      * destruct (Hr1 r Hin) as [Hnan [Hc [Hn [Ht Hu]]]].
        split; [exact Hnan|]. split; [exact Hc|].
        exists q. split; [left; reflexivity|]. split; [exact Hn|]. split; assumption.
      * destruct (Hr2 r Hin) as [Hnan [Hc [q' [Hq' Hrest]]]].
        split; [exact Hnan|]. split; [exact Hc|].
        exists q'. split; [right; exact Hq' | exact Hrest].
    + intros n. rewrite filter_app, map_app, Hv2. simpl. f_equal.
      destruct (String.eqb_spec (name q) n) as [E|Hne].
      * rewrite <- Hv1. f_equal. apply forallb_filter_id.
        apply forallb_forall. intros r Hin.
        destruct (Hr1 r Hin) as [_ [_ [Hn _]]]. cbv beta. rewrite Hn.
        apply String.eqb_eq. exact E.
      * replace (filter (named n) a1) with (@nil MetricRow.t); [reflexivity|].
        symmetry. clear -Hr1 Hne. induction a1 as [|r a1 IHa]; simpl; [reflexivity|].
        destruct (Hr1 r (or_introl eq_refl)) as [_ [_ [Hn _]]]. rewrite Hn.
        destruct (String.eqb_spec (name q) n); [contradiction|].
        apply IHa. intros r' Hin. apply Hr1. right. exact Hin.
Qed.

(** X12: a collection pass only adds rows to the metrics table; its
    counter is the number of rows added; no added row holds NaN; and each
    added row carries the cluster's id and the name, type and unit of one of
    the nine catalog queries, namely one of the nine triples listed. *)
Theorem collected_rows_are_numbers_of_the_catalog : forall target table,
  let st := fst (collectPrometheusMetrics respond now cluster target table) in
  exists added,
    cluster_metrics st = table ++ added
    /\ collectedMetrics st = List.length added
    /\ forall r, In r added ->
         PrimFloat.is_nan (MetricRow.value r) = false
         /\ MetricRow.cluster_id r = Cluster.id cluster
         /\ In (MetricRow.metric_name r, MetricRow.metric_type r, MetricRow.unit r)
               [("node_cpu_usage", "cpu", "percentage");
                ("node_memory_usage", "memory", "percentage");
                ("node_disk_usage", "disk", "percentage");
                ("node_load_average", "cpu", "load");
                ("pod_count_total", "pod_count", "count");
                ("pod_cpu_usage", "cpu", "percentage");
                ("pod_memory_usage", "memory", "percentage");
                ("network_bytes_received", "network", "bytes");
                ("network_bytes_transmitted", "network", "bytes")].
Proof.
  intros target table st. subst st. unfold collectPrometheusMetrics. cbn [fst].
  destruct (collect_adds queries {| cluster_metrics := table; collectedMetrics := 0 |})
    as [added [Hs [Hc [Hr _]]]].
  exists added. split; [exact Hs|]. split; [exact Hc|].
  intros r Hin. destruct (Hr r Hin) as [Hnan [Hcl [q [Hq [Hn [Ht Hu]]]]]].
  split; [exact Hnan|]. split; [exact Hcl|].
  rewrite Hn, Ht, Hu. clear -Hq.
  unfold queries in Hq. simpl in Hq.
  repeat (destruct Hq as [<-|Hq]; [vm_compute; tauto|]).
  contradiction.
Qed.

(** X13: the values stored under the name of a catalog query are the
    numbers of that query's own reply, in order, up to its first entry without
    value, and nothing at all when the query failed; what the other eight
    queries returned plays no part. *)
Theorem a_query_fails_alone : forall target table q,
  In q queries ->
  let st := fst (collectPrometheusMetrics respond now cluster target table) in
  exists added,
    cluster_metrics st = table ++ added
    /\ map MetricRow.value (filter (named (name q)) added) = keptOf (respond q).
Proof.
  intros target table q Hq st. subst st. unfold collectPrometheusMetrics. cbn [fst].
  destruct (collect_adds queries {| cluster_metrics := table; collectedMetrics := 0 |})
    as [added [Hs [_ [_ Hv]]]].
  exists added. split; [exact Hs|].
  rewrite Hv. clear -Hq. unfold queries in *. simpl in Hq.
  repeat (destruct Hq as [<-|Hq]; [simpl; rewrite ?app_nil_r; reflexivity|]).
  contradiction.
Qed.

End Collection.

Lemma a_query_fails_alone_witness :
  exists added,
    cluster_metrics (fst (collectPrometheusMetrics MoreSamples.source clock prod
                            MoreSamples.scrapeTarget [])) = [] ++ added
    /\ map MetricRow.value
         (filter (fun r => String.eqb (MetricRow.metric_name r) "pod_memory_usage") added)
       = keptOf (MoreSamples.source MoreSamples.podMemoryQuery).
Proof.
  apply (a_query_fails_alone MoreSamples.source clock prod MoreSamples.scrapeTarget []
           MoreSamples.podMemoryQuery).
  unfold queries. simpl. tauto.
Defined.

(** The pass on the sample source: the number of the node CPU reply, whose
    text that is no number is passed over and whose entry without value ends
    the reading, and the number of the pod memory reply. *)
Lemma collection_example :
  map MetricRow.value
      (cluster_metrics (fst (collectPrometheusMetrics MoreSamples.source clock prod
                               MoreSamples.scrapeTarget [])))
  = [91.5%float; 52428800%float].
Proof. vm_compute. reflexivity. Qed.

End CollectorFacts.

(** ** The threshold pass as a whole *)

Module ThresholdPassFacts.
Import JS PrometheusMonitor Samples.
Open Scope string_scope.
Open Scope list_scope.

Section Formatting.

Variable toFixed1 : number -> string.
Variable numberToString : number -> string.
Variable alertLookup : nat -> bool.
Variable cluster : Cluster.t.

Local Abbreviation step := (checkMetric toFixed1 numberToString alertLookup cluster).
Local Abbreviation pass := (checkMetricThresholds toFixed1 numberToString alertLookup cluster).
Local Abbreviation openFor :=
  (fun (metric : Metric.t) (n : string) (table : list Alert.t) =>
     openAlerts (Cluster.id cluster) (alertType metric) (Some n) table).

(** What justifies an alert: a sample of a type with thresholds whose value
    reaches the threshold the alert names, critical first. *)
Local Abbreviation raisedBy :=
  (fun (a : Alert.t) (m : Metric.t) =>
     Alert.alert_type a = alertType m
     /\ Alert.current_value a = Metric.value m
     /\ Alert.node_name a = Metric.node_name m
     /\ exists threshold,
          thresholds (Metric.metric_type m) = Some threshold
          /\ ((Alert.severity a = "critical"
               /\ Alert.threshold_value a = critical threshold
               /\ ge (Metric.value m) (critical threshold) = true)
              \/ (Alert.severity a = "warning"
                  /\ Alert.threshold_value a = warning threshold
                  /\ ge (Metric.value m) (critical threshold) = false
                  /\ ge (Metric.value m) (warning threshold) = true))).

Lemma step_adds : forall k st m,
  exists added,
    fst (step k st m) = fst st ++ added
    /\ snd (step k st m) = snd st + List.length added
    /\ forall a, In a added ->
         Alert.resolved a = false /\ Alert.acknowledged a = false
         /\ Alert.cluster_id a = Cluster.id cluster
         /\ Alert.user_id a = Cluster.user_id cluster
         /\ raisedBy a m.
Proof.
  intros k st m. unfold checkMetric.
  destruct (thresholds (Metric.metric_type m)) as [threshold|] eqn:Hthr;
    [|exists []; rewrite app_nil_r, Nat.add_0_r; repeat split; contradiction].
  unfold severityOf.
  destruct (ge (Metric.value m) (critical threshold)) eqn:Hc.
  - destruct (existingAlert (alertLookup k) cluster m (fst st));
      [exists []; rewrite app_nil_r, Nat.add_0_r; repeat split; contradiction|].
    eexists. split; [reflexivity|]. split; [simpl; lia|].
    intros a [<-|[]]. simpl. repeat split.
    exists threshold. split; [reflexivity|]. left. repeat split. exact Hc.
  - destruct (ge (Metric.value m) (warning threshold)) eqn:Hw;
      [|exists []; rewrite app_nil_r, Nat.add_0_r; repeat split; contradiction].
    destruct (existingAlert (alertLookup k) cluster m (fst st));
      [exists []; rewrite app_nil_r, Nat.add_0_r; repeat split; contradiction|].
    eexists. split; [reflexivity|]. split; [simpl; lia|].
    intros a [<-|[]]. simpl. repeat split.
    exists threshold. split; [reflexivity|]. right. repeat split; assumption.
Qed.

(** X14: whichever of its lookups are answered, a threshold pass only adds
    alerts, after the rows it found, and
    never changes one (the value of an open alert is not refreshed); its
    counter is the number of alerts added; and each added alert is unresolved,
    unacknowledged, belongs to the cluster and its user, and is raised by one
    of the samples: of a type with thresholds, with the sample's value and
    node, critical when the value reaches the critical threshold and warning
    when it reaches only the warning one. *)
Theorem threshold_pass_only_appends : forall metrics alerts,
  exists added,
    fst (checkMetricThresholds toFixed1 numberToString alertLookup cluster metrics alerts)
      = alerts ++ added
    /\ snd (checkMetricThresholds toFixed1 numberToString alertLookup cluster metrics alerts)
       = List.length added
    /\ forall a, In a added ->
         Alert.resolved a = false /\ Alert.acknowledged a = false
         /\ Alert.cluster_id a = Cluster.id cluster
         /\ Alert.user_id a = Cluster.user_id cluster
         /\ exists m, In m (match metrics with Some ms => ms | None => [] end)
                      /\ raisedBy a m.
Proof.
  intros metrics alerts.
  assert (H : forall ms k st,
             exists added,
               fst (forEachFrom step k ms st) = fst st ++ added
               /\ snd (forEachFrom step k ms st) = snd st + List.length added
               /\ forall a, In a added ->
                    Alert.resolved a = false /\ Alert.acknowledged a = false
                    /\ Alert.cluster_id a = Cluster.id cluster
                    /\ Alert.user_id a = Cluster.user_id cluster
                    /\ exists m, In m ms /\ raisedBy a m).
  { induction ms as [|m ms IH]; intros k st; simpl.
    - exists []. rewrite app_nil_r, Nat.add_0_r. repeat split; contradiction.
    - destruct (step_adds k st m) as [a1 [Hs1 [Hc1 Hr1]]].
      destruct (IH (S k) (step k st m)) as [a2 [Hs2 [Hc2 Hr2]]].
      exists (a1 ++ a2).
      split; [rewrite Hs2, Hs1, <- app_assoc; reflexivity|].
      split; [rewrite Hc2, Hc1, length_app; lia|].
      intros a Hin. apply in_app_or in Hin. destruct Hin as [Hin|Hin].
      + destruct (Hr1 a Hin) as [H1 [H2 [H3 [H4 H5]]]].
        repeat (split; [assumption|]). exists m. split; [left; reflexivity | exact H5].
      + destruct (Hr2 a Hin) as [H1 [H2 [H3 [H4 [m' [Hm' H5]]]]]].
        repeat (split; [assumption|]). exists m'. split; [right; exact Hm' | exact H5]. }
  unfold checkMetricThresholds.
  destruct metrics as [[|m ms]|];
    try (exists []; simpl; rewrite app_nil_r; repeat split; contradiction).
  destruct (H (m :: ms) 0 (alerts, 0)) as [added [Hs [Hc Hr]]].
  exists added. split; [exact Hs|]. split; [exact Hc|]. exact Hr.
Qed.

(** *** A second pass over samples that name their node *)

Lemma step_grows_open : forall k st m cid aty node,
  List.length (openAlerts cid aty node (fst st))
  <= List.length (openAlerts cid aty node (fst (step k st m))).
Proof.
  intros k st m cid aty node. destruct (step_adds k st m) as [added [Hs _]].
  rewrite Hs. unfold openAlerts. rewrite filter_app, length_app. lia.
Qed.

Lemma step_covers_sample : forall k st m n threshold sv,
  alertLookup k = true ->
  Metric.node_name m = Some n ->
  thresholds (Metric.metric_type m) = Some threshold ->
  severityOf threshold (Metric.value m) = Some sv ->
  List.length (openFor m n (fst st)) <= 1 ->
  List.length (openFor m n (fst (step k st m))) = 1.
Proof.
  intros k st m n threshold [severity thresholdValue] Hanswered Hn Hthr Hsev Hle.
  unfold checkMetric. rewrite Hthr, Hsev, Hanswered. unfold existingAlert.
  rewrite (ThresholdFacts.lookup_selects_triple cluster m n (fst st) Hn).
  destruct (openAlerts (Cluster.id cluster) (alertType m) (Some n) (fst st))
    as [|a [|a' rest]] eqn:Hopen; simpl in Hle; try lia.
  - simpl fst. unfold openAlerts in *. rewrite filter_app, Hopen. simpl.
    rewrite !String.eqb_refl, Hn. simpl. rewrite String.eqb_refl. reflexivity.
  - simpl. rewrite Hopen. reflexivity.
Qed.

Lemma step_skips_covered : forall k st m n,
  alertLookup k = true ->
  Metric.node_name m = Some n ->
  List.length (openFor m n (fst st)) = 1 ->
  step k st m = st.
Proof.
  intros k st m n Hanswered Hn Hone. unfold checkMetric. rewrite Hanswered.
  destruct (thresholds (Metric.metric_type m)) as [threshold|]; [|reflexivity].
  destruct (severityOf threshold (Metric.value m)) as [[severity thresholdValue]|];
    [|reflexivity].
  unfold existingAlert.
  rewrite (ThresholdFacts.lookup_selects_triple cluster m n (fst st) Hn).
  destruct (openAlerts (Cluster.id cluster) (alertType m) (Some n) (fst st))
    as [|a [|a' rest]]; simpl in Hone; try discriminate.
  reflexivity.
Qed.

(** X15: when every lookup is answered, every sample names its node and no
    triple with a node name has more than one open alert, running the pass a
    second time on the same samples creates no alert and leaves the table as
    the first pass left it. *)
Theorem second_threshold_pass_creates_nothing : forall ms alerts,
  (forall k, alertLookup k = true) ->
  (forall m, In m ms -> exists n, Metric.node_name m = Some n) ->
  (forall cid aty n, List.length (openAlerts cid aty (Some n) alerts) <= 1) ->
  checkMetricThresholds toFixed1 numberToString alertLookup cluster (Some ms)
    (fst (checkMetricThresholds toFixed1 numberToString alertLookup cluster (Some ms) alerts))
  = (fst (checkMetricThresholds toFixed1 numberToString alertLookup cluster (Some ms) alerts),
     0).
Proof.
  intros ms alerts Hanswered Hnamed Hinv.
  assert (Hfirst : forall l k st,
             (forall m, In m l -> exists n, Metric.node_name m = Some n) ->
             (forall cid aty n,
                 List.length (openAlerts cid aty (Some n) (fst st)) <= 1) ->
             (forall cid aty n,
                 List.length (openAlerts cid aty (Some n) (fst (forEachFrom step k l st))) <= 1)
             /\ (forall cid aty n,
                    List.length (openAlerts cid aty (Some n) (fst st)) = 1 ->
                    List.length (openAlerts cid aty (Some n) (fst (forEachFrom step k l st)))
                    = 1)
             /\ forall m n threshold sv,
                  In m l -> Metric.node_name m = Some n ->
                  thresholds (Metric.metric_type m) = Some threshold ->
                  severityOf threshold (Metric.value m) = Some sv ->
                  List.length (openFor m n (fst (forEachFrom step k l st))) = 1).
  { induction l as [|m l IH]; intros k st Hn Hle; simpl.
    - split; [exact Hle|]. split; [auto|]. intros m n threshold sv [].
    - assert (Hle' : forall cid aty n,
                 List.length (openAlerts cid aty (Some n) (fst (step k st m))) <= 1).
      { intros cid aty n.
        apply (ThresholdFacts.checkMetric_named_triple toFixed1 numberToString alertLookup);
          [apply Hanswered | apply Hle]. }
      destruct (IH (S k) (step k st m) (fun m' Hm' => Hn m' (or_intror Hm')) Hle')
        as [Hle2 [Hkeep Hcov]].
      split; [exact Hle2|]. split.
      + intros cid aty n Hone. apply Hkeep.
        pose proof (step_grows_open k st m cid aty (Some n)) as Hge.
        pose proof (Hle' cid aty n). lia.
      + intros m' n threshold sv [<-|Hin] Hnode Hthr Hsev.
        * apply Hkeep.
          apply (step_covers_sample k st m n threshold sv (Hanswered k) Hnode Hthr Hsev).
          apply Hle.
        * apply (Hcov m' n threshold sv Hin Hnode Hthr Hsev). }
  assert (Hsecond : forall l k st,
             (forall m, In m l ->
                exists n, Metric.node_name m = Some n
                  /\ forall threshold sv,
                       thresholds (Metric.metric_type m) = Some threshold ->
                       severityOf threshold (Metric.value m) = Some sv ->
                       List.length (openFor m n (fst st)) = 1) ->
             forEachFrom step k l st = st).
  { induction l as [|m l IH]; intros k st Hcov; simpl.
    - reflexivity.
    - assert (Hm : step k st m = st).
      { destruct (Hcov m (or_introl eq_refl)) as [n [Hn Hone]].
        destruct (thresholds (Metric.metric_type m)) as [threshold|] eqn:Hthr.
        - destruct (severityOf threshold (Metric.value m)) as [sv|] eqn:Hsev.
          + apply (step_skips_covered k st m n (Hanswered k) Hn).
            apply (Hone threshold sv eq_refl Hsev).
          + unfold checkMetric. rewrite Hthr, Hsev. reflexivity.
        - unfold checkMetric. rewrite Hthr. reflexivity. }
      rewrite Hm. apply IH. intros m' Hin. apply Hcov. right. exact Hin. }
  unfold checkMetricThresholds.
  destruct ms as [|m0 ms0]; [reflexivity|].
  destruct (Hfirst (m0 :: ms0) 0 (alerts, 0) Hnamed Hinv) as [_ [_ Hcov]].
  apply Hsecond. intros m Hin. destruct (Hnamed m Hin) as [n Hn].
  exists n. split; [exact Hn|]. intros threshold sv Hthr Hsev. simpl fst.
  apply (Hcov m n threshold sv Hin Hn Hthr Hsev).
Qed.

End Formatting.

Lemma second_threshold_pass_creates_nothing_witness :
  let pass := checkMetricThresholds (fun _ => "95.0") (fun _ => "90") (fun _ => true) prod in
  pass (Some [cpuSample 95; cpuSample 85]) (fst (pass (Some [cpuSample 95; cpuSample 85]) []))
  = (fst (pass (Some [cpuSample 95; cpuSample 85]) []), 0).
Proof.
  cbv zeta.
  apply (second_threshold_pass_creates_nothing (fun _ => "95.0") (fun _ => "90")
           (fun _ => true) prod [cpuSample 95; cpuSample 85] []).
  - reflexivity.
  - intros m [<-|[<-|[]]]; exists "node-1"; reflexivity.
  - intros cid aty n. simpl. lia.
Defined.

End ThresholdPassFacts.

(** ** The sign of the component score *)

Module ScoreSignFacts.
Import JS PrometheusMonitor Samples.
Open Scope string_scope.
Open Scope list_scope.

Lemma SFltb_asym : forall a b, SFltb a b = true -> SFltb b a = false.
Proof.
  intros a b. unfold SFltb, SFcompare.
  destruct a as [sa|sa| |sa ma ea], b as [sb|sb| |sb mb eb];
    try destruct sa; try destruct sb; try discriminate; try reflexivity.
  - pose proof (Pos.compare_cont_antisym ma mb Eq) as Hm. simpl in Hm.
    rewrite (Z.compare_antisym ea eb), <- Hm.
    destruct (ea ?= eb)%Z; simpl; try discriminate; try reflexivity.
    destruct (Pos.compare_cont Eq ma mb); simpl; try discriminate; reflexivity.
  - pose proof (Pos.compare_cont_antisym ma mb Eq) as Hm. simpl in Hm.
    rewrite (Z.compare_antisym ea eb), <- Hm.
    destruct (ea ?= eb)%Z; simpl; try discriminate; try reflexivity.
    destruct (Pos.compare_cont Eq ma mb); simpl; try discriminate; reflexivity.
Qed.

Lemma SFltb_leb : forall a b, SFltb a b = true -> SFleb a b = true.
Proof.
  intros a b. unfold SFltb, SFleb.
  destruct (SFcompare a b) as [[| |]|]; try discriminate; reflexivity.
Qed.

Lemma ltb_asym : forall x y, PrimFloat.ltb x y = true -> PrimFloat.ltb y x = false.
Proof. intros x y. rewrite !FloatAxioms.ltb_spec. apply SFltb_asym. Qed.

Lemma ltb_leb : forall x y, PrimFloat.ltb x y = true -> PrimFloat.leb x y = true.
Proof. intros x y. rewrite FloatAxioms.ltb_spec, FloatAxioms.leb_spec. apply SFltb_leb. Qed.

(** [Math.max(0, x)] is NaN or at least 0, and never below 0. *)
Lemma max_with_zero : forall x,
  PrimFloat.ltb (Math_max 0 x) 0 = false
  /\ (PrimFloat.is_nan (Math_max 0 x) || PrimFloat.leb 0 (Math_max 0 x) = true).
Proof.
  intros x. unfold Math_max.
  change (PrimFloat.is_nan 0) with false. cbn [orb].
  replace (PrimFloat.is_zero 0 && PrimFloat.get_sign 0) with false
    by (vm_compute; reflexivity).
  destruct (PrimFloat.is_nan x) eqn:Hnan.
  - split; vm_compute; reflexivity.
  - destruct (PrimFloat.ltb 0 x) eqn:Hlt.
    + split; [apply ltb_asym; exact Hlt|].
      rewrite (ltb_leb _ _ Hlt). apply orb_true_r.
    + destruct (PrimFloat.ltb x 0); split; vm_compute; reflexivity.
Qed.

(** X16: whatever the samples and the threshold (infinite and NaN values
    included), a component score is never below 0: it is NaN or at least 0. *)
Theorem component_score_is_never_negative : forall metrics type alertThreshold,
  PrimFloat.ltb (calculateComponentScore metrics type alertThreshold) 0 = false
  /\ (PrimFloat.is_nan (calculateComponentScore metrics type alertThreshold)
      || PrimFloat.leb 0 (calculateComponentScore metrics type alertThreshold) = true).
Proof.
  intros metrics type alertThreshold. unfold calculateComponentScore.
  destruct (typeMetrics metrics type) as [|m tm].
  - split; vm_compute; reflexivity.
  - cbv zeta. destruct (ge _ alertThreshold); apply max_with_zero.
Qed.

(** The score can exceed 100: a negative average lies below the threshold
    and is scored by the second branch. *)
Lemma negative_average_scores_above_100 :
  calculateComponentScore [cpuSample (-16)] "cpu" 80 = 110%float.
Proof. vm_compute. reflexivity. Qed.

End ScoreSignFacts.

(** ** Node count *)

Module NodeFacts.
Import JS HealthNodes Samples.
Open Scope string_scope.
Open Scope list_scope.

Lemma distinct_In : forall names x, In x (distinct names) <-> In x names.
Proof.
  induction names as [|n rest IH]; intros x; simpl.
  - reflexivity.
  - rewrite filter_In, IH, negb_true_iff. split.
    + intros [E|[Hin _]]; [left; exact E | right; exact Hin].
    + intros [E|Hin]; [left; exact E|].
      destruct (String.eqb_spec n x) as [E|Hne]; [left; exact E|].
      right. split; [exact Hin | reflexivity].
Qed.

Lemma distinct_NoDup : forall names, NoDup (distinct names).
Proof.
  induction names as [|n rest IH]; simpl.
  - constructor.
  - constructor.
    + rewrite filter_In, negb_true_iff. intros [_ E].
      rewrite String.eqb_refl in E. discriminate.
    + apply NoDup_filter. exact IH.
Qed.

Lemma distinct_length : forall names, List.length (distinct names) <= List.length names.
Proof.
  induction names as [|n rest IH]; simpl.
  - lia.
  - pose proof (filter_length_le (fun m => negb (String.eqb n m)) (distinct rest)). lia.
Qed.

Lemma namedNodes_In : forall metrics n,
  In n (namedNodes metrics) <->
  n <> "" /\ exists m, In m metrics /\ Metric.node_name m = Some n.
Proof.
  induction metrics as [|m rest IH]; intros n; simpl.
  - split; [contradiction | intros [_ [m [[] _]]]].
  - destruct (Metric.node_name m) as [[|c r]|] eqn:Hm; simpl; rewrite IH; split.
    + intros [Hne [m' [Hin E]]]. split; [exact Hne|]. exists m'. split; [right|]; assumption.
    + intros [Hne [m' [[<-|Hin] E]]].
      * rewrite Hm in E. injection E as E. subst n. contradiction.
      * split; [exact Hne|]. exists m'. split; assumption.
    + intros [<-|[Hne [m' [Hin E]]]].
      * split; [discriminate|]. exists m. split; [left; reflexivity | exact Hm].
      * split; [exact Hne|]. exists m'. split; [right|]; assumption.
    + intros [Hne [m' [[<-|Hin] E]]].
      * left. rewrite Hm in E. injection E as E. exact E.
      * right. split; [exact Hne|]. exists m'. split; assumption.
    + intros [Hne [m' [Hin E]]]. split; [exact Hne|]. exists m'. split; [right|]; assumption.
    + intros [Hne [m' [[<-|Hin] E]]].
      * rewrite Hm in E. discriminate.
      * split; [exact Hne|]. exists m'. split; assumption.
Qed.

Lemma namedNodes_length : forall metrics,
  List.length (namedNodes metrics) <= List.length metrics.
Proof.
  induction metrics as [|m rest IH]; simpl.
  - lia.
  - destruct (Metric.node_name m) as [[|c r]|]; simpl; lia.
Qed.

(** X17: the node count of the health scorer counts each non-empty node
    name of the samples once: the nodes are exactly those names, none twice;
    the count is their number, or 1 when no sample names a node, and so lies
    between 1 and the number of samples (1 for none); and every node counted
    is counted healthy. *)
Theorem node_count_counts_each_node_once : forall metrics,
  NoDup (uniqueNodes metrics)
  /\ (forall n, In n (uniqueNodes metrics) <->
                n <> "" /\ exists m, In m metrics /\ Metric.node_name m = Some n)
  /\ nodeCount metrics = Nat.max 1 (List.length (uniqueNodes metrics))
  /\ 1 <= nodeCount metrics <= Nat.max 1 (List.length metrics)
  /\ healthyNodes metrics = nodeCount metrics.
Proof.
  intros metrics. unfold uniqueNodes.
  split; [apply distinct_NoDup|].
  split; [intros n; rewrite distinct_In; apply namedNodes_In|].
  pose proof (distinct_length (namedNodes metrics)) as H1.
  pose proof (namedNodes_length metrics) as H2.
  unfold healthyNodes, nodeCount, uniqueNodes.
  set (k := List.length (distinct (namedNodes metrics))) in *.
  destruct k as [|k]; repeat split; lia.
Qed.

(** The scorer on three CPU samples of two nodes (average 79.9) and three
    pods of which two run: the overall score is returned and stored rounded
    to two decimals, the pod score is returned as computed and stored
    rounded. *)
Lemma health_score_example :
  let metrics := Some [cpuSample 79.9; cpuSample 79.9;
                       Metric.mk "c1" "cpu" "node_cpu_usage" 79.9 (Some "node-2") None 0] in
  let pods := Some [runningPod; runningPod; failedPod] in
  PrometheusMonitor.calculateClusterHealthScore metrics pods
  = PrometheusMonitor.HealthOk 80.35
      {| PrometheusMonitor.cpuScore := 50.0625;
         PrometheusMonitor.memoryScore := 100;
         PrometheusMonitor.diskScore := 100;
         PrometheusMonitor.networkScore := 95;
         PrometheusMonitor.podHealthScore := 66.66666666666666 |}
  /\ storedHealthScore prod metrics pods 1754586300000
     = Some {| cluster_id := "c1"; overall_score := 80.35; cpu_score := 50.06;
               memory_score := 100; disk_score := 100; network_score := 95;
               pod_health_score := 66.67; node_count := 2; healthy_nodes := 2;
               total_pods := 3; healthy_pods := 2; calculated_at := 1754586300000 |}.
Proof. split; vm_compute; reflexivity. Qed.

End NodeFacts.

(** ** Notification delivery *)

Module DeliveryFacts.
Import JS SlackIntegration SlackDelivery Samples.
Open Scope string_scope.
Open Scope list_scope.
Open Scope Z_scope.

Lemma recipients_are_filtered : forall user_id payload slack_webhooks preferences webhook,
  In webhook (recipients user_id payload slack_webhooks preferences) <->
  In webhook (userWebhooks user_id slack_webhooks)
  /\ passesThreshold payload preferences webhook = true.
Proof.
  intros. unfold recipients.
  destruct (userWebhooks user_id slack_webhooks) as [|w ws] eqn:E.
  - simpl. tauto.
  - unfold enabledWebhooks. rewrite filter_In. reflexivity.
Qed.

(** X18: raising the severity of an event never loses a recipient: a
    webhook that receives an event also receives the same event with a
    severity whose index in the scale is at least as high. *)
Theorem higher_severity_keeps_recipients :
  forall user_id payload payload' slack_webhooks preferences webhook,
    indexOf severityLevels (Payload.severity payload)
    <= indexOf severityLevels (Payload.severity payload') ->
    In webhook (recipients user_id payload slack_webhooks preferences) ->
    In webhook (recipients user_id payload' slack_webhooks preferences).
Proof.
  intros user_id payload payload' slack_webhooks preferences webhook Hle.
  rewrite !recipients_are_filtered. intros [Hin Hpass]. split; [exact Hin|].
  unfold passesThreshold in *.
  destruct (userPref preferences webhook) as [pref|]; [|reflexivity].
  apply Z.leb_le in Hpass. apply Z.leb_le. lia.
Qed.

Lemma higher_severity_keeps_recipients_witness :
  In opsChannel (recipients "u1" (notice "critical") [opsChannel] (Some [highOnly])).
Proof.
  apply (higher_severity_keeps_recipients "u1" (notice "high") (notice "critical")
           [opsChannel] (Some [highOnly]) opsChannel).
  - vm_compute. discriminate.
  - simpl. left. reflexivity.
Defined.

Lemma indexOf_level : forall s, In s severityLevels -> 0 <= indexOf severityLevels s.
Proof.
  intros s Hin. unfold severityLevels in Hin. simpl in Hin.
  repeat (destruct Hin as [<-|Hin]; [vm_compute; discriminate|]). contradiction.
Qed.

Lemma indexOf_unknown : forall s, ~ In s severityLevels -> indexOf severityLevels s = -1.
Proof.
  intros s Hnot. unfold indexOf, severityLevels. cbn [indexOfFrom].
  repeat match goal with
         | |- context [String.eqb ?l s] =>
             destruct (String.eqb_spec l s) as [E|_];
             [exfalso; apply Hnot; rewrite <- E; unfold severityLevels; simpl; tauto|]
         end.
  reflexivity.
Qed.

(** X19: an event whose severity is not one of low, medium, high and
    critical (warning and info, the severities of monitoring alerts, are not)
    reaches no webhook to which a preference with a valid threshold applies;
    it reaches the webhooks without applicable preference only. *)
Theorem unknown_severity_needs_no_preference :
  forall user_id payload slack_webhooks preferences webhook pref,
    ~ In (Payload.severity payload) severityLevels ->
    userPref preferences webhook = Some pref ->
    In (Preference.severity_threshold pref) severityLevels ->
    ~ In webhook (recipients user_id payload slack_webhooks preferences).
Proof.
  intros user_id payload slack_webhooks preferences webhook pref Hsev Hpref Hthr.
  rewrite recipients_are_filtered. intros [_ Hpass].
  unfold passesThreshold in Hpass. rewrite Hpref in Hpass.
  apply Z.leb_le in Hpass.
  rewrite (indexOf_unknown _ Hsev) in Hpass.
  pose proof (indexOf_level _ Hthr). lia.
Qed.

Lemma unknown_severity_needs_no_preference_witness :
  ~ In opsChannel (recipients "u1" (notice "warning") [opsChannel] (Some [highOnly]))
  /\ recipients "u1" (notice "warning") [opsChannel] (Some [highOnly]) = [].
Proof.
  split; [|reflexivity].
  apply (unknown_severity_needs_no_preference "u1" (notice "warning") [opsChannel]
           (Some [highOnly]) opsChannel highOnly).
  - simpl. intuition discriminate.
  - reflexivity.
  - simpl. tauto.
Defined.

Section Delivery.

Variable post : Webhook.t -> Posting.

Lemma settled_split : forall settled,
  (List.length (filter isFulfilled settled) + List.length (filter isRejected settled)
   = List.length settled)%nat.
Proof.
  induction settled as [|r rest IH]; simpl.
  - reflexivity.
  - destruct r; simpl; lia.
Qed.

(** X20: every recipient is counted once, as sent or as failed: the two
    counts of the fan-out add up to the number of recipients, and the number
    sent is the number of recipients whose own posting succeeded, whatever
    happened to the others. *)
Theorem each_recipient_is_sent_or_failed : forall user_id payload slack_webhooks preferences,
  let to := recipients user_id payload slack_webhooks preferences in
  let counts := notify post user_id payload slack_webhooks preferences in
  (fst counts + snd counts = List.length to)%nat
  /\ fst counts
     = List.length (filter (fun w => match post w with Ok => true | _ => false end) to).
Proof.
  intros user_id payload slack_webhooks preferences to counts.
  subst counts. unfold notify. fold to. cbn [fst snd]. split.
  - rewrite settled_split. unfold results. apply length_map.
  - unfold results. induction to as [|w ws IH]; simpl.
    + reflexivity.
    + unfold deliver at 1. destruct (post w); simpl; rewrite ?IH; reflexivity.
Qed.

End Delivery.

End DeliveryFacts.

(** ** Pod health snapshots *)

Module PodMonitorFacts.
Import JS ClusterMonitor Samples.
Open Scope string_scope.
Open Scope list_scope.

Lemma samePodKey_sym : forall a b, samePodKey a b = samePodKey b a.
Proof.
  intros a b. unfold samePodKey.
  rewrite (String.eqb_sym (PodHealth.cluster_id (PodRow.health a))).
  rewrite (String.eqb_sym (PodHealth.pod_name (PodRow.health a))).
  rewrite (String.eqb_sym (PodHealth.namespace (PodRow.health a))).
  destruct (PodHealth.container_name (PodRow.health a)) as [x|],
           (PodHealth.container_name (PodRow.health b)) as [y|]; try reflexivity.
  rewrite (String.eqb_sym x). reflexivity.
Qed.

Lemma samePodKey_trans : forall a b c,
  samePodKey a b = true -> samePodKey b c = true -> samePodKey a c = true.
Proof.
  intros a b c. unfold samePodKey.
  destruct (PodHealth.container_name (PodRow.health a)) as [x|],
           (PodHealth.container_name (PodRow.health b)) as [y|],
           (PodHealth.container_name (PodRow.health c)) as [z|];
    rewrite ?andb_false_r; try discriminate.
  rewrite !andb_true_iff, !String.eqb_eq.
  intros [[[-> ->] ->] ->] [[[-> ->] ->] ->]. repeat split.
Qed.

(** An update leaves the conflict key of the row as it is. *)
Lemma updateRow_key : forall p at_ r x,
  samePodKey r (insertRow p at_) = true ->
  samePodKey (updateRow p at_ r) x = samePodKey r x.
Proof.
  intros p at_ r x. unfold samePodKey, insertRow, updateRow. simpl.
  destruct (PodHealth.container_name (PodRow.health r)) as [n|];
    rewrite ?andb_false_r; try discriminate.
  rewrite !andb_true_iff, !String.eqb_eq. intros [[[-> ->] ->] ->]. reflexivity.
Qed.

Lemma updateRow_same_key : forall p at_ r,
  samePodKey (updateRow p at_ r) (insertRow p at_) = true.
Proof.
  intros p at_ r. unfold samePodKey, insertRow, updateRow. simpl.
  rewrite !String.eqb_refl. reflexivity.
Qed.

Lemma insertRow_same_key : forall p at_ at',
  samePodKey (insertRow p at_) (insertRow p at') = true.
Proof.
  intros p at_ at'. unfold samePodKey, insertRow. simpl.
  rewrite !String.eqb_refl. reflexivity.
Qed.

Lemma upsertPod_In : forall p at_ table x,
  In x (upsertPod p at_ table) ->
  In x table \/ x = insertRow p at_ \/ exists r, In r table /\ x = updateRow p at_ r.
Proof.
  intros p at_ table x. induction table as [|r rest IH]; simpl.
  - intros [<-|[]]. right. left. reflexivity.
  - destruct (samePodKey r (insertRow p at_)).
    + intros [<-|Hin].
      * right. right. exists r. split; [left|]; reflexivity.
      * left. right. exact Hin.
    + intros [<-|Hin]; [left; left; reflexivity|].
      destruct (IH Hin) as [Hin'|[E|[r' [Hr' E]]]].
      * left. right. exact Hin'.
      * right. left. exact E.
      * right. right. exists r'. split; [right; exact Hr' | exact E].
Qed.

(** After an upsert the table has a row with the key of the document. *)
Lemma upsertPod_stores : forall p at_ table,
  exists x, In x (upsertPod p at_ table) /\ samePodKey x (insertRow p at_) = true.
Proof.
  intros p at_ table. induction table as [|r rest IH]; simpl.
  - exists (insertRow p at_). split; [left; reflexivity | apply insertRow_same_key].
  - destruct (samePodKey r (insertRow p at_)) eqn:Hsame.
    + exists (updateRow p at_ r). split; [left; reflexivity | apply updateRow_same_key].
    + destruct IH as [x [Hin Hx]]. exists x. split; [right; exact Hin | exact Hx].
Qed.

(** An upsert removes no key from the table. *)
Lemma upsertPod_keeps_key : forall p at_ table k,
  (exists x, In x table /\ samePodKey x k = true) ->
  exists x, In x (upsertPod p at_ table) /\ samePodKey x k = true.
Proof.
  intros p at_ table k. induction table as [|r rest IH]; intros [x [Hin Hx]].
  - contradiction.
  - simpl. destruct (samePodKey r (insertRow p at_)) eqn:Hsame.
    + destruct Hin as [<-|Hin].
      * exists (updateRow p at_ r). split; [left; reflexivity|].
        rewrite (updateRow_key _ _ _ _ Hsame). exact Hx.
      * exists x. split; [right; exact Hin | exact Hx].
    + destruct Hin as [<-|Hin].
      * exists r. split; [left; reflexivity | exact Hx].
      * destruct (IH (ex_intro _ x (conj Hin Hx))) as [y [Hy Hky]].
        exists y. split; [right; exact Hy | exact Hky].
Qed.

Lemma upsertPod_keeps_keys_unique : forall p at_ table,
  ForallOrdPairs (fun a b => samePodKey a b = false) table ->
  ForallOrdPairs (fun a b => samePodKey a b = false) (upsertPod p at_ table).
Proof.
  intros p at_ table. induction table as [|r rest IH]; simpl; intros Huniq.
  - constructor; constructor.
  - inversion Huniq as [|? ? Hr Hrest]; subst.
    destruct (samePodKey r (insertRow p at_)) eqn:Hsame.
    + constructor; [|exact Hrest].
      apply Forall_forall. intros b Hb.
      rewrite (updateRow_key _ _ _ _ Hsame).
      rewrite Forall_forall in Hr. apply Hr. exact Hb.
    + constructor; [|apply IH; exact Hrest].
      apply Forall_forall. intros b Hb.
      rewrite Forall_forall in Hr.
      destruct (upsertPod_In _ _ _ _ Hb) as [Hin|[->|[r' [Hr' ->]]]].
      * apply Hr. exact Hin.
      * exact Hsame.
      * destruct (samePodKey r (updateRow p at_ r')) eqn:E; [|reflexivity].
        rewrite <- Hsame. symmetry.
        apply (samePodKey_trans r (updateRow p at_ r') (insertRow p at_) E).
        apply updateRow_same_key.
Qed.

Section Monitor.

Variable now : nat -> Z.
Variable cluster : Cluster.t.

(** The restart count the monitor stores for a container. *)
Local Abbreviation restarts :=
  (fun c : K8s.ContainerStatus =>
     match K8s.restartCount c with Some n => n | None => 0%Z end).

(** The exit reason of the last termination of a container. *)
Local Abbreviation lastReason :=
  (fun c : K8s.ContainerStatus =>
     match K8s.terminated c with Some t => K8s.reason t | None => None end).

(** What holds of a row the monitor has written for container [c] of the pod
    [podName] in phase [phase]. *)
Local Abbreviation writtenFor :=
  (fun (podName phase : string) (c : K8s.ContainerStatus) (r : PodRow.t) =>
     PodHealth.cluster_id (PodRow.health r) = Cluster.id cluster
     /\ PodHealth.namespace (PodRow.health r) = namespaceOf cluster
     /\ PodHealth.pod_name (PodRow.health r) = podName
     /\ PodHealth.container_name (PodRow.health r) = Some (K8s.name c)
     /\ PodHealth.status (PodRow.health r) = phase
     /\ PodHealth.restart_count (PodRow.health r) = restarts c
     /\ (PodRow.oom_killed r = true <-> lastReason c = Some "OOMKilled")
     /\ (PodRow.oom_killed r = true ->
         PodHealth.exit_reason (PodRow.health r) = Some "OOMKilled")).

(** The rows written for the pods [items]. *)
Local Abbreviation written :=
  (fun (items : list K8s.PodItem) (r : PodRow.t) =>
     exists podName phase containers c,
       In (K8s.Pod podName phase (Some containers)) items
       /\ In c containers
       /\ writtenFor podName phase c r).

(** The row with the conflict key of container [c] of pod [podName]. *)
Local Abbreviation rowOf :=
  (fun (podName : string) (c : K8s.ContainerStatus) (r : PodRow.t) =>
     PodHealth.cluster_id (PodRow.health r) = Cluster.id cluster
     /\ PodHealth.pod_name (PodRow.health r) = podName
     /\ PodHealth.namespace (PodRow.health r) = namespaceOf cluster
     /\ PodHealth.container_name (PodRow.health r) = Some (K8s.name c)).

Lemma oom_flag : forall c,
  match K8s.terminated c with
  | Some t => strictEq (K8s.reason t) (Some "OOMKilled")
  | None => false
  end = true <-> lastReason c = Some "OOMKilled".
Proof.
  intros c. cbv beta. destruct (K8s.terminated c) as [t|].
  - destruct (K8s.reason t) as [reason|]; simpl.
    + rewrite String.eqb_eq. split; [intros ->; reflexivity | intros E; injection E; auto].
    + split; discriminate.
  - split; discriminate.
Qed.

Lemma oom_reason_sent : forall podName phase c,
  PodPayload.oom_killed (containerPayload cluster podName phase c) = true ->
  PodPayload.exit_reason (containerPayload cluster podName phase c)
  = PodPayload.Defined (Some "OOMKilled").
Proof.
  intros podName phase c. unfold containerPayload. simpl.
  destruct (K8s.terminated c) as [t|]; [|discriminate].
  destruct (K8s.reason t) as [reason|]; simpl; [|discriminate].
  rewrite String.eqb_eq. intros ->. reflexivity.
Qed.

Lemma insertRow_written : forall podName phase c at_,
  writtenFor podName phase c (insertRow (containerPayload cluster podName phase c) at_).
Proof.
  intros podName phase c at_.
  repeat (split; [reflexivity|]).
  split; [apply oom_flag|].
  intros Hoom. cbn [insertRow PodRow.health PodHealth.exit_reason].
  rewrite (oom_reason_sent podName phase c Hoom). reflexivity.
Qed.

Lemma updateRow_written : forall podName phase c at_ r,
  writtenFor podName phase c (updateRow (containerPayload cluster podName phase c) at_ r).
Proof.
  intros podName phase c at_ r.
  repeat (split; [reflexivity|]).
  split; [apply oom_flag|].
  intros Hoom. cbn [updateRow PodRow.health PodHealth.exit_reason].
  rewrite (oom_reason_sent podName phase c Hoom). reflexivity.
Qed.

Lemma rowOf_key : forall podName phase c at_ x,
  samePodKey x (insertRow (containerPayload cluster podName phase c) at_) = true <->
  rowOf podName c x.
Proof.
  intros podName phase c at_ x. unfold samePodKey, insertRow, containerPayload. simpl.
  destruct (PodHealth.container_name (PodRow.health x)) as [n|].
  - rewrite !andb_true_iff, !String.eqb_eq. split.
    + intros [[[-> ->] ->] ->]. repeat split.
    + intros [-> [-> [-> E]]]. injection E as ->. repeat split.
  - rewrite andb_false_r. split; [discriminate | intros [_ [_ [_ E]]]; discriminate].
Qed.

(** The loop over the containers of one pod. *)
Lemma containers_written : forall podName phase containers st,
  let st' := fold_left (upsertContainer now cluster podName phase) containers st in
  (forall r, In r (pod_health st') ->
     In r (pod_health st) \/ exists c, In c containers /\ writtenFor podName phase c r)
  /\ (forall k, (exists x, In x (pod_health st) /\ samePodKey x k = true) ->
                exists x, In x (pod_health st') /\ samePodKey x k = true)
  /\ (forall c, In c containers -> exists x, In x (pod_health st') /\ rowOf podName c x)
  /\ (ForallOrdPairs (fun a b => samePodKey a b = false) (pod_health st) ->
      ForallOrdPairs (fun a b => samePodKey a b = false) (pod_health st'))
  /\ processedPods st' = processedPods st.
Proof.
  intros podName phase containers.
  induction containers as [|c containers IH]; intros st; cbn [fold_left].
  - split; [intros r Hin; left; exact Hin|].
    split; [intros k Hk; exact Hk|].
    split; [intros c []|]. split; [auto | reflexivity].
  - specialize (IH (upsertContainer now cluster podName phase st c)).
    cbv zeta in IH. destruct IH as [Hrows [Hkeys [Hall [Huniq Hcount]]]].
    cbv zeta. split; [|split; [|split; [|split]]].
    + intros r Hin. destruct (Hrows r Hin) as [Hin'|[c' [Hc' Hw]]].
      * cbn [upsertContainer pod_health] in Hin'.
        destruct (upsertPod_In _ _ _ _ Hin') as [Hold|[->|[r' [_ ->]]]].
        -- left. exact Hold.
        -- right. exists c. split; [left; reflexivity | apply insertRow_written].
        -- right. exists c. split; [left; reflexivity | apply updateRow_written].
      * right. exists c'. split; [right; exact Hc' | exact Hw].
    + intros k Hk. apply Hkeys. cbn [upsertContainer pod_health].
      apply upsertPod_keeps_key. exact Hk.
    + intros c' [<-|Hc']; [|apply Hall; exact Hc'].
      destruct (Hkeys (insertRow (containerPayload cluster podName phase c) 0)) as [x [Hx Hk]].
      * cbn [upsertContainer pod_health].
        destruct (upsertPod_stores (containerPayload cluster podName phase c)
                    (now (upserts st)) (pod_health st)) as [x [Hx Hk]].
        exists x. split; [exact Hx|].
        apply (samePodKey_trans _ _ _ Hk). apply insertRow_same_key.
      * exists x. split; [exact Hx|]. apply (rowOf_key podName phase c 0). exact Hk.
    + intros Ht. apply Huniq. cbn [upsertContainer pod_health].
      apply upsertPod_keeps_keys_unique. exact Ht.
    + rewrite Hcount. reflexivity.
Qed.

Local Abbreviation wellFormed :=
  (fun p : K8s.PodItem => match p with K8s.Pod _ _ _ => true | K8s.Malformed => false end).

(** The loop over the pods. *)
Lemma pods_written : forall items st,
  let st' := fold_left (processPod now cluster) items st in
  (forall r, In r (pod_health st') -> In r (pod_health st) \/ written items r)
  /\ (forall k, (exists x, In x (pod_health st) /\ samePodKey x k = true) ->
                exists x, In x (pod_health st') /\ samePodKey x k = true)
  /\ (forall podName phase containers c,
        In (K8s.Pod podName phase (Some containers)) items -> In c containers ->
        exists x, In x (pod_health st') /\ rowOf podName c x)
  /\ (ForallOrdPairs (fun a b => samePodKey a b = false) (pod_health st) ->
      ForallOrdPairs (fun a b => samePodKey a b = false) (pod_health st'))
  /\ processedPods st' = processedPods st + List.length (filter wellFormed items).
Proof.
  induction items as [|p items IH]; intros st; cbn [fold_left].
  - split; [intros r Hin; left; exact Hin|].
    split; [intros k Hk; exact Hk|].
    split; [intros ? ? ? ? []|]. split; [auto | simpl; lia].
  - specialize (IH (processPod now cluster st p)).
    cbv zeta in IH. destruct IH as [Hrows [Hkeys [Hall [Huniq Hcount]]]].
    assert (Hp : (forall r, In r (pod_health (processPod now cluster st p)) ->
                    In r (pod_health st) \/ written [p] r)
                 /\ (forall k, (exists x, In x (pod_health st) /\ samePodKey x k = true) ->
                       exists x, In x (pod_health (processPod now cluster st p))
                                 /\ samePodKey x k = true)
                 /\ (forall podName phase containers c,
                       p = K8s.Pod podName phase (Some containers) -> In c containers ->
                       exists x, In x (pod_health (processPod now cluster st p))
                                 /\ rowOf podName c x)
                 /\ (ForallOrdPairs (fun a b => samePodKey a b = false) (pod_health st) ->
                     ForallOrdPairs (fun a b => samePodKey a b = false)
                                    (pod_health (processPod now cluster st p)))
                 /\ processedPods (processPod now cluster st p)
                    = processedPods st + (if wellFormed p then 1 else 0)).
    { destruct p as [|podName phase containers].
      - split; [intros r Hin; left; exact Hin|].
        split; [intros k Hk; exact Hk|].
        split; [intros ? ? ? ? E; discriminate|]. split; [auto | simpl; lia].
      - pose proof (containers_written podName phase
                      (match containers with Some cs => cs | None => [] end) st) as H.
        cbv zeta in H. destruct H as [H1 [H2 [H3 [H4 H5]]]].
        cbn [processPod pod_health processedPods].
        split; [|split; [|split; [|split]]].
        + intros r Hin. destruct (H1 r Hin) as [Hold|[c [Hc Hw]]]; [left; exact Hold|].
          right. destruct containers as [cs|]; [|contradiction].
          exists podName, phase, cs, c. split; [left; reflexivity|]. split; assumption.
        + exact H2.
        + intros podName' phase' cs c E Hc. injection E as -> -> ->. apply H3. exact Hc.
        + exact H4.
        + rewrite H5. simpl. lia. }
    destruct Hp as [P1 [P2 [P3 [P4 P5]]]].
    cbv zeta. split; [|split; [|split; [|split]]].
    + intros r Hin. destruct (Hrows r Hin) as [Hin'|[n [ph [cs [c [Hi [Hc Hw]]]]]]].
      * destruct (P1 r Hin') as [Hold|[n [ph [cs [c [Hi [Hc Hw]]]]]]]; [left; exact Hold|].
        right. exists n, ph, cs, c.
        destruct Hi as [<-|[]]. split; [left; reflexivity|]. split; assumption.
      * right. exists n, ph, cs, c. split; [right; exact Hi|]. split; assumption.
    + intros k Hk. apply Hkeys. apply P2. exact Hk.
    + intros podName phase cs c [->|Hi] Hc.
      * destruct (P3 podName phase cs c eq_refl Hc) as [x [Hx Hrow]].
        destruct (Hkeys (insertRow (containerPayload cluster podName phase c) 0)) as [y [Hy Hk]].
        -- exists x. split; [exact Hx|]. apply rowOf_key. exact Hrow.
        -- exists y. split; [exact Hy|]. apply (rowOf_key podName phase c 0). exact Hk.
      * apply (Hall podName phase cs c Hi Hc).
    + intros Ht. apply Huniq. apply P4. exact Ht.
    + rewrite Hcount, P5. simpl. destruct (wellFormed p); simpl; lia.
Qed.

(** X21: a pod-health pass counts the well-formed pods of the reply, and a
    failed request leaves the table alone and returns an error.  Every row of
    the table after the pass was there before, unchanged, or was written for
    a container of a well-formed pod of the reply: it has the cluster's id
    and namespace, the names of the pod and of the container, the pod's phase
    and the container's restart count (0 for none), it is flagged as OOM
    killed exactly when the container's last exit reason is OOMKilled, and
    then its exit reason says so.  Every such container has a row after the
    pass, and if no two rows of the table had the same
    (cluster, pod, namespace, container) before, none have after. *)
Theorem pod_health_pass_rows : forall reply table,
  let result := monitorPodHealth now cluster reply table in
  match reply with
  | K8s.Items items =>
      let pods := match items with Some ps => ps | None => [] end in
      snd result = Processed (List.length (filter wellFormed pods))
      /\ (forall r, In r (fst result) -> In r table \/ written pods r)
      /\ (forall podName phase containers c,
            In (K8s.Pod podName phase (Some containers)) pods -> In c containers ->
            exists r, In r (fst result) /\ rowOf podName c r)
  | _ => result = (table, MonitorError)
  end
  /\ (ForallOrdPairs (fun a b => samePodKey a b = false) table ->
      ForallOrdPairs (fun a b => samePodKey a b = false) (fst result)).
Proof.
  intros reply table result. subst result. unfold monitorPodHealth.
  destruct reply as [|status|items]; cbn [fst snd]; try (split; [reflexivity | auto]).
  pose proof (pods_written (match items with Some ps => ps | None => [] end)
                {| pod_health := table; upserts := 0; processedPods := 0 |}) as H.
  cbv zeta in H. cbn [pod_health processedPods] in H.
  destruct H as [Hrows [_ [Hall [Huniq Hcount]]]].
  split; [|exact Huniq].
  split; [rewrite Hcount; reflexivity|]. split; [exact Hrows | exact Hall].
Qed.

End Monitor.

(** A container that is reported without a last termination state, as a
    pod created anew under its old name is, keeps the restart time stored
    for it, while its exit code and exit reason are cleared. *)
Lemma restart_time_outlives_exit_reason :
  fst (monitorPodHealth clock prod
         (K8s.Items (Some [K8s.Pod "web" "Running"
                             (Some [{| K8s.name := "app";
                                       K8s.restartCount := None;
                                       K8s.terminated := None |}])]))
         [MoreSamples.oomRow])
  = [PodRow.mk (PodHealth.mk "c1" "web" "default" (Some "app") 0 None None "Running" (clock 0))
               (Some 1754586280000%Z) false].
Proof. reflexivity. Qed.

End PodMonitorFacts.

(** ** Smart alerts *)

Module SmartAlertFacts.
Import JS ClusterMonitor Samples.
Open Scope string_scope.
Open Scope list_scope.

Lemma filter_map_length : forall (A : Type) (p : A -> bool) (f : A -> A) (l : list A),
  (forall x, p (f x) = p x) ->
  List.length (filter p (map f l)) = List.length (filter p l).
Proof.
  intros A p f l H. induction l as [|x l IH]; simpl.
  - reflexivity.
  - rewrite H. destruct (p x); simpl; rewrite IH; reflexivity.
Qed.

Lemma refresh_keeps_key : forall d at_ r cid ty res,
  (fun r => String.eqb (AlertData.cluster_id (SmartAlertRow.data r)) cid
            && String.eqb (AlertData.alert_type (SmartAlertRow.data r)) ty
            && String.eqb (AlertData.resource_name (SmartAlertRow.data r)) res
            && negb (SmartAlertRow.is_resolved r))
    (if matchesOpen d r then refresh d at_ r else r)
  = (String.eqb (AlertData.cluster_id (SmartAlertRow.data r)) cid
     && String.eqb (AlertData.alert_type (SmartAlertRow.data r)) ty
     && String.eqb (AlertData.resource_name (SmartAlertRow.data r)) res
     && negb (SmartAlertRow.is_resolved r)).
Proof. intros. destruct (matchesOpen d r); reflexivity. Qed.

Lemma lookup_is_open : forall d table,
  filter (matchesOpen d) table
  = openSmartAlerts (AlertData.cluster_id d) (AlertData.alert_type d)
                    (AlertData.resource_name d) table.
Proof. reflexivity. Qed.

Lemma createAlert_open : forall at_ table d cid ty res,
  List.length (openSmartAlerts cid ty res table) <= 1 ->
  List.length (openSmartAlerts cid ty res (createAlert true at_ table d)) <= 1.
Proof.
  intros at_ table d cid ty res Hle. unfold createAlert.
  destruct (PrometheusMonitor.single (filter (matchesOpen d) table)) as [found|] eqn:Hs.
  - unfold openSmartAlerts.
    rewrite (filter_map_length _ _ _ table (fun r => refresh_keeps_key d at_ r cid ty res)).
    exact Hle.
  - unfold openSmartAlerts in *. rewrite filter_app, length_app. simpl.
    destruct (String.eqb_spec (AlertData.cluster_id d) cid) as [<-|_]; simpl; [|lia].
    destruct (String.eqb_spec (AlertData.alert_type d) ty) as [<-|_]; simpl; [|lia].
    destruct (String.eqb_spec (AlertData.resource_name d) res) as [<-|_]; simpl; [|lia].
    fold (matchesOpen d) in Hle |- *.
    destruct (filter (matchesOpen d) table) as [|a [|b rest]]; simpl in *;
      try discriminate; lia.
Qed.

Lemma createAlert_own : forall at_ table d,
  List.length (filter (matchesOpen d) table) <= 1 ->
  List.length (filter (matchesOpen d) (createAlert true at_ table d)) = 1.
Proof.
  intros at_ table d Hle. unfold createAlert.
  destruct (filter (matchesOpen d) table) as [|a [|b rest]] eqn:Hf; simpl in Hle; try lia.
  - simpl. rewrite filter_app, Hf. simpl. unfold matchesOpen at 1. simpl.
    rewrite !String.eqb_refl. reflexivity.
  - simpl.
    rewrite (filter_map_length _ (matchesOpen d) _ table
               (fun r => refresh_keeps_key d at_ r (AlertData.cluster_id d)
                           (AlertData.alert_type d) (AlertData.resource_name d))).
    rewrite Hf. reflexivity.
Qed.

Lemma createAlert_length : forall answered at_ table d,
  List.length table <= List.length (createAlert answered at_ table d) <= S (List.length table)
  /\ (answered = true -> List.length (filter (matchesOpen d) table) = 1 ->
      List.length (createAlert answered at_ table d) = List.length table).
Proof.
  intros answered at_ table d. unfold createAlert.
  destruct answered;
    [destruct (filter (matchesOpen d) table) as [|a [|b rest]]|]; simpl;
    rewrite ?length_map, ?length_app; simpl; split; try lia; discriminate.
Qed.

Lemma createAlert_resolved : forall answered at_ table d,
  filter SmartAlertRow.is_resolved (createAlert answered at_ table d)
  = filter SmartAlertRow.is_resolved table.
Proof.
  intros answered at_ table d. unfold createAlert.
  destruct (if answered then PrometheusMonitor.single (filter (matchesOpen d) table)
            else None).
  - induction table as [|r table IH]; simpl; [reflexivity|].
    destruct (matchesOpen d r) eqn:Hm.
    + unfold matchesOpen in Hm. apply andb_true_iff in Hm. destruct Hm as [_ Hm].
      apply negb_true_iff in Hm. simpl. rewrite Hm. exact IH.
    + destruct (SmartAlertRow.is_resolved r); rewrite IH; reflexivity.
  - rewrite filter_app. simpl. apply app_nil_r.
Qed.

Section Pass.

Variable now : nat -> Z.
Variable alertLookup : nat -> bool.
Variable showNumber : Z -> string.
Variable showNullable : option Z -> string.
Variable oomReadAt : Z.
Variable probeReadAt : Z.
Variable cluster : Cluster.t.

Local Abbreviation pass :=
  (analyzeAndCreateAlerts now alertLookup showNumber showNullable oomReadAt probeReadAt
     cluster).

(** The objects the pass hands to [createAlert], in order. *)
Local Abbreviation candidates :=
  (fun (pods : list PodRow.t) (events : list Event.t) =>
     map (oomAlertData cluster) (oomPods cluster oomReadAt pods)
     ++ map (crashLoopAlertData showNumber showNullable cluster) (crashLoopPods cluster pods)
     ++ map (probeAlertData cluster) (probeEvents cluster probeReadAt events)).

Lemma pass_is_a_fold : forall pods events table,
  pass pods events table = fold_left (raise now alertLookup) (candidates pods events) (table, 0).
Proof.
  intros. unfold analyzeAndCreateAlerts. rewrite !fold_left_app. reflexivity.
Qed.

Lemma raise_all : forall ds st,
  (forall k, alertLookup k = true) ->
  (forall cid ty res, List.length (openSmartAlerts cid ty res (fst st)) <= 1) ->
  let st' := fold_left (raise now alertLookup) ds st in
  (forall cid ty res, List.length (openSmartAlerts cid ty res (fst st')) <= 1)
  /\ (forall d, List.length (filter (matchesOpen d) (fst st)) = 1 ->
                List.length (filter (matchesOpen d) (fst st')) = 1)
  /\ (forall d, In d ds -> List.length (filter (matchesOpen d) (fst st')) = 1).
Proof.
  induction ds as [|d0 ds IH]; intros st Hanswered Hinv; simpl.
  - split; [exact Hinv|]. split; [auto | intros d []].
  - assert (Hstep : fst (raise now alertLookup st d0)
                    = createAlert true (now (snd st)) (fst st) d0).
    { unfold raise. cbn [fst]. rewrite Hanswered. reflexivity. }
    assert (Hinv' : forall cid ty res,
               List.length (openSmartAlerts cid ty res (fst (raise now alertLookup st d0))) <= 1).
    { intros cid ty res. rewrite Hstep. apply createAlert_open. apply Hinv. }
    destruct (IH (raise now alertLookup st d0) Hanswered Hinv') as [H1 [H2 H3]].
    split; [exact H1|]. split.
    + intros d Hone. apply H2. rewrite Hstep.
      rewrite lookup_is_open in *.
      pose proof (createAlert_open (now (snd st)) (fst st) d0 _ _ _
                    (Hinv (AlertData.cluster_id d) (AlertData.alert_type d)
                          (AlertData.resource_name d))) as Hle.
      assert (Hge : List.length (openSmartAlerts (AlertData.cluster_id d)
                                   (AlertData.alert_type d) (AlertData.resource_name d)
                                   (fst st))
                    <= List.length (openSmartAlerts (AlertData.cluster_id d)
                                      (AlertData.alert_type d) (AlertData.resource_name d)
                                      (createAlert true (now (snd st)) (fst st) d0))).
      { unfold createAlert.
        destruct (PrometheusMonitor.single (filter (matchesOpen d0) (fst st))).
        - unfold openSmartAlerts.
          rewrite (filter_map_length _ _ _ (fst st)
                     (fun r => refresh_keeps_key d0 (now (snd st)) r _ _ _)).
          lia.
        - unfold openSmartAlerts. rewrite filter_app, length_app. lia. }
      lia.
    + intros d [<-|Hin]; [|apply H3; exact Hin].
      apply H2. rewrite Hstep. apply createAlert_own.
      rewrite lookup_is_open. apply Hinv.
Qed.


Lemma raise_counts : forall ds st,
  let st' := fold_left (raise now alertLookup) ds st in
  snd st' = snd st + List.length ds
  /\ List.length (fst st) <= List.length (fst st') <= List.length (fst st) + List.length ds
  /\ filter SmartAlertRow.is_resolved (fst st') = filter SmartAlertRow.is_resolved (fst st).
Proof.
  induction ds as [|d ds IH]; intros st; simpl.
  - repeat split; lia.
  - destruct (IH (raise now alertLookup st d)) as [H1 [H2 H3]].
    change (fst (raise now alertLookup st d))
      with (createAlert (alertLookup (snd st)) (now (snd st)) (fst st) d) in H2, H3.
    change (snd (raise now alertLookup st d)) with (S (snd st)) in H1.
    pose proof (proj1 (createAlert_length (alertLookup (snd st)) (now (snd st)) (fst st) d))
      as Hl.
    rewrite createAlert_resolved in H3.
    split; [rewrite H1; lia|]. split; [lia | exact H3].
Qed.


Lemma raise_again : forall ds st,
  (forall k, alertLookup k = true) ->
  (forall cid ty res, List.length (openSmartAlerts cid ty res (fst st)) <= 1) ->
  (forall d, In d ds -> List.length (filter (matchesOpen d) (fst st)) = 1) ->
  List.length (fst (fold_left (raise now alertLookup) ds st)) = List.length (fst st).
Proof.
  induction ds as [|d ds IH]; intros st Hanswered Hinv Hone; simpl.
  - reflexivity.
  - assert (Hstep : fst (raise now alertLookup st d)
                    = createAlert true (now (snd st)) (fst st) d).
    { unfold raise. cbn [fst]. rewrite Hanswered. reflexivity. }
    rewrite IH.
    + rewrite Hstep.
      apply (proj2 (createAlert_length true (now (snd st)) (fst st) d)); [reflexivity|].
      apply Hone. left. reflexivity.
    + exact Hanswered.
    + intros cid ty res. rewrite Hstep. apply createAlert_open. apply Hinv.
    + intros d' Hin.
      destruct (raise_all [d] st Hanswered Hinv) as [_ [H2 _]]. simpl in H2.
      apply H2. apply Hone. right. exact Hin.
Qed.


End Pass.



(** The sample pod is reported twice, as OOM killed and as crash looping: two
    alerts, and the same count with no new row on a second pass whose lookups
    are answered.  When the first lookup of the second pass is not answered,
    the OOM kill of the pod is inserted again, and the pod has two unresolved
    alerts of that type. *)
Lemma alert_pass_example :
  let pass := analyzeAndCreateAlerts clock (fun _ => true) MoreSamples.showNumber
                MoreSamples.showNullable 1754586300000 1754586300000 prod
                [MoreSamples.oomRow] [] in
  let unanswered := analyzeAndCreateAlerts clock (fun k => negb (Nat.eqb k 0))
                      MoreSamples.showNumber MoreSamples.showNullable
                      1754586300000 1754586300000 prod [MoreSamples.oomRow] [] in
  map (fun r => AlertData.alert_type (SmartAlertRow.data r)) (fst (pass []))
  = ["oomkill"; "crash_loop"]
  /\ snd (pass []) = 2
  /\ snd (pass (fst (pass []))) = 2
  /\ List.length (fst (pass (fst (pass [])))) = 2
  /\ List.length (fst (unanswered (fst (pass [])))) = 3
  /\ List.length (openSmartAlerts "c1" "oomkill" "web" (fst (unanswered (fst (pass []))))) = 2.
Proof. cbv zeta. repeat split; vm_compute; reflexivity. Qed.

End SmartAlertFacts.

(** ** The kubectl function *)

Module KubectlFacts.
Import JS Kubectl Samples.
Open Scope list_scope.
Open Scope string_scope.

(** *** split and join *)

Lemma split_nonempty : forall s, split s <> [].
Proof.
  destruct s as [|c rest]; simpl; [discriminate|].
  destruct (Ascii.eqb c " "); [discriminate|].
  destruct (split rest); discriminate.
Qed.

(** A string without space is its own single piece, and only such a string
    is: this is how the lemmas below say that a word holds no space. *)
Lemma split_word_inv : forall c r,
  split (String c r) = [String c r] -> Ascii.eqb c " " = false /\ split r = [r].
Proof.
  intros c r. simpl. destruct (Ascii.eqb c " ") eqn:Hc.
  - intros E. injection E as E1 E2. discriminate.
  - destruct (split r) as [|piece pieces] eqn:Hr; [destruct (split_nonempty r Hr)|].
    intros E. injection E as -> ->. split; reflexivity.
Qed.

Lemma split_pieces : forall s w, In w (split s) -> split w = [w].
Proof.
  induction s as [|c rest IH]; simpl; intros w.
  - intros [<-|[]]. reflexivity.
  - destruct (Ascii.eqb c " ") eqn:Hc.
    + intros [<-|Hin]; [reflexivity | apply IH; exact Hin].
    + destruct (split rest) as [|piece pieces] eqn:Hr; [destruct (split_nonempty rest Hr)|].
      intros [<-|Hin].
      * simpl. rewrite Hc. rewrite (IH piece (or_introl eq_refl)). reflexivity.
      * apply IH. right. exact Hin.
Qed.

Lemma split_append : forall w t, split w = [w] -> split (w ++ " " ++ t) = w :: split t.
Proof.
  induction w as [|c r IH]; intros t Hw.
  - reflexivity.
  - destruct (split_word_inv c r Hw) as [Hc Hr].
    change (String c r ++ " " ++ t) with (String c (r ++ " " ++ t)).
    cbn [split]. rewrite Hc, (IH t Hr). reflexivity.
Qed.

Lemma split_join : forall pieces,
  pieces <> [] -> (forall w, In w pieces -> split w = [w]) -> split (join pieces) = pieces.
Proof.
  induction pieces as [|w rest IH]; intros Hne Hall; [contradiction|].
  destruct rest as [|w' rest].
  - simpl. apply Hall. left. reflexivity.
  - change (join (w :: w' :: rest)) with (w ++ " " ++ join (w' :: rest)).
    rewrite split_append by (apply Hall; left; reflexivity).
    rewrite IH; [reflexivity | discriminate | intros x Hx; apply Hall; right; exact Hx].
Qed.

(** The verb that [buildKubernetesApiUrl] reads is the second word of the
    command. *)
Lemma verb_of_operation : forall s,
  nth_error (split (join (skipn 1 (split s)))) 0 = Some (nth 1 (split s) "").
Proof.
  intros s. pose proof (split_pieces s) as Hall.
  destruct (split s) as [|w0 [|w1 rest]]; try reflexivity.
  cbn [skipn]. rewrite split_join.
  - reflexivity.
  - discriminate.
  - intros w Hw. apply Hall. right. exact Hw.
Qed.

(** *** buildKubernetesApiUrl *)

Lemma built_verb : forall operation clusterConfig request,
  buildKubernetesApiUrl operation clusterConfig = Some request ->
  In (nth 0 (split operation) "") verbs.
Proof.
  intros operation clusterConfig request. unfold buildKubernetesApiUrl, verbs.
  pose proof (split_nonempty operation) as Hne.
  destruct (split operation) as [|verb parts]; [contradiction|].
  cbn [nth_error nth strictEq].
  destruct (String.eqb_spec verb "get") as [->|_]; [intros _; left; reflexivity|].
  destruct (String.eqb_spec verb "logs") as [->|_]; [intros _; right; left; reflexivity|].
  destruct (String.eqb_spec verb "describe") as [->|_]; [|discriminate].
  intros _. right. right. left. reflexivity.
Qed.

Lemma nth_error_firstn3 : forall (l : list string) i,
  (i < 3)%nat -> nth_error (firstn 3 l) i = nth_error l i.
Proof.
  intros l i Hi.
  destruct l as [|a [|b [|c l]]]; destruct i as [|[|[|i]]]; try reflexivity; lia.
Qed.

(** X25: whatever the operation, a request that [buildKubernetesApiUrl]
    builds is a GET; its verb, the first word of the operation, is get, logs
    or describe; and the text of its URL begins with the cluster's endpoint
    (less a final slash) followed by /api/v1/nodes, or by the path of the
    configured namespace (default when none is set) under /api/v1 or
    /apis/apps/v1.  No operation builds a request with another method, and an
    operation with another verb builds none. *)
Theorem only_reads_reach_the_cluster : forall operation clusterConfig request,
  buildKubernetesApiUrl operation clusterConfig = Some request ->
  method request = "GET"
  /\ In (nth 0 (split operation) "") verbs
  /\ exists rest,
       let baseUrl := dropFinalSlash (Cluster.endpoint clusterConfig) in
       let namespace := orElse (Some (Cluster.namespace clusterConfig)) "default" in
       url request = baseUrl ++ "/api/v1/nodes" ++ rest
       \/ url request = baseUrl ++ "/api/v1/namespaces/" ++ namespace ++ "/" ++ rest
       \/ url request = baseUrl ++ "/apis/apps/v1/namespaces/" ++ namespace ++ "/" ++ rest.
Proof.
  intros operation clusterConfig request. unfold buildKubernetesApiUrl, verbs.
  pose proof (split_nonempty operation) as Hne.
  destruct (split operation) as [|verb parts]; [contradiction|].
  cbn [nth_error nth strictEq].
  set (baseUrl := dropFinalSlash (Cluster.endpoint clusterConfig)).
  set (namespace := orElse (Some (Cluster.namespace clusterConfig)) "default").
  destruct (String.eqb_spec verb "get") as [->|_].
  - destruct parts as [|resource names]; cbn [nth_error strictEq orb]; [discriminate|].
    destruct (String.eqb resource "pods").
    { intros E. injection E as <-. cbn [method url]. split; [reflexivity|].
      split; [left; reflexivity|].
      destruct names as [|[|c r] ?]; cbn [nth_error]; eexists; right; left;
        cbv zeta; reflexivity. }
    destruct (String.eqb resource "services" || String.eqb resource "svc").
    { intros E. injection E as <-. cbn [method url]. split; [reflexivity|].
      split; [left; reflexivity|].
      destruct names as [|[|c r] ?]; cbn [nth_error]; eexists; right; left;
        cbv zeta; reflexivity. }
    destruct (String.eqb resource "deployments" || String.eqb resource "deploy").
    { intros E. injection E as <-. cbn [method url]. split; [reflexivity|].
      split; [left; reflexivity|].
      destruct names as [|[|c r] ?]; cbn [nth_error]; eexists; right; right;
        cbv zeta; reflexivity. }
    destruct (String.eqb resource "nodes"); [|discriminate].
    intros E. injection E as <-. cbn [method url]. split; [reflexivity|].
    split; [left; reflexivity|].
    destruct names as [|[|c r] ?]; cbn [nth_error].
    + exists "". left. reflexivity.
    + exists "". left. reflexivity.
    + exists ("/" ++ String c r). left. reflexivity.
  - destruct (String.eqb_spec verb "logs") as [->|_].
    + destruct parts as [|podName names]; cbn [nth_error]; [discriminate|].
      intros E. injection E as <-. cbn [method url]. split; [reflexivity|].
      split; [right; left; reflexivity|].
      eexists. right. left. cbv zeta. reflexivity.
    + destruct (String.eqb_spec verb "describe") as [->|_]; [|discriminate].
      destruct parts as [|resource [|[|c r] names]]; cbn [nth_error truthy strictEq andb];
        rewrite ?andb_false_r; try discriminate.
      destruct (String.eqb resource "pod"); cbn [andb orElse]; [|discriminate].
      intros E. injection E as <-. cbn [method url]. split; [reflexivity|].
      split; [right; right; left; reflexivity|].
      eexists. right. left. cbv zeta. reflexivity.
Qed.

Lemma only_reads_reach_the_cluster_witness :
  buildKubernetesApiUrl "logs web-1" prod = Some MoreSamples.logsRequest
  /\ method MoreSamples.logsRequest = "GET"
  /\ In (nth 0 (split "logs web-1") "") verbs
  /\ exists rest,
       let baseUrl := dropFinalSlash (Cluster.endpoint prod) in
       let namespace := orElse (Some (Cluster.namespace prod)) "default" in
       url MoreSamples.logsRequest = baseUrl ++ "/api/v1/nodes" ++ rest
       \/ url MoreSamples.logsRequest
          = baseUrl ++ "/api/v1/namespaces/" ++ namespace ++ "/" ++ rest
       \/ url MoreSamples.logsRequest
          = baseUrl ++ "/apis/apps/v1/namespaces/" ++ namespace ++ "/" ++ rest.
Proof.
  split; [reflexivity|].
  apply (only_reads_reach_the_cluster "logs web-1" prod MoreSamples.logsRequest).
  reflexivity.
Defined.

(** X26: a request reads three words of the operation at most: two
    operations with the same first three words build the same request, so
    that what follows the resource name, a namespace flag for one, changes
    nothing. *)
Theorem request_reads_three_words : forall operation operation' clusterConfig,
  firstn 3 (split operation) = firstn 3 (split operation') ->
  buildKubernetesApiUrl operation clusterConfig
  = buildKubernetesApiUrl operation' clusterConfig.
Proof.
  intros operation operation' clusterConfig Hsame. unfold buildKubernetesApiUrl.
  rewrite <- (nth_error_firstn3 (split operation) 0),
          <- (nth_error_firstn3 (split operation) 1),
          <- (nth_error_firstn3 (split operation) 2) by lia.
  rewrite <- (nth_error_firstn3 (split operation') 0),
          <- (nth_error_firstn3 (split operation') 1),
          <- (nth_error_firstn3 (split operation') 2) by lia.
  rewrite Hsame. reflexivity.
Qed.

Lemma request_reads_three_words_witness :
  buildKubernetesApiUrl "get pods web-1 -n kube-system" prod
  = buildKubernetesApiUrl "get pods web-1" prod.
Proof.
  apply (request_reads_three_words "get pods web-1 -n kube-system" "get pods web-1" prod).
  reflexivity.
Defined.

(** *** executeKubectl *)

Lemma strictEq_some : forall a s, strictEq a (Some s) = true <-> a = Some s.
Proof.
  intros [x|] s; simpl.
  - rewrite String.eqb_eq. split; [intros ->; reflexivity | intros E; injection E; auto].
  - split; discriminate.
Qed.

(** X27: a command is carried out only if its first word, once the white
    space around the command is stripped, is kubectl and its second word is
    get, logs or describe.  Any other command fails with an error that does
    not depend on the cluster's API: no request is made for it. *)
Theorem refused_commands_send_nothing : forall command clusterConfig,
  ~ (nth_error (words command) 0 = Some "kubectl" /\ In (nth 1 (words command) "") verbs) ->
  exists error,
    forall (Data : Type) (fetch : Cluster.t -> Request -> Response Data)
           (formatKubectlOutput : string -> Data -> string + string),
      executeKubectl fetch formatKubectlOutput command clusterConfig = Failure error.
Proof.
  intros command clusterConfig Hnot. unfold executeKubectl, words in *.
  destruct (strictEq (nth_error (split (trim command)) 0) (Some "kubectl")) eqn:Hfirst.
  - apply strictEq_some in Hfirst.
    destruct (buildKubernetesApiUrl (join (skipn 1 (split (trim command)))) clusterConfig)
      as [request|] eqn:Hbuilt.
    + exfalso. apply Hnot. split; [exact Hfirst|].
      apply built_verb in Hbuilt.
      pose proof (verb_of_operation (trim command)) as Hverb.
      apply nth_error_nth with (d := "") in Hverb. rewrite <- Hverb. exact Hbuilt.
    + exists "Unsupported kubectl command or unable to parse". intros. reflexivity.
  - exists "Only kubectl commands are supported". intros. reflexivity.
Qed.

Lemma refused_commands_send_nothing_witness :
  exists error,
    forall (Data : Type) (fetch : Cluster.t -> Request -> Response Data)
           (formatKubectlOutput : string -> Data -> string + string),
      executeKubectl fetch formatKubectlOutput "kubectl delete pod web-1" prod = Failure error.
Proof.
  apply (refused_commands_send_nothing "kubectl delete pod web-1" prod).
  intros [_ Hverb]. vm_compute in Hverb. intuition discriminate.
Defined.

(** The requests of some commands, read off a cluster that answers with the
    URL it was asked for.  White space around the command is dropped; a
    flag is taken for a resource name, and a name goes into the URL as it was
    typed; two spaces in a row leave an empty word where the verb or the
    resource is looked for. *)
Lemma commands_and_their_requests :
  executeKubectl MoreSamples.echo MoreSamples.asIs "  kubectl get pods web-1 " prod
  = Success "https://k8s.example/api/v1/namespaces/default/pods/web-1"
  /\ executeKubectl MoreSamples.echo MoreSamples.asIs "kubectl get pods -n kube-system" prod
     = Success "https://k8s.example/api/v1/namespaces/default/pods/-n"
  /\ executeKubectl MoreSamples.echo MoreSamples.asIs "kubectl get pods ../secrets" prod
     = Success "https://k8s.example/api/v1/namespaces/default/pods/../secrets"
  /\ executeKubectl MoreSamples.echo MoreSamples.asIs "kubectl get nodes" prod
     = Success "https://k8s.example/api/v1/nodes"
  /\ executeKubectl MoreSamples.echo MoreSamples.asIs "kubectl  get pods" prod
     = Failure "Unsupported kubectl command or unable to parse"
  /\ executeKubectl MoreSamples.echo MoreSamples.asIs "kubectl logs" prod
     = Failure "Unsupported kubectl command or unable to parse"
  /\ executeKubectl MoreSamples.echo MoreSamples.asIs "Kubectl get pods" prod
     = Failure "Only kubectl commands are supported".
Proof. repeat split. Qed.

(** *** calculateAge *)

(** X28: the age of a resource that was not created in the future is the
    whole number of days since its creation when that is a day or more, else
    the whole number of hours when that is an hour or more, else the whole
    number of minutes (0m under a minute).  For a creation time in the
    future, the age is in minutes, between -60 and 0, whatever the distance:
    a resource created two hours ahead of the clock shows 0m. *)
Theorem age_counts_whole_units : forall now created,
  let diff := (now - created)%Z in
  let age := calculateAge now created in
  ((0 <= diff)%Z ->
   ((86400000 <= diff)%Z /\ age = {| count := (diff / 86400000)%Z; unit := "d" |})
   \/ ((3600000 <= diff < 86400000)%Z
       /\ age = {| count := (diff / 3600000)%Z; unit := "h" |})
   \/ ((diff < 3600000)%Z /\ age = {| count := (diff / 60000)%Z; unit := "m" |}))
  /\ ((diff < 0)%Z -> unit age = "m" /\ (-60 <= count age <= 0)%Z).
Proof.
  intros now created diff age. subst age. unfold calculateAge. fold diff.
  change (1000 * 60 * 60 * 24)%Z with 86400000%Z.
  change (1000 * 60 * 60)%Z with 3600000%Z.
  change (1000 * 60)%Z with 60000%Z.
  split.
  - intros Hpos.
    rewrite !Z.rem_mod_nonneg by lia.
    destruct (Z.ltb_spec 0 (diff / 86400000)) as [Hd|Hd].
    + left. split; [|reflexivity].
      destruct (Z.lt_ge_cases diff 86400000) as [H|H]; [|exact H].
      rewrite Z.div_small in Hd by lia. lia.
    + assert (Hday : (diff < 86400000)%Z).
      { destruct (Z.lt_ge_cases diff 86400000) as [H|H]; [exact H|].
        assert (0 < diff / 86400000)%Z by (apply Z.div_str_pos; lia). lia. }
      rewrite (Z.mod_small diff 86400000) by lia.
      destruct (Z.ltb_spec 0 (diff / 3600000)) as [Hh|Hh].
      * right. left. split; [|reflexivity].
        destruct (Z.lt_ge_cases diff 3600000) as [H|H]; [|lia].
        rewrite Z.div_small in Hh by lia. lia.
      * assert (Hhour : (diff < 3600000)%Z).
        { destruct (Z.lt_ge_cases diff 3600000) as [H|H]; [exact H|].
          assert (0 < diff / 3600000)%Z by (apply Z.div_str_pos; lia). lia. }
        right. right. split; [exact Hhour|].
        rewrite (Z.mod_small diff 3600000) by lia. reflexivity.
  - intros Hneg.
    assert (Hd : (diff / 86400000 < 0)%Z) by (apply Z.div_lt_upper_bound; lia).
    destruct (Z.ltb_spec 0 (diff / 86400000)) as [H|_]; [lia|].
    assert (Hr1 : (-86400000 < Z.rem diff 86400000 <= 0)%Z)
      by (Z.quot_rem_to_equations; lia).
    assert (Hr2 : (-3600000 < Z.rem diff 3600000 <= 0)%Z)
      by (Z.quot_rem_to_equations; lia).
    assert (Hh : (Z.rem diff 86400000 / 3600000 <= 0)%Z).
    { apply Z.div_le_upper_bound; lia. }
    destruct (Z.ltb_spec 0 (Z.rem diff 86400000 / 3600000)) as [H|_]; [lia|].
    cbn [unit count]. split; [reflexivity|]. split.
    + apply Z.div_le_lower_bound; lia.
    + apply Z.div_le_upper_bound; lia.
Qed.

Lemma age_examples :
  calculateAge 1754586300000 (1754586300000 - 90061000) = {| count := 1; unit := "d" |}
  /\ calculateAge 1754586300000 (1754586300000 - 7199999) = {| count := 1; unit := "h" |}
  /\ calculateAge 1754586300000 (1754586300000 - 59999) = {| count := 0; unit := "m" |}
  /\ calculateAge 1754586300000 (1754586300000 + 7200000) = {| count := 0; unit := "m" |}
  /\ calculateAge 1754586300000 (1754586300000 + 1) = {| count := -1; unit := "m" |}.
Proof. repeat split. Qed.

End KubectlFacts.
